(** * The ezdxf [Importer] add-on: a shallow embedding and its properties

    The development follows [src/ezdxf/addons/importer.py].  A drawing is a
    record holding an entity store, four resource tables, block definitions
    and layouts; the importer session is a record threaded through a small
    state-and-exception monad.  Entities that are mutated after they have
    been attached to a layout are reached through their index in the entity
    store, so that the pending INSERT queue and the layouts share them. *)

From stdpp Require Import base option list gmap strings pretty.

Open Scope string_scope.

(** ** Entities *)

(** The drawing an object is linked to, as seen from one import session. *)
Inductive docref := SourceDoc | TargetDoc.

Global Instance docref_eq_dec : EqDecision docref.
Proof. solve_decision. Defined.

(** A DXF entity (graphical entity or table entry).  [dxf] is the DXF
    attribute namespace; [appdata], [reactors], [extension_dict] and [xdata]
    are the containers that may refer back to the drawing the entity comes
    from; [attribs] and [vertices] are the sub-entities owned by INSERT and
    POLYLINE.  [supported_dxf_attribs] and [copy_supported] stand for what the
    entity's class answers to [is_supported_dxf_attrib] and whether its
    [copy] method is implemented. *)
#[warnings="-register-all"]
Inductive entity := Entity {
  dxftype : string;
  doc : option docref;
  dxf : gmap string string;
  supported_dxf_attribs : list string;
  copy_supported : bool;
  appdata : option (list string);
  reactors : option (list string);
  extension_dict : option (list string);
  xdata : option (list string);
  attribs : list entity;
  vertices : list entity
}.

Definition set_doc (d : option docref) (e : entity) : entity :=
  Entity (dxftype e) d (dxf e) (supported_dxf_attribs e) (copy_supported e)
         (appdata e) (reactors e) (extension_dict e) (xdata e)
         (attribs e) (vertices e).

Definition set_dxf (m : gmap string string) (e : entity) : entity :=
  Entity (dxftype e) (doc e) m (supported_dxf_attribs e) (copy_supported e)
         (appdata e) (reactors e) (extension_dict e) (xdata e)
         (attribs e) (vertices e).

Definition set_attribs (l : list entity) (e : entity) : entity :=
  Entity (dxftype e) (doc e) (dxf e) (supported_dxf_attribs e)
         (copy_supported e) (appdata e) (reactors e) (extension_dict e)
         (xdata e) l (vertices e).

Definition set_vertices (l : list entity) (e : entity) : entity :=
  Entity (dxftype e) (doc e) (dxf e) (supported_dxf_attribs e)
         (copy_supported e) (appdata e) (reactors e) (extension_dict e)
         (xdata e) (attribs e) l.

(** [entity.get_dxf_attrib(key, default)] *)
Definition get_dxf_attrib (e : entity) (key dflt : string) : string :=
  default dflt (dxf e !! key).

(** [entity.dxf.hasattr(key)] *)
Definition dxf_hasattr (e : entity) (key : string) : bool :=
  bool_decide (is_Some (dxf e !! key)).

(** [entity.dxf.discard(key)] *)
Definition dxf_discard (key : string) (e : entity) : entity :=
  set_dxf (delete key (dxf e)) e.

(** [entity.dxf.key = value] *)
Definition dxf_set (key value : string) (e : entity) : entity :=
  set_dxf (<[key := value]> (dxf e)) e.

(** [entity.is_supported_dxf_attrib(key)] *)
Definition is_supported_dxf_attrib (e : entity) (key : string) : bool :=
  bool_decide (key ∈ supported_dxf_attribs e).

(** Modelled from the spec: [DXFEntity.copy], the full-copy operation of an
    entity, which fails with the type-incompatible condition (DXFTypeError,
    here [None]) when the entity's type does not support duplication.  The
    copy is a value of its own, sub-entities included. *)
Definition copy (e : entity) : option entity :=
  if copy_supported e then Some e else None.

(** ** Dependency stripper and entity cloner *)

(** [remove_dependencies(entity, xdata=False)] *)
Definition remove_dependencies (e : entity) (xdata_flag : bool) : entity :=
  Entity (dxftype e) (doc e) (dxf e) (supported_dxf_attribs e)
         (copy_supported e)
         None None None
         (if negb xdata_flag then None else xdata e)
         (attribs e) (vertices e).

(** [new_clean_entity(entity, xdata=False)] *)
Definition new_clean_entity (e : entity) (xdata_flag : bool) : option entity :=
  match copy e with
  | None => None
  | Some new_entity =>
      Some (remove_dependencies (set_doc None new_entity) xdata_flag)
  end.

(** ** Documents *)

(** A block definition: the attributes of its BLOCK entity and the handles
    of the entities it contains. *)
Record block_layout := BlockLayout {
  block_dxf : gmap string string;
  block_entities : list nat
}.

(** A layout of the layout collection. *)
Record layout := Layout {
  layout_name : string;
  dxf_layout : gmap string string;
  layout_entities : list nat
}.

Record table_section := Tables {
  linetypes : list entity;
  layers : list entity;
  styles : list entity;
  dimstyles : list entity
}.

(** Modelled from the spec: the [Drawing] collaborator, an aggregate owning
    an entity store (registration assigns a fresh identifier, here the next
    index of the store), the four supported tables (entries looked up by
    their name), the block definitions, the model space, the layout
    collection in tab order, and the plot style and material dictionaries
    mapping a name to the handle of the object. *)
Record document := Document {
  entitydb : list entity;
  tables : table_section;
  blocks : list (string * block_layout);
  modelspace : list nat;
  layouts : list layout;
  plotstyles : gmap string string;
  materials : gmap string string
}.

Definition set_entitydb (db : list entity) (d : document) : document :=
  Document db (tables d) (blocks d) (modelspace d) (layouts d)
           (plotstyles d) (materials d).

Definition set_tables (t : table_section) (d : document) : document :=
  Document (entitydb d) t (blocks d) (modelspace d) (layouts d)
           (plotstyles d) (materials d).

Definition set_blocks (b : list (string * block_layout)) (d : document)
  : document :=
  Document (entitydb d) (tables d) b (modelspace d) (layouts d)
           (plotstyles d) (materials d).

Definition set_modelspace (m : list nat) (d : document) : document :=
  Document (entitydb d) (tables d) (blocks d) m (layouts d)
           (plotstyles d) (materials d).

Definition set_layouts (l : list layout) (d : document) : document :=
  Document (entitydb d) (tables d) (blocks d) (modelspace d) l
           (plotstyles d) (materials d).

(** *** Tables, block collection and layout collection

    Modelled from the spec: table lookup, membership, add and remove by
    name; block-collection membership and creation by name; layout
    collection get, create and enumeration in presentation order. *)

Definition dxf_name (e : entity) : string := get_dxf_attrib e "name" "".

Definition entry_named (name : string) (e : entity) : bool :=
  bool_decide (dxf e !! "name" = Some name).

(** [table.get(name)], [None] standing for DXFTableEntryError *)
Definition table_get (name : string) (t : list entity) : option entity :=
  List.find (entry_named name) t.

(** [name in table] *)
Definition table_has (name : string) (t : list entity) : bool :=
  existsb (entry_named name) t.

(** [table.remove(name)] *)
Definition table_remove (name : string) (t : list entity) : list entity :=
  List.filter (fun e => negb (entry_named name e)) t.

(** [table.add_entry(entry)] *)
Definition table_add_entry (e : entity) (t : list entity) : list entity :=
  t ++ [e].

(** [blocks[name]], [None] standing for DXFKeyError *)
Definition blocks_get (name : string) (bs : list (string * block_layout))
  : option block_layout :=
  snd <$> List.find (fun p => bool_decide (fst p = name)) bs.

(** [name in blocks] *)
Definition blocks_has (name : string) (bs : list (string * block_layout))
  : bool :=
  existsb (fun p => bool_decide (fst p = name)) bs.

(** [blocks.new(name, base_point=..., dxfattribs=...)] *)
Definition blocks_new (name : string) (attrs : gmap string string)
    (bs : list (string * block_layout)) : list (string * block_layout) :=
  bs ++ [(name, BlockLayout attrs [])].

(** [layouts.get(name)], [None] standing for KeyError *)
Definition layouts_get (name : string) (ls : list layout) : option layout :=
  List.find (fun l => bool_decide (layout_name l = name)) ls.

(** [name in layouts] *)
Definition layouts_has (name : string) (ls : list layout) : bool :=
  existsb (fun l => bool_decide (layout_name l = name)) ls.

(** [layouts.new(name, dxfattribs=...)] *)
Definition layouts_new (name : string) (attrs : gmap string string)
    (ls : list layout) : list layout :=
  ls ++ [Layout name attrs []].

(** [layouts.names_in_taborder()] *)
Definition names_in_taborder (ls : list layout) : list string :=
  layout_name <$> ls.

(** The entities of a block or layout, read through the entity store. *)
Definition entities_of (d : document) (handles : list nat) : list entity :=
  omap (fun h => entitydb d !! h) handles.

(** A layout object handed to the importer: the drawing it belongs to and
    which entity space of that drawing it is. *)
Inductive layout_key :=
  | ModelSpace
  | PaperSpace (name : string)
  | BlockSpace (name : string).

Record base_layout := BaseLayout {
  layout_doc : docref;
  layout_space : layout_key
}.

Fixpoint add_to_block (name : string) (h : nat)
    (bs : list (string * block_layout)) : list (string * block_layout) :=
  match bs with
  | [] => []
  | (n, b) :: rest =>
      if bool_decide (n = name)
      then (n, BlockLayout (block_dxf b) (block_entities b ++ [h])) :: rest
      else (n, b) :: add_to_block name h rest
  end.

Fixpoint add_to_layout (name : string) (h : nat) (ls : list layout)
  : list layout :=
  match ls with
  | [] => []
  | l :: rest =>
      if bool_decide (layout_name l = name)
      then Layout (layout_name l) (dxf_layout l) (layout_entities l ++ [h])
           :: rest
      else l :: add_to_layout name h rest
  end.

(** [layout.add_entity(entity)] for an entity registered under handle [h] *)
Definition add_entity (k : layout_key) (h : nat) (d : document) : document :=
  match k with
  | ModelSpace => set_modelspace (modelspace d ++ [h]) d
  | PaperSpace name => set_layouts (add_to_layout name h (layouts d)) d
  | BlockSpace name => set_blocks (add_to_block name h (blocks d)) d
  end.

(** [entitydb.add(entity)]: the entity is stored under a fresh handle, which
    is returned with the new drawing. *)
Definition entitydb_add (e : entity) (d : document) : nat * document :=
  (length (entitydb d), set_entitydb (entitydb d ++ [e]) d).

(** ** The import session *)

Record importer := Importer {
  source : document;
  target : document;
  used_layers : gset string;
  used_linetypes : gset string;
  used_styles : gset string;
  used_dimstyles : gset string;
  used_arrows : gset string;
  imported_inserts : list nat;
  imported_blocks : gmap string string;
  _default_plotstyle_handle : string;
  _default_material_handle : string
}.

(** [Importer.__init__(source, target)], [None] standing for the KeyError of
    a target without the plot style "Normal" or the material "Global". *)
Definition new_importer (src tgt : document) : option importer :=
  match plotstyles tgt !! "Normal", materials tgt !! "Global" with
  | Some p, Some m => Some (Importer src tgt ∅ ∅ ∅ ∅ ∅ [] ∅ p m)
  | _, _ => None
  end.

Definition set_source (d : document) (s : importer) : importer :=
  Importer d (target s) (used_layers s) (used_linetypes s) (used_styles s)
           (used_dimstyles s) (used_arrows s) (imported_inserts s)
           (imported_blocks s) (_default_plotstyle_handle s)
           (_default_material_handle s).

Definition set_target (d : document) (s : importer) : importer :=
  Importer (source s) d (used_layers s) (used_linetypes s) (used_styles s)
           (used_dimstyles s) (used_arrows s) (imported_inserts s)
           (imported_blocks s) (_default_plotstyle_handle s)
           (_default_material_handle s).

Definition set_used_layers (x : gset string) (s : importer) : importer :=
  Importer (source s) (target s) x (used_linetypes s) (used_styles s)
           (used_dimstyles s) (used_arrows s) (imported_inserts s)
           (imported_blocks s) (_default_plotstyle_handle s)
           (_default_material_handle s).

Definition set_used_linetypes (x : gset string) (s : importer) : importer :=
  Importer (source s) (target s) (used_layers s) x (used_styles s)
           (used_dimstyles s) (used_arrows s) (imported_inserts s)
           (imported_blocks s) (_default_plotstyle_handle s)
           (_default_material_handle s).

Definition set_used_styles (x : gset string) (s : importer) : importer :=
  Importer (source s) (target s) (used_layers s) (used_linetypes s) x
           (used_dimstyles s) (used_arrows s) (imported_inserts s)
           (imported_blocks s) (_default_plotstyle_handle s)
           (_default_material_handle s).

Definition set_used_dimstyles (x : gset string) (s : importer) : importer :=
  Importer (source s) (target s) (used_layers s) (used_linetypes s)
           (used_styles s) x (used_arrows s) (imported_inserts s)
           (imported_blocks s) (_default_plotstyle_handle s)
           (_default_material_handle s).

Definition set_used_arrows (x : gset string) (s : importer) : importer :=
  Importer (source s) (target s) (used_layers s) (used_linetypes s)
           (used_styles s) (used_dimstyles s) x (imported_inserts s)
           (imported_blocks s) (_default_plotstyle_handle s)
           (_default_material_handle s).

Definition set_imported_inserts (x : list nat) (s : importer) : importer :=
  Importer (source s) (target s) (used_layers s) (used_linetypes s)
           (used_styles s) (used_dimstyles s) (used_arrows s) x
           (imported_blocks s) (_default_plotstyle_handle s)
           (_default_material_handle s).

Definition set_imported_blocks (x : gmap string string) (s : importer)
  : importer :=
  Importer (source s) (target s) (used_layers s) (used_linetypes s)
           (used_styles s) (used_dimstyles s) (used_arrows s)
           (imported_inserts s) x (_default_plotstyle_handle s)
           (_default_material_handle s).

(** ** State and exception monad

    A call either returns a value, raises an exception, or runs out of
    fuel; the session as mutated so far survives a raised exception. *)

Inductive exn :=
  | DXFStructureError
  | DXFTypeError
  | DXFValueError
  | TypeError
  | ValueError
  | KeyError.

Inductive result (A : Type) :=
  | Ret (a : A) (s : importer)
  | Raise (e : exn) (s : importer)
  | OutOfFuel.

Arguments Ret {A} a s.
Arguments Raise {A} e s.
Arguments OutOfFuel {A}.

Definition M (A : Type) : Type := importer -> result A.

Definition ret {A} (a : A) : M A := fun s => Ret a s.

Definition bind {A B} (m : M A) (k : A -> M B) : M B :=
  fun s =>
    match m s with
    | Ret a s' => k a s'
    | Raise e s' => Raise e s'
    | OutOfFuel => OutOfFuel
    end.

Definition raise {A} (e : exn) : M A := fun s => Raise e s.

Definition modify (f : importer -> importer) : M unit :=
  fun s => Ret tt (f s).

Notation "x <- m ;; k" := (bind m (fun x => k))
  (at level 100, m at next level, right associativity).

(** [for x in l: body(x)] *)
Fixpoint for_each {A} (body : A -> M unit) (l : list A) : M unit :=
  match l with
  | [] => ret tt
  | x :: rest => _ <- body x ;; for_each body rest
  end.

(** The session a call leaves behind, when it comes back at all. *)
Definition final_state {A} (r : result A) : option importer :=
  match r with
  | Ret _ s => Some s
  | Raise _ s => Some s
  | OutOfFuel => None
  end.

(** ** Resource usage tracker *)

Definition IMPORT_TABLES : list string :=
  ["linetypes"; "layers"; "styles"; "dimstyles"].

Definition IMPORT_ENTITIES : list string :=
  ["LINE"; "POINT"; "CIRCLE"; "ARC"; "TEXT"; "SOLID"; "TRACE"; "3DFACE";
   "SHAPE"; "POLYLINE"; "ATTRIB"; "INSERT"; "ELLIPSE"; "MTEXT";
   "LWPOLYLINE"; "SPLINE"; "HATCH"; "MESH"; "XLINE"; "RAY"; "ATTDEF";
   "DIMENSION"; "LEADER"; "VIEWPORT"].

Definition add_used_layer (n : string) (s : importer) : importer :=
  set_used_layers ({[n]} ∪ used_layers s) s.
Definition add_used_linetype (n : string) (s : importer) : importer :=
  set_used_linetypes ({[n]} ∪ used_linetypes s) s.
Definition add_used_style (n : string) (s : importer) : importer :=
  set_used_styles ({[n]} ∪ used_styles s) s.
Definition add_used_dimstyle (n : string) (s : importer) : importer :=
  set_used_dimstyles ({[n]} ∪ used_dimstyles s) s.
Definition add_used_arrow (n : string) (s : importer) : importer :=
  set_used_arrows ({[n]} ∪ used_arrows s) s.

(** [Importer._add_used_resources(entity)] *)
Definition _add_used_resources (e : entity) (s : importer) : importer :=
  let s := add_used_layer (get_dxf_attrib e "layer" "0") s in
  let s := add_used_linetype (get_dxf_attrib e "linetype" "BYLAYER") s in
  let s := if is_supported_dxf_attrib e "style"
           then add_used_style (get_dxf_attrib e "style" "Standard") s
           else s in
  if is_supported_dxf_attrib e "dimstyle"
  then add_used_dimstyle (get_dxf_attrib e "dimstyle" "Standard") s
  else s.

(** [Importer._add_dimstyle_resources(dimstyle)] *)
Definition _add_dimstyle_resources (dimstyle : entity) (s : importer)
  : importer :=
  let s := add_used_style (get_dxf_attrib dimstyle "dimtxsty" "Standard") s in
  let s := add_used_linetype (get_dxf_attrib dimstyle "dimltype" "BYLAYER") s in
  let s := add_used_linetype (get_dxf_attrib dimstyle "dimltex1" "BYLAYER") s in
  let s := add_used_linetype (get_dxf_attrib dimstyle "dimltex2" "BYLAYER") s in
  let s := add_used_arrow (get_dxf_attrib dimstyle "dimblk" "") s in
  let s := add_used_arrow (get_dxf_attrib dimstyle "dimblk1" "") s in
  let s := add_used_arrow (get_dxf_attrib dimstyle "dimblk2" "") s in
  add_used_arrow (get_dxf_attrib dimstyle "dimldrblk" "") s.

(** ** Table importer *)

(** [getattr(doc.tables, name)] for a supported table name *)
Definition get_table (name : string) (t : table_section) : list entity :=
  if bool_decide (name = "linetypes") then linetypes t
  else if bool_decide (name = "layers") then layers t
  else if bool_decide (name = "styles") then styles t
  else dimstyles t.

Definition set_table (name : string) (x : list entity) (t : table_section)
  : table_section :=
  if bool_decide (name = "linetypes")
  then Tables x (layers t) (styles t) (dimstyles t)
  else if bool_decide (name = "layers")
  then Tables (linetypes t) x (styles t) (dimstyles t)
  else if bool_decide (name = "styles")
  then Tables (linetypes t) (layers t) x (dimstyles t)
  else Tables (linetypes t) (layers t) (styles t) x.

Definition source_table (name : string) (s : importer) : list entity :=
  get_table name (tables (source s)).

Definition target_table (name : string) (s : importer) : list entity :=
  get_table name (tables (target s)).

Definition set_source_table (name : string) (x : list entity) (s : importer)
  : importer :=
  set_source (set_tables (set_table name x (tables (source s))) (source s)) s.

Definition set_target_table (name : string) (x : list entity) (s : importer)
  : importer :=
  set_target (set_tables (set_table name x (tables (target s))) (target s)) s.

(** An assignment to the entry object [entry_name] of a table: the first
    entry of that name is replaced by its image. *)
Fixpoint update_entry (entry_name : string) (f : entity -> entity)
    (t : list entity) : list entity :=
  match t with
  | [] => []
  | e :: rest =>
      if entry_named entry_name e then f e :: rest
      else e :: update_entry entry_name f rest
  end.

(** [Importer._set_table_entry_dxf_attribs(entity)], as the new value of
    the entity object it is given *)
Definition _set_table_entry_dxf_attribs (s : importer) (e : entity) : entity :=
  let e := set_doc (Some TargetDoc) e in
  let e := if dxf_hasattr e "plotstyle_handle"
           then dxf_set "plotstyle_handle" (_default_plotstyle_handle s) e
           else e in
  if dxf_hasattr e "material_handle"
  then dxf_set "material_handle" (_default_material_handle s) e
  else e.

(** [Importer._duplicate_table_entry(entry)].  The argument is the entry
    object found in the source table [name]; the method hands that same
    object to [_set_table_entry_dxf_attribs], so the assignments land in
    the source table. *)
Definition _duplicate_table_entry (name : string) (entry : entity)
  : M entity :=
  fun s =>
    match new_clean_entity entry false with
    | None => Raise DXFTypeError s
    | Some new_entry =>
        let s := set_source_table name
                   (update_entry (dxf_name entry)
                      (_set_table_entry_dxf_attribs s) (source_table name s))
                   s in
        let '(_, tgt) := entitydb_add new_entry (target s) in
        Ret new_entry (set_target tgt s)
    end.

(** The argument [entries] of [import_table]: a string or an iterable. *)
Inductive names_arg :=
  | Str (name : string)
  | Names (names : list string).

(** The body of the loop of [import_table] *)
Definition import_table_entry (name : string) (replace : bool)
    (entry_name : string) : M unit :=
  fun s =>
    match table_get entry_name (source_table name s) with
    | None => Ret tt s
    | Some table_entry =>
        let entry_name := dxf_name table_entry in
        let present := table_has entry_name (target_table name s) in
        if present && negb replace then Ret tt s
        else
          let s := if present
                   then set_target_table name
                          (table_remove (dxf_name table_entry)
                             (target_table name s)) s
                   else s in
          let s := if bool_decide (name = "layers")
                   then add_used_linetype
                          (get_dxf_attrib table_entry "linetype" "Continuous")
                          s
                   else if bool_decide (name = "dimstyles")
                   then _add_dimstyle_resources table_entry s
                   else s in
          (new_table_entry <- _duplicate_table_entry name table_entry ;;
           modify (fun s => set_target_table name
                     (table_add_entry new_table_entry (target_table name s))
                     s)) s
    end.

(** [Importer.import_table(name, entries="*", replace=False)] *)
Definition import_table (name : string) (entries : names_arg)
    (replace : bool) : M unit :=
  fun s =>
    if negb (bool_decide (name ∈ IMPORT_TABLES)) then Raise TypeError s
    else
      let entries :=
        match entries with
        | Str e => if bool_decide (e = "*")
                   then dxf_name <$> source_table name s
                   else [e]
        | Names l => l
        end in
      for_each (import_table_entry name replace) entries s.

(** [Importer.import_tables(table_names="*", replace=False)] *)
Definition import_tables (table_names : names_arg) (replace : bool)
  : M unit :=
  let table_names :=
    match table_names with
    | Str t => if bool_decide (t = "*") then IMPORT_TABLES else [t]
    | Names l => l
    end in
  for_each (fun table_name => import_table table_name (Str "*") replace)
           table_names.

(** ** Entity importer *)

(** An assignment to the entity registered under handle [h] of the target;
    the layouts and the pending queue that hold [h] all see it. *)
Definition update_entity (h : nat) (f : entity -> entity) (s : importer)
  : importer :=
  set_target (set_entitydb (alter f h (entitydb (target s))) (target s)) s.

(** [entity.dxf.<key>] of the target entity under handle [h] *)
Definition entity_attr (h : nat) (key : string) : M string :=
  fun s =>
    match entitydb (target s) !! h with
    | Some e =>
        match dxf e !! key with
        | Some v => Ret v s
        | None => Raise DXFValueError s
        end
    | None => Raise DXFValueError s
    end.

(** [set_dxf_attribs(e)], local to [import_entity] *)
Definition set_dxf_attribs (e : entity) : entity :=
  let e := set_doc (Some TargetDoc) e in
  let e := dxf_discard "plotstyle_handle" e in
  let e := dxf_discard "material_handle" e in
  dxf_discard "visualstyle_handle" e.

(** [Importer._import_insert(insert)] *)
Definition _import_insert (insert : nat) : M unit :=
  modify (fun s =>
    let s := set_imported_inserts (imported_inserts s ++ [insert]) s in
    update_entity insert
      (fun e => set_attribs
                  ((fun attrib => remove_dependencies attrib false)
                     <$> attribs e) e) s).

(** [Importer._import_polyline(polyline)] *)
Definition _import_polyline (polyline : nat) : M unit :=
  modify (update_entity polyline
    (fun e => set_vertices
                ((fun vertex => remove_dependencies vertex false)
                   <$> vertices e) e)).

(** [Importer._import_hatch(hatch)] *)
Definition _import_hatch (hatch : nat) : M unit :=
  modify (update_entity hatch (dxf_discard "associative")).

(** [Importer._import_viewport(viewport)] *)
Definition _import_viewport (viewport : nat) : M unit :=
  modify (update_entity viewport (fun e =>
    foldl (fun e key => dxf_discard key e) e
      ["sun_handle"; "clipping_boundary_handle"; "ucs_handle";
       "ucs_base_handle"; "background_handle"; "shade_plot_handle";
       "visual_style_handle"; "ref_vp_object_1"; "ref_vp_object_2";
       "ref_vp_object_3"; "ref_vp_object_4"])).

Section BlockImport.

(** [self.import_block], as seen from the methods it calls back from. *)
Variable import_block_rec : string -> bool -> M string.

(** [import_arrow_blocks()], local to [_import_dimension]: a [for] loop
    over the live pending queue, which grows while it is iterated; [i] is
    the position of the iterator. *)
Fixpoint import_arrow_blocks (fuel : nat) (i : nat) : M unit :=
  match fuel with
  | 0 => fun _ => OutOfFuel
  | S fuel' =>
      fun s =>
        match imported_inserts s !! i with
        | None => Ret tt s
        | Some insert =>
            (name <- entity_attr insert "name" ;;
             _ <- import_block_rec name false ;;
             import_arrow_blocks fuel' (S i)) s
        end
  end.

(** [Importer._import_dimension(dimension)] *)
Definition _import_dimension (fuel : nat) (dimension : nat) : M unit :=
  fun s =>
    let block_name :=
      match entitydb (target s) !! dimension with
      | Some e => default "" (dxf e !! "geometry")
      | None => ""
      end in
    if negb (bool_decide (block_name = "")) then
      if negb (blocks_has block_name (blocks (source s))) then Ret tt s
      else
        let save_imported_inserts := imported_inserts s in
        (_ <- modify (set_imported_inserts []) ;;
         name <- import_block_rec block_name true ;;
         _ <- modify (update_entity dimension (dxf_set "geometry" name)) ;;
         _ <- import_arrow_blocks fuel 0 ;;
         modify (set_imported_inserts save_imported_inserts)) s
    else Ret tt s.

(** [Importer.import_entity(entity, target_layout=None)].  The handler
    looked up under the name ['_import_' + dxftype.lower()] exists for
    five of the supported types. *)
Definition import_entity_with (fuel : nat) (e : entity)
    (target_layout : option base_layout) : M unit :=
  fun s =>
    match
      match target_layout with
      | None => Some ModelSpace
      | Some l => if bool_decide (layout_doc l <> TargetDoc) then None
                  else Some (layout_space l)
      end
    with
    | None => Raise DXFStructureError s
    | Some space =>
        let type := dxftype e in
        if negb (bool_decide (type ∈ IMPORT_ENTITIES)) then Ret tt s
        else
          let s := _add_used_resources e s in
          match new_clean_entity e false with
          | None => Ret tt s
          | Some new_entity =>
              let new_entity := set_dxf_attribs new_entity in
              let '(h, tgt) := entitydb_add new_entity (target s) in
              let s := set_target (add_entity space h tgt) s in
              if bool_decide (type = "INSERT") then _import_insert h s
              else if bool_decide (type = "POLYLINE")
              then _import_polyline h s
              else if bool_decide (type = "HATCH") then _import_hatch h s
              else if bool_decide (type = "VIEWPORT")
              then _import_viewport h s
              else if bool_decide (type = "DIMENSION")
              then _import_dimension fuel h s
              else Ret tt s
          end
    end.

(** [Importer.import_entities(entities, target_layout=None)] *)
Definition import_entities_with (fuel : nat) (entities : list entity)
    (target_layout : option base_layout) : M unit :=
  for_each (fun e => import_entity_with fuel e target_layout) entities.

End BlockImport.

(** ** Block importer *)

(** [get_new_block_name()], local to [import_block]: the [while] loop, with
    the loop variables [num] and [name] as arguments. *)
Fixpoint get_new_block_name_loop (fuel num : nat) (block_name name : string)
    (target_blocks : list (string * block_layout)) : option string :=
  match fuel with
  | 0 => None
  | S fuel' =>
      if blocks_has name target_blocks
      then get_new_block_name_loop fuel' (S num) block_name
             (block_name +:+ pretty num) target_blocks
      else Some name
  end.

(** The loop leaves after at most one test per target block and one more. *)
Definition get_new_block_name (block_name : string)
    (target_blocks : list (string * block_layout)) : option string :=
  get_new_block_name_loop (S (length target_blocks)) 0 block_name block_name
    target_blocks.

(** The attributes of the source block handed to [target_blocks.new] *)
Definition new_block_attribs (b : block_layout) : gmap string string :=
  filter (fun kv => fst kv ∈ ["base_point"; "description"; "flags";
                              "xref_path"]) (block_dxf b).

(** [Importer.import_block(block_name, rename=True)] *)
Fixpoint import_block (fuel : nat) (block_name : string) (rename : bool)
  : M string :=
  match fuel with
  | 0 => fun _ => OutOfFuel
  | S fuel' =>
      fun s =>
        match imported_blocks s !! block_name with
        | Some name => Ret name s
        | None =>
            match blocks_get block_name (blocks (source s)) with
            | None => Raise ValueError s
            | Some source_block =>
                let target_blocks := blocks (target s) in
                if blocks_has block_name target_blocks && negb rename then
                  Ret block_name
                      (set_imported_blocks
                         (<[block_name := block_name]> (imported_blocks s)) s)
                else
                  match get_new_block_name block_name target_blocks with
                  | None => OutOfFuel
                  | Some new_block_name =>
                      let s := set_target
                                 (set_blocks
                                    (blocks_new new_block_name
                                       (new_block_attribs source_block)
                                       target_blocks) (target s)) s in
                      (_ <- import_entities_with (import_block fuel') fuel'
                             (entities_of (source s)
                                (block_entities source_block))
                             (Some (BaseLayout TargetDoc
                                      (BlockSpace new_block_name))) ;;
                       _ <- modify (fun s => set_imported_blocks
                              (<[block_name := new_block_name]>
                                 (imported_blocks s)) s) ;;
                       ret new_block_name) s
                  end
            end
        end
  end.

(** The public entry points, on the fuel of the block importer. *)
Definition import_entity (fuel : nat) (e : entity)
    (target_layout : option base_layout) : M unit :=
  import_entity_with (import_block fuel) fuel e target_layout.

Definition import_entities (fuel : nat) (entities : list entity)
    (target_layout : option base_layout) : M unit :=
  import_entities_with (import_block fuel) fuel entities target_layout.


(** [Importer.import_blocks(block_names, rename=False)] *)
Definition import_blocks (fuel : nat) (block_names : list string)
    (rename : bool) : M unit :=
  for_each (fun block_name => _ <- import_block fuel block_name rename ;;
                              ret tt) block_names.

(** ** Layout recreator *)

Definition lower_char (c : Ascii.ascii) : Ascii.ascii :=
  let n := Ascii.nat_of_ascii c in
  if (65 <=? n)%nat && (n <=? 90)%nat then Ascii.ascii_of_nat (n + 32)
  else c.

(** [str.lower()], on ASCII letters *)
Fixpoint lower (s : string) : string :=
  match s with
  | EmptyString => EmptyString
  | String c rest => String (lower_char c) (lower rest)
  end.

(** [get_target_name()], local to [recreate_source_layout]: the [while]
    loop, with the loop variables [count] and [tname] as arguments. *)
Fixpoint get_target_name_loop (fuel count : nat) (base_name tname : string)
    (target_layouts : list layout) : option string :=
  match fuel with
  | 0 => None
  | S fuel' =>
      if layouts_has tname target_layouts
      then get_target_name_loop fuel' (S count) base_name
             (base_name +:+ pretty count) target_layouts
      else Some tname
  end.

Definition get_target_name (name : string) (target_layouts : list layout)
  : option string :=
  get_target_name_loop (S (length target_layouts)) 1 name name target_layouts.

(** [clear(dxfattribs)], local to [recreate_source_layout] *)
Definition clear (dxfattribs : gmap string string) : gmap string string :=
  foldl (fun m name => delete name m) dxfattribs
    ["handle"; "owner"; "taborder"; "shade_plot_handle";
     "block_record_handle"; "viewport_handle"; "ucs_handle";
     "base_ucs_handle"].

(** [Importer.recreate_source_layout(name)] *)
Definition recreate_source_layout (name : string) : M base_layout :=
  fun s =>
    if bool_decide (lower name = "model")
    then Ret (BaseLayout TargetDoc ModelSpace) s
    else
      match layouts_get name (layouts (source s)) with
      | None => Raise KeyError s
      | Some source_layout =>
          match get_target_name name (layouts (target s)) with
          | None => OutOfFuel
          | Some target_name =>
              let dxfattribs := clear (dxf_layout source_layout) in
              Ret (BaseLayout TargetDoc (PaperSpace target_name))
                  (set_target
                     (set_layouts
                        (layouts_new target_name dxfattribs
                           (layouts (target s))) (target s)) s)
          end
      end.

(** [Importer.import_paperspace_layout(name)] *)
Definition import_paperspace_layout (fuel : nat) (name : string)
  : M base_layout :=
  fun s =>
    if bool_decide (lower name = "model") then Raise DXFTypeError s
    else
      match layouts_get name (layouts (source s)) with
      | None => Raise KeyError s
      | Some source_layout =>
          (target_layout <- recreate_source_layout name ;;
           _ <- import_entities fuel
                  (entities_of (source s) (layout_entities source_layout))
                  (Some target_layout) ;;
           ret target_layout) s
      end.

(** [Importer.import_paperspace_layouts()] *)
Definition import_paperspace_layouts (fuel : nat) : M unit :=
  fun s =>
    for_each
      (fun name =>
         if negb (bool_decide (lower name = "model"))
         then _ <- import_paperspace_layout fuel name ;; ret tt
         else ret tt)
      (names_in_taborder (layouts (source s))) s.

(** ** Insert resolver and finalizer *)

(** The [for] loop of [_resolve_inserts] over the snapshot of the queue *)
Definition resolve_snapshot (fuel : nat) (inserts : list nat) : M unit :=
  for_each
    (fun insert =>
       name <- entity_attr insert "name" ;;
       block_name <- import_block fuel name true ;;
       modify (update_entity insert (dxf_set "name" block_name)))
    inserts.

(** [Importer._resolve_inserts()] *)
Fixpoint _resolve_inserts (fuel : nat) : M unit :=
  match fuel with
  | 0 => fun _ => OutOfFuel
  | S fuel' =>
      fun s =>
        match imported_inserts s with
        | [] => Ret tt s
        | inserts =>
            (_ <- modify (set_imported_inserts []) ;;
             _ <- resolve_snapshot fuel' inserts ;;
             _resolve_inserts fuel') s
        end
  end.

(** One statement of [_import_required_table_entries]:
    [if len(used): self.import_table(name, used)] *)
Definition import_if_used (name : string) (used : importer -> gset string)
  : M unit :=
  fun s =>
    if negb (bool_decide (elements (used s) = []))
    then import_table name (Names (elements (used s))) false s
    else Ret tt s.

(** [Importer._import_required_table_entries()] *)
Definition _import_required_table_entries : M unit :=
  _ <- import_if_used "dimstyles" used_dimstyles ;;
  _ <- import_if_used "layers" used_layers ;;
  _ <- import_if_used "linetypes" used_linetypes ;;
  import_if_used "styles" used_styles.

(** Modelled from the spec: [Drawing.acquire_arrow], which synthesizes a
    well-known arrow symbol directly in the target, as a block definition
    of that name, unless the target has it already. *)
Definition acquire_arrow (name : string) (d : document) : document :=
  if blocks_has name (blocks d) then d
  else set_blocks (blocks_new name ∅ (blocks d)) d.

Section Finalizer.

(** [ARROWS.is_acad_arrow], the table of the well-known arrow names *)
Variable is_acad_arrow : string -> bool.

(** [Importer._create_missing_arrows()] *)
Definition _create_missing_arrows (fuel : nat) : M unit :=
  _ <- modify (fun s => set_used_arrows (used_arrows s ∖ {[""]}) s) ;;
  fun s =>
    for_each
      (fun arrow_name =>
         if is_acad_arrow arrow_name
         then modify (fun s => set_target
                        (acquire_arrow arrow_name (target s)) s)
         else _ <- import_block fuel arrow_name false ;; ret tt)
      (elements (used_arrows s)) s.

(** [Importer.finalize()] *)
Definition finalize (fuel : nat) : M unit :=
  _ <- _resolve_inserts fuel ;;
  _ <- _import_required_table_entries ;;
  _create_missing_arrows fuel.

End Finalizer.

(** * Notions used in the statements *)

(** [inv I m]: whatever session [m] leaves behind, by returning or by
    raising, satisfies [I] when the session it started from does. *)
Definition inv {A} (I : importer -> Prop) (m : M A) : Prop :=
  forall s s', I s -> final_state (m s) = Some s' -> I s'.

(** The shape shared by the two renaming loops: test [name] against a
    membership predicate and move on to [base] followed by the decimal
    numeral of the counter. *)
Fixpoint probe (has : string -> bool) (base : string) (fuel num : nat)
    (name : string) : option string :=
  match fuel with
  | 0 => None
  | S fuel' =>
      if has name then probe has base fuel' (S num) (base +:+ pretty num)
      else Some name
  end.

(** The assignments the type-specific handlers of [import_entity] make to
    the entity they are given. *)
Inductive handler_update : (entity -> entity) -> Prop :=
  | hu_insert :
      handler_update
        (fun e => set_attribs
                    ((fun attrib => remove_dependencies attrib false)
                       <$> attribs e) e)
  | hu_polyline :
      handler_update
        (fun e => set_vertices
                    ((fun vertex => remove_dependencies vertex false)
                       <$> vertices e) e)
  | hu_hatch : handler_update (dxf_discard "associative")
  | hu_viewport :
      handler_update
        (fun e =>
           foldl (fun e key => dxf_discard key e) e
             ["sun_handle"; "clipping_boundary_handle"; "ucs_handle";
              "ucs_base_handle"; "background_handle"; "shade_plot_handle";
              "visual_style_handle"; "ref_vp_object_1"; "ref_vp_object_2";
              "ref_vp_object_3"; "ref_vp_object_4"])
  | hu_geometry (name : string) : handler_update (dxf_set "geometry" name).

(** The session after a clean copy has been registered in the target
    store and attached to a layout, as [import_entity] does. *)
Definition register_entity (space : layout_key) (c : entity) (s : importer)
  : importer :=
  set_target
    (add_entity space (length (entitydb (target s)))
       (set_entitydb (entitydb (target s) ++ [set_dxf_attribs c])
          (target s))) s.

(** The session after [_duplicate_table_entry] has handled the entry
    [entry] of the source table [name], with clean copy [c]. *)
Definition duplicated_entry (name : string) (entry c : entity) (s : importer)
  : importer :=
  let s1 := set_source_table name
              (update_entry (dxf_name entry) (_set_table_entry_dxf_attribs s)
                 (source_table name s)) s in
  set_target (snd (entitydb_add c (target s1))) s1.

(** An entity carries no reference back to the drawing it came from. *)
Definition stripped (e : entity) : Prop :=
  appdata e = None /\ reactors e = None /\ extension_dict e = None /\
  xdata e = None.

(** ** Sample drawings

    Small drawings on which the statements are exercised. *)

Definition sample_entity (type : string) (attrs : list (string * string))
  : entity :=
  Entity type (Some SourceDoc) (list_to_map attrs)
         ["layer"; "linetype"] true
         (Some ["ACAD"]) (Some ["1F"]) (Some ["2A"]) (Some ["1001"]) [] [].

Definition sample_block (entities : list nat) : block_layout :=
  BlockLayout ∅ entities.

Definition no_tables : table_section := Tables [] [] [] [].

Definition sample_document (db : list entity) (t : table_section)
    (bs : list (string * block_layout)) (ls : list layout) : document :=
  Document db t bs [] ls {["Normal" := "P0"]} {["Global" := "M0"]}.

(** The session [Importer(src, tgt)] of two sample drawings. *)
Definition sample_session (src tgt : document) : importer :=
  Importer src tgt ∅ ∅ ∅ ∅ ∅ [] ∅ "P0" "M0".

(** The set of used names that [_import_required_table_entries] hands to
    [import_table] for the table [name]. *)
Definition used_set (name : string) (s : importer) : gset string :=
  if bool_decide (name = "linetypes") then used_linetypes s
  else if bool_decide (name = "layers") then used_layers s
  else if bool_decide (name = "styles") then used_styles s
  else used_dimstyles s.

(** A source drawing whose layer [L1] names a plot style and a material of
    the source, and the line type [DASHED]. *)
Definition layer_L1 : entity :=
  Entity "LAYER" (Some SourceDoc)
         (list_to_map [("name", "L1"); ("linetype", "DASHED");
                       ("plotstyle_handle", "5A"); ("material_handle", "5B")])
         ["name"; "linetype"; "plotstyle_handle"; "material_handle"] true
         None None None None [] [].

Definition layered_source : document :=
  sample_document [] (Tables [] [layer_L1] [] []) [] [].

Definition empty_target : document := sample_document [] no_tables [] [].

(** A line on layer [L1] with line type [DASHED], and a source drawing
    whose tables hold both entries. *)
Definition line_L1 : entity :=
  sample_entity "LINE" [("layer", "L1"); ("linetype", "DASHED")].

Definition ltype_DASHED : entity :=
  Entity "LTYPE" (Some SourceDoc) (list_to_map [("name", "DASHED")])
         ["name"] true None None None None [] [].

Definition tabled_source : document :=
  sample_document [line_L1] (Tables [ltype_DASHED] [layer_L1] [] []) [] [].

(** A line of a class without [copy], on layer [L1]. *)
Definition uncopyable_line : entity :=
  Entity "LINE" (Some SourceDoc)
         (list_to_map [("layer", "L1"); ("linetype", "DASHED")])
         ["layer"; "linetype"] false None None None None [] [].

(** A source drawing whose block [B] holds a dimension with geometry block
    [G], which in turn refers to a block that the drawing does not have. *)
Definition dangling_source : document :=
  sample_document
    [sample_entity "DIMENSION" [("geometry", "G")];
     sample_entity "INSERT" [("name", "MISSING")]]
    no_tables
    [("B", sample_block [0]); ("G", sample_block [1])] [].

(** The layout check at the head of [import_entity]. *)
Definition layout_space_of (target_layout : option base_layout)
  : option layout_key :=
  match target_layout with
  | None => Some ModelSpace
  | Some l => if bool_decide (layout_doc l <> TargetDoc) then None
              else Some (layout_space l)
  end.

(** The type-specific handler [import_entity] ends with. *)
Definition post_import (ib : string -> bool -> M string) (fuel : nat)
    (type : string) (h : nat) : M unit :=
  if bool_decide (type = "INSERT") then _import_insert h
  else if bool_decide (type = "POLYLINE") then _import_polyline h
  else if bool_decide (type = "HATCH") then _import_hatch h
  else if bool_decide (type = "VIEWPORT") then _import_viewport h
  else if bool_decide (type = "DIMENSION") then _import_dimension ib fuel h
  else ret tt.

(** The entities of the target store of [s0] are still in the store of
    [s], under the same handles and with the same [name] attribute. *)
Definition names_kept (s0 s : importer) : Prop :=
  forall h e,
    entitydb (target s0) !! h = Some e ->
    exists e', entitydb (target s) !! h = Some e' /\
               dxf e' !! "name" = dxf e !! "name".

(** The state of an arrow block [a] during an import: the target has a
    block of that name, no entity of the source names it as its geometry
    block, and the memo either maps [a] to itself or, as long as [resolved]
    is not set, has no entry for it. *)
Definition arrow_kept (a : string) (resolved : bool) (s : importer) : Prop :=
  blocks_has a (blocks (target s)) = true /\
  (forall e, e ∈ entitydb (source s) -> dxf e !! "geometry" <> Some a) /\
  (imported_blocks s !! a = Some a \/
   (resolved = false /\ imported_blocks s !! a = None)).

(** A dimension whose geometry block [*D1] holds a line and a reference to
    the arrow block [_ARROW]; the target has an arrow block of that name. *)
Definition dimension_D1 : entity :=
  sample_entity "DIMENSION" [("geometry", "*D1"); ("layer", "0")].

Definition arrow_insert : entity :=
  sample_entity "INSERT" [("name", "_ARROW"); ("layer", "0")].

Definition dimensioned_source : document :=
  sample_document
    [dimension_D1; sample_entity "LINE" [("layer", "0")]; arrow_insert;
     sample_entity "SOLID" [("layer", "0")]]
    no_tables
    [("*D1", sample_block [1; 2]); ("_ARROW", sample_block [3])] [].

Definition arrow_target : document :=
  sample_document [sample_entity "SOLID" [("layer", "0")]] no_tables
    [("_ARROW", sample_block [0])] [].

(** ** Notions for the insert resolver *)

(** No block definition of the drawing holds a dimension. *)
Definition no_dimension_in_blocks (src : document) : Prop :=
  forall n b e,
    blocks_get n (blocks src) = Some b ->
    e ∈ entities_of src (block_entities b) ->
    dxftype e <> "DIMENSION".

(** The block names reachable from the names [roots] through the block
    references held by the block definitions of the drawing. *)
Inductive reachable (src : document) (roots : list string)
  : string -> Prop :=
  | reachable_root n : n ∈ roots -> reachable src roots n
  | reachable_insert n b x m :
      reachable src roots n ->
      blocks_get n (blocks src) = Some b ->
      x ∈ entities_of src (block_entities b) ->
      dxftype x = "INSERT" ->
      dxf x !! "name" = Some m ->
      reachable src roots m.

(** The block names the pending queue refers to. *)
Definition pending_names (s : importer) : list string :=
  omap (fun h => e ← entitydb (target s) !! h; dxf e !! "name")
       (imported_inserts s).

(** The pending queue holds handles of the target store, each once. *)
Definition queue_wf (s : importer) : Prop :=
  NoDup (imported_inserts s) /\
  forall h, h ∈ imported_inserts s -> h < length (entitydb (target s)).

(** The number of source blocks that the memo has no entry for. *)
Definition unmemoized (s : importer) : nat :=
  length (filter (fun n => imported_blocks s !! n = None)
                 (blocks (source s)).*1).

(** What importing the entities [es], none of them a dimension, into a
    layout of the target does to the session [s]: the store and the queue
    grow, the queue by copies of the INSERTs among [es]. *)
Definition plain_steps (es : list entity) (s s' : importer) : Prop :=
  source s' = source s /\
  imported_blocks s' = imported_blocks s /\
  (blocks (target s')).*1 = (blocks (target s)).*1 /\
  names_kept s s' /\
  length (entitydb (target s)) <= length (entitydb (target s')) /\
  exists newq,
    imported_inserts s' = (imported_inserts s ++ newq)%list /\
    NoDup newq /\
    length newq <= length es /\
    forall h, h ∈ newq ->
      length (entitydb (target s)) <= h < length (entitydb (target s')) /\
      exists c x,
        entitydb (target s') !! h = Some c /\ x ∈ es /\
        dxftype x = "INSERT" /\ dxf c !! "name" = dxf x !! "name".

(** What the resolver has done since the session [s0]: it has copied the
    blocks [imp], each once, each a name of [R] that the memo of [s0] did
    not have, and has left the source as it was. *)
Definition resolver_core (R : string -> Prop) (s0 : importer)
    (imp : list string) (s : importer) : Prop :=
  source s = source s0 /\
  NoDup imp /\
  (forall n, n ∈ imp ->
     R n /\ imported_blocks s0 !! n = None /\
     is_Some (imported_blocks s !! n)) /\
  (forall n, is_Some (imported_blocks s0 !! n) ->
             is_Some (imported_blocks s !! n)) /\
  length (blocks (target s)) = length (blocks (target s0)) + length imp /\
  unmemoized s + length imp <= unmemoized s0.

(** The handles [pend] are still to be resolved: each stands once, for an
    entity of the target store whose block name is a name of [R]. *)
Definition pending_ok (R : string -> Prop) (pend : list nat) (s : importer)
  : Prop :=
  NoDup pend /\
  forall h, h ∈ pend ->
    h < length (entitydb (target s)) /\
    forall e m, entitydb (target s) !! h = Some e ->
                dxf e !! "name" = Some m -> R m.

(** A source drawing whose blocks [A] and [B] refer to each other: [A]
    holds a reference to [B] and a line, [B] a reference to [A]. *)
Definition insert_A : entity := sample_entity "INSERT" [("name", "A")].

Definition insert_B : entity := sample_entity "INSERT" [("name", "B")].

Definition crossed_source : document :=
  sample_document [insert_A; insert_B; sample_entity "LINE" []] no_tables
    [("A", sample_block [1; 2]); ("B", sample_block [0])] [].

(** A source drawing whose block [D] holds a line and a dimension with
    geometry block [D]. *)
Definition self_dimension : entity :=
  sample_entity "DIMENSION" [("geometry", "D")].

Definition looping_source : document :=
  sample_document [sample_entity "LINE" []; self_dimension] no_tables
    [("D", sample_block [0; 1])] [].

(** Every name the memo answers with is a block of the target. *)
Definition memo_sound (s : importer) : Prop :=
  forall n r, imported_blocks s !! n = Some r ->
              blocks_has r (blocks (target s)) = true.

(** The entity under handle [h] of the target store names a block that the
    target has. *)
Definition resolved (h : nat) (s : importer) : Prop :=
  exists e r, entitydb (target s) !! h = Some e /\
              dxf e !! "name" = Some r /\
              blocks_has r (blocks (target s)) = true.

(** ** Notions for the table importer *)

(** The session before [import_table] duplicates the source entry
    [table_entry] of the table [name]: an entry of that name that the
    target holds has been removed and the resources that the entry names
    have been recorded. *)
Definition table_entry_prepared (name : string) (table_entry : entity)
    (s : importer) : importer :=
  let s := if table_has (dxf_name table_entry) (target_table name s)
           then set_target_table name
                  (table_remove (dxf_name table_entry) (target_table name s))
                  s
           else s in
  if bool_decide (name = "layers")
  then add_used_linetype (get_dxf_attrib table_entry "linetype" "Continuous") s
  else if bool_decide (name = "dimstyles")
  then _add_dimstyle_resources table_entry s
  else s.

(** The session after [import_table] has copied the source entry
    [table_entry], with clean copy [c], into the table [name]. *)
Definition table_entry_copied (name : string) (table_entry c : entity)
    (s : importer) : importer :=
  let s2 := duplicated_entry name table_entry c
              (table_entry_prepared name table_entry s) in
  set_target_table name (table_add_entry c (target_table name s2)) s2.

(** Every entry of the source table [name] can be copied. *)
Definition source_table_copyable (name : string) (s : importer) : Prop :=
  forall x, x ∈ source_table name s -> copy_supported x = true.

(** The layer [0]. *)
Definition layer_0 : entity :=
  Entity "LAYER" (Some TargetDoc) (list_to_map [("name", "0")])
         ["name"; "linetype"] true None None None None [] [].

(** The [name] attributes of the entries of a table, in table order. *)
Definition entry_names (t : list entity) : list (option string) :=
  (fun e => dxf e !! "name") <$> t.

(** What entity and block import leave of the target drawing of [s0]: the
    blocks, by name and in their order, the layouts, by name, the
    tables, and every entity of the store, under its handle and with its
    type. *)
Definition target_kept (s0 s : importer) : Prop :=
  (blocks (target s0)).*1 `prefix_of` (blocks (target s)).*1 /\
  layout_name <$> layouts (target s) = layout_name <$> layouts (target s0) /\
  tables (target s) = tables (target s0) /\
  forall h e, entitydb (target s0) !! h = Some e ->
    exists e', entitydb (target s) !! h = Some e' /\ dxftype e' = dxftype e.


(** The layout names that [import_paperspace_layouts] goes through. *)
Definition paperspace_names (d : document) : list string :=
  filter (fun name => lower name <> "model") (names_in_taborder (layouts d)).

(** A source with the layouts [Model], [Layout1], which holds a line, and
    [Layout2], and a target that has a layout [Layout1]. *)
Definition paper_source : document :=
  sample_document [sample_entity "LINE" []] no_tables []
    [Layout "Model" ∅ []; Layout "Layout1" ∅ [0]; Layout "Layout2" ∅ []].

Definition paper_target : document :=
  sample_document [] no_tables [] [Layout "Layout1" ∅ []].

(** The target has a block under every name the memo knows, and under
    every name the memo answers with. *)
Definition memo_in_target (s : importer) : Prop :=
  forall n r, imported_blocks s !! n = Some r ->
    blocks_has n (blocks (target s)) = true /\
    blocks_has r (blocks (target s)) = true.

(** A source drawing whose block [A] holds a line, and a target that has a
    block [A] of its own. *)
Definition renamed_source : document :=
  sample_document [sample_entity "LINE" []] no_tables
    [("A", sample_block [0])] [].

Definition renamed_target : document :=
  sample_document [] no_tables [("A", sample_block [])] [].

(** ** Calls between an import and [finalize] *)


(** A source drawing with a leader of dimension style [DS]; the style
    names the arrow block [MYARROW], which holds a line on layer [LZ]; the
    tables of the drawing hold the style and the layer. *)
Definition arrow_leader : entity :=
  Entity "LEADER" (Some SourceDoc)
         (list_to_map [("layer", "0"); ("dimstyle", "DS")])
         ["layer"; "linetype"; "dimstyle"] true None None None None [] [].

Definition dimstyle_DS : entity :=
  Entity "DIMSTYLE" (Some SourceDoc)
         (list_to_map [("name", "DS"); ("dimblk", "MYARROW")])
         ["name"; "dimblk"] true None None None None [] [].

Definition layer_LZ : entity :=
  Entity "LAYER" (Some SourceDoc) (list_to_map [("name", "LZ")])
         ["name"; "linetype"] true None None None None [] [].

Definition arrowed_source : document :=
  sample_document [arrow_leader; sample_entity "LINE" [("layer", "LZ")]]
    (Tables [] [layer_LZ] [] [dimstyle_DS])
    [("MYARROW", sample_block [1])] [].

(** ** Sub-entities *)

(** An entity and the sub-entities it comes with, the attributes of a
    block reference and the vertices of a polyline, carry no reference
    back to the drawing they came from. *)
Definition stripped_deep (e : entity) : Prop :=
  stripped e /\
  (dxftype e = "INSERT" -> Forall stripped (attribs e)) /\
  (dxftype e = "POLYLINE" -> Forall stripped (vertices e)).

(** The entities registered in the target store from handle [first] on
    are stripped, sub-entities included. *)
Definition imported_entities_stripped (first : nat) (s : importer) : Prop :=
  forall h x, first <= h -> entitydb (target s) !! h = Some x ->
              stripped_deep x.



(** The memo [m'] is the memo [m] with entries added that map a name to
    itself. *)
Definition extended_by_identity (m m' : gmap string string) : Prop :=
  forall k, m' !! k = m !! k \/ (m !! k = None /\ m' !! k = Some k).

(** * Properties *)

(** ** Reasoning about the monad *)

Lemma bind_Ret {A B} (m : M A) (k : A -> M B) s b s' :
  bind m k s = Ret b s' ->
  exists a s1, m s = Ret a s1 /\ k a s1 = Ret b s'.
Proof.
  unfold bind. destruct (m s) as [a s1| |]; [eauto | discriminate..].
Qed.

Lemma bind_OutOfFuel_l {A B} (m : M A) (k : A -> M B) s :
  m s = OutOfFuel -> bind m k s = OutOfFuel.
Proof. unfold bind. by intros ->. Qed.

Lemma bind_Ret_l {A B} (m : M A) (k : A -> M B) s a s1 :
  m s = Ret a s1 -> bind m k s = k a s1.
Proof. unfold bind. by intros ->. Qed.

Lemma bind_Raise_l {A B} (m : M A) (k : A -> M B) s e s1 :
  m s = Raise e s1 -> bind m k s = Raise e s1.
Proof. unfold bind. by intros ->. Qed.

Lemma inv_ret {A} I (a : A) : inv I (ret a).
Proof. intros s s' HI [= <-]. done. Qed.

Lemma inv_raise {A} I e : inv I (raise (A := A) e).
Proof. intros s s' HI [= <-]. done. Qed.

Lemma inv_modify I f : (forall s, I s -> I (f s)) -> inv I (modify f).
Proof. intros Hf s s' HI [= <-]. auto. Qed.

Lemma inv_bind {A B} I (m : M A) (k : A -> M B) :
  inv I m -> (forall a, inv I (k a)) -> inv I (bind m k).
Proof.
  intros Hm Hk s s' HI. unfold bind.
  destruct (m s) as [a s1|e s1|] eqn:E; simpl.
  - intros H. eapply Hk; [|exact H]. eapply Hm; [exact HI|]. by rewrite E.
  - intros [= <-]. eapply Hm; [exact HI|]. by rewrite E.
  - discriminate.
Qed.

Lemma inv_for_each {A} I (body : A -> M unit) l :
  (forall x, x ∈ l -> inv I (body x)) -> inv I (for_each body l).
Proof.
  induction l as [|x l IH]; intros Hb; simpl.
  - apply inv_ret.
  - apply inv_bind.
    + apply Hb. constructor.
    + intros _. apply IH. intros y Hy. apply Hb. by constructor.
Qed.

(** A function of the session that is not a monadic composition. *)
Lemma inv_fun {A} I (m : importer -> M A) :
  (forall s0, inv I (m s0)) -> inv I (fun s => m s s).
Proof. intros H s s' HI. by apply H. Qed.

Lemma inv_if {A} I (b : bool) (m1 m2 : M A) :
  inv I m1 -> inv I m2 -> inv I (if b then m1 else m2).
Proof. by destruct b. Qed.

Lemma inv_out_of_fuel {A} I : inv I (fun _ => OutOfFuel (A := A)).
Proof. intros s s' _ [=]. Qed.

Lemma inv_Ret {A} I (a : A) (f : importer -> importer) :
  (forall s, I s -> I (f s)) -> inv I (fun s => Ret a (f s)).
Proof. intros Hf s s' HI [= <-]. auto. Qed.

(** ** The renaming loops *)

Lemma get_new_block_name_loop_probe fuel num block_name name bs :
  get_new_block_name_loop fuel num block_name name bs
  = probe (fun x => blocks_has x bs) block_name fuel num name.
Proof.
  revert num name. induction fuel as [|fuel IH]; intros num name; simpl;
    [done|]. by rewrite IH.
Qed.

Lemma get_target_name_loop_probe fuel count base_name tname ls :
  get_target_name_loop fuel count base_name tname ls
  = probe (fun x => layouts_has x ls) base_name fuel count tname.
Proof.
  revert count tname. induction fuel as [|fuel IH]; intros count tname; simpl;
    [done|]. by rewrite IH.
Qed.

Lemma string_app_empty_r (s : string) : s +:+ "" = s.
Proof.
  induction s as [|c s IH]; [done|].
  change (String c (s +:+ "") = String c s). by rewrite IH.
Qed.

Lemma pretty_N_go_nonempty x s : s <> "" -> pretty_N_go x s <> "".
Proof.
  revert s. induction (N.lt_wf_0 x) as [x _ IH]; intros s Hs.
  assert (x = 0 \/ 0 < x)%N as [->|Hx] by lia.
  - by rewrite pretty_N_go_0.
  - rewrite pretty_N_go_step by done. apply IH; [by apply N.div_lt|done].
Qed.

Lemma pretty_nat_nonempty (i : nat) : pretty i <> "".
Proof.
  unfold pretty, pretty_nat, pretty, pretty_N.
  destruct (decide (N.of_nat i = 0)%N) as [_|Hne]; [done|].
  rewrite pretty_N_go_step by lia. by apply pretty_N_go_nonempty.
Qed.

Section Probe.

Variable has : string -> bool.
Variable base : string.

(** The loop once the counter has been used: [name] is [base] followed by
    the previous value of the counter. *)
Lemma probe_suffix_Some fuel num r :
  probe has base fuel (S num) (base +:+ pretty num) = Some r ->
  exists j, num <= j /\ r = base +:+ pretty j /\ has r = false /\
            forall i, num <= i < j -> has (base +:+ pretty i) = true.
Proof.
  revert num. induction fuel as [|fuel IH]; intros num; simpl; [done|].
  destruct (has (base +:+ pretty num)) eqn:E.
  - intros H. destruct (IH _ H) as (j & Hj & -> & Hfree & Hbelow).
    exists j. split_and!; [lia|done|done|].
    intros i Hi. destruct (decide (i = num)) as [->|]; [done|].
    apply Hbelow. lia.
  - intros [= <-]. exists num. split_and!; [done..|]. intros i Hi. lia.
Qed.

Lemma probe_suffix_None fuel num :
  probe has base fuel (S num) (base +:+ pretty num) = None ->
  forall i, num <= i < num + fuel -> has (base +:+ pretty i) = true.
Proof.
  revert num. induction fuel as [|fuel IH]; intros num; simpl.
  - intros _ i Hi. lia.
  - destruct (has (base +:+ pretty num)) eqn:E; [|done].
    intros H i Hi. destruct (decide (i = num)) as [->|]; [done|].
    apply (IH _ H). lia.
Qed.

Lemma base_ne_suffix (i : nat) : base <> base +:+ pretty i.
Proof.
  intros H. apply (pretty_nat_nonempty i).
  apply (inj (String.app base)). by rewrite <- H, string_app_empty_r.
Qed.

(** The names that are taken are finitely many, so the loop finds a free
    one before it has made one test more than there are names. *)
Variable names : list string.
Hypothesis has_names : forall x, has x = true -> x ∈ names.

Lemma probe_suffix_total fuel start :
  length names <= fuel -> has base = true ->
  probe has base fuel (S start) (base +:+ pretty start) <> None.
Proof.
  intros Hlen Hbase HN.
  pose proof (probe_suffix_None _ _ HN) as Htaken.
  set (l := base :: ((fun i : nat => base +:+ pretty i) <$> seq start fuel)).
  assert (Hnd : NoDup l).
  { constructor.
    - intros (i & Hi & _)%list_elem_of_fmap. by apply base_ne_suffix in Hi.
    - apply NoDup_fmap_2; [|apply NoDup_seq].
      intros i j Hij. by apply (inj (String.app base)), (inj pretty) in Hij. }
  assert (Hin : forall x, x ∈ l -> x ∈ names).
  { intros x [->|(i & -> & Hi)%list_elem_of_fmap]%elem_of_cons.
    - by apply has_names.
    - apply has_names, Htaken. apply elem_of_seq in Hi. lia. }
  pose proof (submseteq_length _ _ (NoDup_submseteq _ _ Hnd Hin)) as Hle.
  unfold l in Hle. simpl in Hle. rewrite length_fmap, length_seq in Hle. lia.
Qed.

Lemma probe_first_free fuel start :
  length names <= fuel -> has base = true ->
  exists j, start <= j /\
    probe has base (S fuel) start base = Some (base +:+ pretty j) /\
    has (base +:+ pretty j) = false /\
    forall i, start <= i < j -> has (base +:+ pretty i) = true.
Proof.
  intros Hlen Hbase. simpl. rewrite Hbase.
  destruct (probe has base fuel (S start) (base +:+ pretty start)) as [r|]
    eqn:E.
  - destruct (probe_suffix_Some _ _ _ E) as (j & Hj & -> & Hfree & Hbelow).
    by exists j.
  - by apply probe_suffix_total in E.
Qed.

End Probe.

Lemma blocks_has_elem_of x (bs : list (string * block_layout)) :
  blocks_has x bs = true -> x ∈ bs.*1.
Proof.
  unfold blocks_has. intros (p & Hp & Hx)%existsb_exists.
  apply bool_decide_eq_true in Hx as <-.
  apply list_elem_of_fmap. exists p. split; [done|]. by apply list_elem_of_In.
Qed.

Lemma elem_of_blocks_has x (bs : list (string * block_layout)) :
  x ∈ bs.*1 -> blocks_has x bs = true.
Proof.
  intros (p & -> & Hp)%list_elem_of_fmap. apply existsb_exists.
  exists p. split; [by apply list_elem_of_In|]. by apply bool_decide_eq_true.
Qed.

Lemma layouts_has_elem_of x (ls : list layout) :
  layouts_has x ls = true -> x ∈ layout_name <$> ls.
Proof.
  unfold layouts_has. intros (l & Hl & Hx)%existsb_exists.
  apply bool_decide_eq_true in Hx as <-.
  apply list_elem_of_fmap. exists l. split; [done|]. by apply list_elem_of_In.
Qed.

(** [get_new_block_name] always leaves its loop, with a name that is free;
    when the block name itself is taken, the name is the block name followed
    by the least number, from 0 on, that makes it free. *)
Lemma get_new_block_name_first_free block_name bs :
  blocks_has block_name bs = true ->
  exists k,
    get_new_block_name block_name bs = Some (block_name +:+ pretty k) /\
    blocks_has (block_name +:+ pretty k) bs = false /\
    forall i, i < k -> blocks_has (block_name +:+ pretty i) bs = true.
Proof.
  intros Hhas. unfold get_new_block_name.
  rewrite get_new_block_name_loop_probe.
  destruct (probe_first_free (fun x => blocks_has x bs) block_name (bs.*1)
              (fun x => blocks_has_elem_of x bs) (length bs) 0)
    as (k & _ & Hk & Hfree & Hbelow); [by rewrite length_fmap|done|].
  exists k. split_and!; [done..|]. intros i Hi. apply Hbelow. lia.
Qed.

Lemma get_new_block_name_free block_name bs :
  blocks_has block_name bs = false ->
  get_new_block_name block_name bs = Some block_name.
Proof. intros H. unfold get_new_block_name. simpl. by rewrite H. Qed.

Lemma get_new_block_name_total block_name bs :
  exists r, get_new_block_name block_name bs = Some r /\
            blocks_has r bs = false.
Proof.
  destruct (blocks_has block_name bs) eqn:E.
  - destruct (get_new_block_name_first_free _ _ E) as (k & Hk & Hfree & _).
    eauto.
  - exists block_name. split; [by apply get_new_block_name_free|done].
Qed.

(** The layout loop: the same, with the numbers starting from 1. *)
Lemma get_target_name_first_free name ls :
  layouts_has name ls = true ->
  exists k,
    1 <= k /\
    get_target_name name ls = Some (name +:+ pretty k) /\
    layouts_has (name +:+ pretty k) ls = false /\
    forall i, 1 <= i < k -> layouts_has (name +:+ pretty i) ls = true.
Proof.
  intros Hhas. unfold get_target_name. rewrite get_target_name_loop_probe.
  destruct (probe_first_free (fun x => layouts_has x ls) name
              (layout_name <$> ls)
              (fun x => layouts_has_elem_of x ls) (length ls) 1)
    as (k & Hk1 & Hk & Hfree & Hbelow); [by rewrite length_fmap|done|].
  by exists k.
Qed.

(** ** Invariants of the import operations

    A property of the session that every elementary assignment of the
    importer keeps is kept by every operation, whichever way it ends. *)

Ltac inv_same := simpl; intros [= <-]; auto.

Section Closure.

Variable I : importer -> Prop.

Hypothesis I_used_layer : forall n s, I s -> I (add_used_layer n s).
Hypothesis I_used_linetype : forall n s, I s -> I (add_used_linetype n s).
Hypothesis I_used_style : forall n s, I s -> I (add_used_style n s).
Hypothesis I_used_dimstyle : forall n s, I s -> I (add_used_dimstyle n s).
Hypothesis I_used_arrow : forall n s, I s -> I (add_used_arrow n s).
Hypothesis I_register : forall space e c s,
  new_clean_entity e false = Some c -> I s -> I (register_entity space c s).
Hypothesis I_update : forall h f s,
  handler_update f -> I s -> I (update_entity h f s).
Hypothesis I_queue : forall q s, I s -> I (set_imported_inserts q s).
Hypothesis I_memo : forall n v s,
  I s -> I (set_imported_blocks (<[n := v]> (imported_blocks s)) s).
Hypothesis I_blocks_new : forall n attrs s,
  I s ->
  I (set_target
       (set_blocks (blocks_new n attrs (blocks (target s))) (target s)) s).

Lemma inv_add_used_resources e s : I s -> I (_add_used_resources e s).
Proof.
  intros HI. unfold _add_used_resources.
  repeat case_match; auto.
Qed.

Lemma inv_entity_attr h key : inv I (entity_attr h key).
Proof.
  intros s s' HI. unfold entity_attr.
  repeat case_match; by inv_same.
Qed.

Lemma inv_import_insert h : inv I (_import_insert h).
Proof.
  apply inv_modify. intros s HI. apply I_update; [constructor|].
  by apply I_queue.
Qed.

Lemma inv_import_polyline h : inv I (_import_polyline h).
Proof. apply inv_modify. intros s HI. apply I_update; [constructor|done]. Qed.

Lemma inv_import_hatch h : inv I (_import_hatch h).
Proof. apply inv_modify. intros s HI. apply I_update; [constructor|done]. Qed.

Lemma inv_import_viewport h : inv I (_import_viewport h).
Proof. apply inv_modify. intros s HI. apply I_update; [constructor|done]. Qed.

Section Callback.

Variable ib : string -> bool -> M string.
Hypothesis inv_ib : forall n r, inv I (ib n r).

Lemma inv_import_arrow_blocks fuel i : inv I (import_arrow_blocks ib fuel i).
Proof.
  revert i. induction fuel as [|fuel IH]; intros i; simpl.
  - apply inv_out_of_fuel.
  - intros s s' HI. destruct (imported_inserts s !! i) as [insert|].
    + revert s s' HI. apply inv_bind; [apply inv_entity_attr|].
      intros name. apply inv_bind; [apply inv_ib|]. intros _. apply IH.
    + by inv_same.
Qed.

Lemma inv_import_dimension fuel h : inv I (_import_dimension ib fuel h).
Proof.
  intros s s' HI. unfold _import_dimension.
  match goal with
  | |- context [bool_decide (?x = "")] => generalize x
  end.
  intros g.
  destruct (negb (bool_decide (g = ""))); [|by inv_same].
  destruct (negb (blocks_has g (blocks (source s)))); [by inv_same|].
  revert s' HI. generalize (imported_inserts s) as saved. intros saved.
  revert s. apply inv_bind; [apply inv_modify; auto|]. intros _.
  apply inv_bind; [apply inv_ib|]. intros name.
  apply inv_bind.
  { apply inv_modify. intros s HI. apply I_update; [constructor|done]. }
  intros _. apply inv_bind; [apply inv_import_arrow_blocks|]. intros _.
  apply inv_modify; auto.
Qed.

Lemma inv_import_entity_with fuel e target_layout :
  inv I (import_entity_with ib fuel e target_layout).
Proof.
  intros s s' HI. unfold import_entity_with.
  assert (Hbody : forall space,
    final_state
      (if negb (bool_decide (dxftype e ∈ IMPORT_ENTITIES)) then Ret tt s
       else
         match new_clean_entity e false with
         | Some new_entity =>
             let s2 := register_entity space new_entity
                         (_add_used_resources e s) in
             let h := length (entitydb (target (_add_used_resources e s))) in
             if bool_decide (dxftype e = "INSERT") then _import_insert h s2
             else if bool_decide (dxftype e = "POLYLINE")
             then _import_polyline h s2
             else if bool_decide (dxftype e = "HATCH") then _import_hatch h s2
             else if bool_decide (dxftype e = "VIEWPORT")
             then _import_viewport h s2
             else if bool_decide (dxftype e = "DIMENSION")
             then _import_dimension ib fuel h s2
             else Ret tt s2
         | None => Ret tt (_add_used_resources e s)
         end) = Some s' -> I s').
  { intros space.
    destruct (negb (bool_decide (dxftype e ∈ IMPORT_ENTITIES)));
      [by inv_same|].
    pose proof (inv_add_used_resources e s HI) as HI1.
    destruct (new_clean_entity e false) as [c|] eqn:Ec; [|by inv_same].
    pose proof (I_register space e c _ Ec HI1) as HI2.
    revert HI2. generalize (register_entity space c (_add_used_resources e s)).
    intros s2 HI2. cbv zeta.
    repeat (match goal with
            | |- context [if bool_decide ?P then _ else _] =>
                destruct (bool_decide P)
            end).
    - by apply inv_import_insert.
    - by apply inv_import_polyline.
    - by apply inv_import_hatch.
    - by apply inv_import_viewport.
    - by apply inv_import_dimension.
    - by inv_same. }
  destruct target_layout as [l|].
  - destruct (bool_decide (layout_doc l <> TargetDoc)); [by inv_same|].
    exact (Hbody (layout_space l)).
  - exact (Hbody ModelSpace).
Qed.

Lemma inv_import_entities_with fuel entities target_layout :
  inv I (import_entities_with ib fuel entities target_layout).
Proof.
  apply inv_for_each. intros e _. apply inv_import_entity_with.
Qed.


End Callback.

Lemma inv_import_block fuel block_name rename :
  inv I (import_block fuel block_name rename).
Proof.
  revert block_name rename.
  induction fuel as [|fuel IH]; intros block_name rename; simpl.
  - apply inv_out_of_fuel.
  - intros s s' HI.
    destruct (imported_blocks s !! block_name); [by inv_same|].
    destruct (blocks_get block_name (blocks (source s))) as [b|];
      [|by inv_same].
    case_match; [intros [= <-]; by apply I_memo|].
    destruct (get_new_block_name block_name (blocks (target s))) as [new|];
      [|done].
    pose proof (I_blocks_new new (new_block_attribs b) s HI) as HI1.
    revert HI1. generalize (source s). intros src.
    generalize (set_target
      (set_blocks (blocks_new new (new_block_attribs b) (blocks (target s)))
         (target s)) s).
    intros s1 HI1. revert s1 s' HI1.
    apply inv_bind; [by apply inv_import_entities_with|]. intros _.
    apply inv_bind; [apply inv_modify; auto|]. intros _. apply inv_ret.
Qed.


Lemma inv_import_entities fuel entities target_layout :
  inv I (import_entities fuel entities target_layout).
Proof. apply inv_import_entities_with, inv_import_block. Qed.


End Closure.

Section FinalizeClosure.

Variable I : importer -> Prop.

Hypothesis inv_block : forall fuel n r, inv I (import_block fuel n r).
Hypothesis I_rename : forall h v s,
  I s -> I (update_entity h (dxf_set "name" v) s).
Hypothesis I_queue : forall q s, I s -> I (set_imported_inserts q s).
Hypothesis I_used_linetype : forall n s, I s -> I (add_used_linetype n s).
Hypothesis I_used_style : forall n s, I s -> I (add_used_style n s).
Hypothesis I_used_arrow : forall n s, I s -> I (add_used_arrow n s).
Hypothesis I_duplicate : forall name entry c s,
  new_clean_entity entry false = Some c ->
  I s -> I (duplicated_entry name entry c s).
Hypothesis I_table_add : forall name c s,
  I s ->
  I (set_target_table name (table_add_entry c (target_table name s)) s).
Hypothesis I_arrows_discard : forall s,
  I s -> I (set_used_arrows (used_arrows s ∖ {[""]}) s).
Hypothesis I_acquire : forall n s,
  I s -> I (set_target (acquire_arrow n (target s)) s).

Lemma inv_resolve_snapshot fuel inserts :
  inv I (resolve_snapshot fuel inserts).
Proof.
  apply inv_for_each. intros insert _.
  apply inv_bind.
  { intros s s' HI. unfold entity_attr. repeat case_match; by inv_same. }
  intros name. apply inv_bind; [apply inv_block|]. intros block_name.
  apply inv_modify. auto.
Qed.

Lemma inv_resolve_inserts fuel : inv I (_resolve_inserts fuel).
Proof.
  induction fuel as [|fuel IH]; simpl; [apply inv_out_of_fuel|].
  intros s s' HI. destruct (imported_inserts s) as [|i q]; [by inv_same|].
  revert s s' HI. apply inv_bind; [apply inv_modify; auto|]. intros _.
  apply inv_bind; [apply inv_resolve_snapshot|]. intros _. apply IH.
Qed.

Lemma inv_add_dimstyle_resources e s :
  I s -> I (_add_dimstyle_resources e s).
Proof. intros HI. unfold _add_dimstyle_resources. auto 10. Qed.

Lemma inv_duplicate_table_entry name entry :
  inv I (_duplicate_table_entry name entry).
Proof.
  intros s s' HI. unfold _duplicate_table_entry.
  destruct (new_clean_entity entry false) as [c|] eqn:Ec; [|by inv_same].
  simpl. intros [= <-]. by apply (I_duplicate name entry c s).
Qed.

Lemma inv_import_table_entry name entry_name :
  inv I (import_table_entry name false entry_name).
Proof.
  intros s s' HI. unfold import_table_entry.
  destruct (table_get entry_name (source_table name s)) as [entry|];
    [|by inv_same].
  destruct (table_has (dxf_name entry) (target_table name s));
    [by inv_same|].
  cbv zeta. simpl andb. cbv iota.
  match goal with
  | |- final_state (bind _ _ ?s1) = _ -> _ => assert (HI1 : I s1)
  end.
  { repeat case_bool_decide; auto using inv_add_dimstyle_resources. }
  revert HI1.
  match goal with
  | |- I ?s1 -> _ => generalize s1
  end.
  intros s1 HI1. revert s1 s' HI1.
  apply inv_bind; [apply inv_duplicate_table_entry|]. intros c.
  apply inv_modify. auto.
Qed.

Lemma inv_import_table name entries :
  inv I (import_table name entries false).
Proof.
  intros s s' HI. unfold import_table.
  destruct (negb (bool_decide (name ∈ IMPORT_TABLES))); [by inv_same|].
  revert HI. apply inv_for_each. intros x _. apply inv_import_table_entry.
Qed.

Lemma inv_import_if_used name used : inv I (import_if_used name used).
Proof.
  intros s s' HI. unfold import_if_used.
  destruct (negb (bool_decide (elements (used s) = []))); [|by inv_same].
  by apply inv_import_table.
Qed.

Lemma inv_import_required_table_entries :
  inv I _import_required_table_entries.
Proof.
  unfold _import_required_table_entries.
  repeat (apply inv_bind; [apply inv_import_if_used|intros _]).
  apply inv_import_if_used.
Qed.

Section Arrows.

Variable is_acad_arrow : string -> bool.

Lemma inv_create_missing_arrows fuel :
  inv I (_create_missing_arrows is_acad_arrow fuel).
Proof.
  unfold _create_missing_arrows.
  apply inv_bind; [apply inv_modify; auto|]. intros _.
  intros s s' HI. revert HI. apply inv_for_each. intros arrow_name _.
  destruct (is_acad_arrow arrow_name); [apply inv_modify; auto|].
  apply inv_bind; [apply inv_block|]. intros _. apply inv_ret.
Qed.

Lemma inv_finalize fuel : inv I (finalize is_acad_arrow fuel).
Proof.
  unfold finalize.
  apply inv_bind; [apply inv_resolve_inserts|]. intros _.
  apply inv_bind; [apply inv_import_required_table_entries|]. intros _.
  apply inv_create_missing_arrows.
Qed.

End Arrows.

End FinalizeClosure.

(** ** Required table entries *)

Lemma inv_Ret_elim {A} I (m : M A) s a s' :
  inv I m -> I s -> m s = Ret a s' -> I s'.
Proof. intros Hm HI E. apply (Hm s s' HI). by rewrite E. Qed.

Lemma for_each_Ret_establishes {A} (body : A -> M unit)
    (Pre P : importer -> Prop) x l s s' :
  (forall y s s', Pre s -> body y s = Ret tt s' -> Pre s') ->
  (forall y s s', P s -> body y s = Ret tt s' -> P s') ->
  (forall s s', Pre s -> body x s = Ret tt s' -> P s') ->
  x ∈ l -> Pre s -> for_each body l s = Ret tt s' -> P s'.
Proof.
  intros HPre HP Hx. revert s.
  assert (Hkeep : forall l s, P s -> for_each body l s = Ret tt s' -> P s').
  { clear -HP. intros l. induction l as [|y l IH]; intros s HPs; simpl.
    - by intros [= <-].
    - intros ([] & s1 & Hy & Hl)%bind_Ret. eapply IH; [|exact Hl]. eauto. }
  induction l as [|y l IH]; intros s Hin HPres; simpl.
  - by apply elem_of_nil in Hin.
  - intros ([] & s1 & Hy & Hl)%bind_Ret.
    apply elem_of_cons in Hin as [<-|Hin].
    + eapply Hkeep; [|exact Hl]. eauto.
    + eapply IH; [done| |exact Hl]. eauto.
Qed.

Lemma get_table_set_table name x t : get_table name (set_table name x t) = x.
Proof. unfold get_table, set_table. by repeat case_bool_decide. Qed.

Lemma get_table_set_table_cases k name x t :
  (get_table k (set_table name x t) = x /\
   get_table k t = get_table name t) \/
  get_table k (set_table name x t) = get_table k t.
Proof.
  unfold get_table, set_table.
  repeat case_bool_decide; simpl; auto.
Qed.

Lemma entitydb_add_entity space h d :
  entitydb (add_entity space h d) = entitydb d.
Proof. by destruct space. Qed.

Lemma tables_add_entity space h d : tables (add_entity space h d) = tables d.
Proof. by destruct space. Qed.

Lemma add_to_block_names name h bs : (add_to_block name h bs).*1 = bs.*1.
Proof.
  induction bs as [|[n b] bs IH]; simpl; [done|].
  case_bool_decide; simpl; [done|]. f_equal. apply IH.
Qed.

Lemma blocks_add_entity_names space h d :
  (blocks (add_entity space h d)).*1 = (blocks d).*1.
Proof.
  destruct space as [|name|name]; simpl; try done.
  apply add_to_block_names.
Qed.

Lemma table_has_app n t1 t2 :
  table_has n (t1 ++ t2) = table_has n t1 || table_has n t2.
Proof. unfold table_has. apply existsb_app. Qed.

Lemma table_has_get n t :
  table_has n t = true ->
  exists e, table_get n t = Some e /\ dxf e !! "name" = Some n.
Proof.
  unfold table_has, table_get.
  induction t as [|e t IH]; simpl; [done|].
  destruct (entry_named n e) eqn:E.
  - intros _. exists e. split; [done|]. by apply bool_decide_eq_true in E.
  - simpl. exact IH.
Qed.

Lemma table_has_update_entry n entry_name f t :
  (forall e, dxf (f e) !! "name" = dxf e !! "name") ->
  table_has n (update_entry entry_name f t) = table_has n t.
Proof.
  intros Hf. unfold table_has.
  induction t as [|e t IH]; simpl; [done|].
  destruct (entry_named entry_name e); simpl.
  - f_equal. unfold entry_named. by rewrite Hf.
  - by rewrite IH.
Qed.

Lemma set_table_entry_dxf_attribs_name s e :
  dxf (_set_table_entry_dxf_attribs s e) !! "name" = dxf e !! "name".
Proof.
  unfold _set_table_entry_dxf_attribs.
  repeat case_match; simpl; by rewrite ?lookup_insert_ne.
Qed.

Lemma new_clean_entity_dxf e flag c :
  new_clean_entity e flag = Some c -> dxf c = dxf e /\ dxftype c = dxftype e.
Proof.
  unfold new_clean_entity, copy. destruct (copy_supported e); [|done].
  by intros [= <-].
Qed.

(** *** Three properties of the session and the operations that keep
    them: a name is recorded as used, the source table holds an entry of
    that name, the target table holds an entry of that name. *)

Lemma used_set_add_layer k n m s :
  n ∈ used_set k s -> n ∈ used_set k (add_used_layer m s).
Proof. unfold used_set. repeat case_bool_decide; simpl; set_solver. Qed.

Lemma used_set_add_linetype k n m s :
  n ∈ used_set k s -> n ∈ used_set k (add_used_linetype m s).
Proof. unfold used_set. repeat case_bool_decide; simpl; set_solver. Qed.

Lemma used_set_add_style k n m s :
  n ∈ used_set k s -> n ∈ used_set k (add_used_style m s).
Proof. unfold used_set. repeat case_bool_decide; simpl; set_solver. Qed.

Lemma used_set_add_dimstyle k n m s :
  n ∈ used_set k s -> n ∈ used_set k (add_used_dimstyle m s).
Proof. unfold used_set. repeat case_bool_decide; simpl; set_solver. Qed.

Lemma source_has_duplicated k n name entry c s :
  table_has n (source_table k s) = true ->
  table_has n (source_table k (duplicated_entry name entry c s)) = true.
Proof.
  unfold duplicated_entry, source_table. simpl.
  destruct (get_table_set_table_cases k name
              (update_entry (dxf_name entry) (_set_table_entry_dxf_attribs s)
                 (get_table name (tables (source s))))
              (tables (source s))) as [[-> Hk]| ->]; [|done].
  rewrite table_has_update_entry
    by apply set_table_entry_dxf_attribs_name.
  by rewrite Hk.
Qed.

Lemma target_has_table_add k n name c s :
  table_has n (target_table k s) = true ->
  table_has n
    (target_table k
       (set_target_table name (table_add_entry c (target_table name s)) s))
  = true.
Proof.
  unfold target_table. simpl.
  destruct (get_table_set_table_cases k name
              (table_add_entry c (get_table name (tables (target s))))
              (tables (target s))) as [[-> Hk]| ->]; [|done].
  unfold table_add_entry. rewrite table_has_app, <- Hk. by intros ->.
Qed.

Lemma target_has_register k n space c s :
  table_has n (target_table k s) = true ->
  table_has n (target_table k (register_entity space c s)) = true.
Proof.
  unfold target_table, register_entity. simpl.
  by rewrite tables_add_entity.
Qed.

Lemma target_has_acquire k n m s :
  table_has n (target_table k s) = true ->
  table_has n (target_table k (set_target (acquire_arrow m (target s)) s))
  = true.
Proof.
  unfold target_table, acquire_arrow. simpl.
  by destruct (blocks_has m (blocks (target s))).
Qed.

Ltac frame_step :=
  first
    [ done
    | intros; by apply used_set_add_layer
    | intros; by apply used_set_add_linetype
    | intros; by apply used_set_add_style
    | intros; by apply used_set_add_dimstyle
    | intros; by apply source_has_duplicated
    | intros; by apply target_has_table_add
    | intros; by apply target_has_register
    | intros; by apply target_has_acquire ].

Lemma used_import_block k n fuel m r :
  inv (fun s => n ∈ used_set k s) (import_block fuel m r).
Proof. apply inv_import_block; frame_step. Qed.

Lemma source_has_import_block k n fuel m r :
  inv (fun s => table_has n (source_table k s) = true)
      (import_block fuel m r).
Proof. apply inv_import_block; frame_step. Qed.

Lemma target_has_import_block k n fuel m r :
  inv (fun s => table_has n (target_table k s) = true)
      (import_block fuel m r).
Proof. apply inv_import_block; frame_step. Qed.

Lemma used_import_table_entry k n name entry_name :
  inv (fun s => n ∈ used_set k s) (import_table_entry name false entry_name).
Proof. apply inv_import_table_entry; frame_step. Qed.

Lemma source_has_import_table_entry k n name entry_name :
  inv (fun s => table_has n (source_table k s) = true)
      (import_table_entry name false entry_name).
Proof. apply inv_import_table_entry; frame_step. Qed.

Lemma target_has_import_table_entry k n name entry_name :
  inv (fun s => table_has n (target_table k s) = true)
      (import_table_entry name false entry_name).
Proof. apply inv_import_table_entry; frame_step. Qed.

Lemma used_import_if_used k n name used :
  inv (fun s => n ∈ used_set k s) (import_if_used name used).
Proof. apply inv_import_if_used; frame_step. Qed.

Lemma source_has_import_if_used k n name used :
  inv (fun s => table_has n (source_table k s) = true)
      (import_if_used name used).
Proof. apply inv_import_if_used; frame_step. Qed.

Lemma target_has_import_if_used k n name used :
  inv (fun s => table_has n (target_table k s) = true)
      (import_if_used name used).
Proof. apply inv_import_if_used; frame_step. Qed.

(** An entry that the source table holds is in the target table once
    [import_table] has been through its name. *)
Lemma import_table_entry_adds k n s s' :
  table_has n (source_table k s) = true ->
  import_table_entry k false n s = Ret tt s' ->
  table_has n (target_table k s') = true.
Proof.
  intros HS. unfold import_table_entry.
  destruct (table_has_get _ _ HS) as (e & -> & Hname).
  assert (Hn : dxf_name e = n).
  { unfold dxf_name, get_dxf_attrib. by rewrite Hname. }
  rewrite Hn. destruct (table_has n (target_table k s)) eqn:Ep.
  - simpl. by intros [= <-].
  - cbv zeta. simpl andb. cbv iota.
    intros (c & s2 & Hdup & Hadd)%bind_Ret.
    unfold _duplicate_table_entry in Hdup.
    destruct (new_clean_entity e false) as [c'|] eqn:Ec; [|done].
    injection Hdup as -> <-. injection Hadd as <-.
    unfold target_table. simpl. rewrite get_table_set_table.
    unfold table_add_entry. rewrite table_has_app. simpl.
    apply new_clean_entity_dxf in Ec as [Ec _].
    unfold entry_named. rewrite Ec, Hname.
    rewrite (bool_decide_eq_true_2 (Some n = Some n)) by done.
    simpl. apply orb_true_r.
Qed.

Lemma import_if_used_adds k n (used : importer -> gset string) s s' :
  n ∈ used s ->
  table_has n (source_table k s) = true ->
  import_if_used k used s = Ret tt s' ->
  table_has n (target_table k s') = true.
Proof.
  intros Hn HS. unfold import_if_used.
  case_bool_decide as Hel; simpl.
  { apply elem_of_elements in Hn. rewrite Hel in Hn.
    by apply elem_of_nil in Hn. }
  unfold import_table.
  destruct (negb (bool_decide (k ∈ IMPORT_TABLES))); [done|].
  apply (for_each_Ret_establishes _
           (fun s => table_has n (source_table k s) = true)
           (fun s => table_has n (target_table k s) = true) n).
  - intros y s0 s1 H0 Hy.
    by apply (inv_Ret_elim _ _ _ _ _
                (source_has_import_table_entry k n k y) H0 Hy).
  - intros y s0 s1 H0 Hy.
    by apply (inv_Ret_elim _ _ _ _ _
                (target_has_import_table_entry k n k y) H0 Hy).
  - intros s0 s1. apply import_table_entry_adds.
  - by apply elem_of_elements.
  - done.
Qed.

Lemma used_import_if_used_Ret k n name used s s' :
  n ∈ used_set k s -> import_if_used name used s = Ret tt s' ->
  n ∈ used_set k s'.
Proof. apply (inv_Ret_elim _ _ _ _ _ (used_import_if_used k n name used)). Qed.

Lemma source_has_import_if_used_Ret k n name used s s' :
  table_has n (source_table k s) = true ->
  import_if_used name used s = Ret tt s' ->
  table_has n (source_table k s') = true.
Proof.
  apply (inv_Ret_elim _ _ _ _ _ (source_has_import_if_used k n name used)).
Qed.

Lemma target_has_import_if_used_Ret k n name used s s' :
  table_has n (target_table k s) = true ->
  import_if_used name used s = Ret tt s' ->
  table_has n (target_table k s') = true.
Proof.
  apply (inv_Ret_elim _ _ _ _ _ (target_has_import_if_used k n name used)).
Qed.

Lemma import_required_table_entries_adds k n s s' :
  k ∈ IMPORT_TABLES ->
  n ∈ used_set k s ->
  table_has n (source_table k s) = true ->
  _import_required_table_entries s = Ret tt s' ->
  table_has n (target_table k s') = true.
Proof.
  intros Hk HU HS. unfold _import_required_table_entries.
  intros ([] & s1 & H1 & ([] & s2 & H2 & ([] & s3 & H3 & H4)%bind_Ret
          )%bind_Ret)%bind_Ret.
  pose proof used_import_if_used_Ret as KU.
  pose proof source_has_import_if_used_Ret as KS.
  pose proof target_has_import_if_used_Ret as KT.
  repeat (apply elem_of_cons in Hk as [->|Hk]);
    [..|by apply elem_of_nil in Hk].
  - (* linetypes *)
    assert (HT : table_has n (target_table "linetypes" s3) = true).
    { apply (import_if_used_adds "linetypes" n used_linetypes s2 s3);
        [change (n ∈ used_set "linetypes" s2)| |exact H3]; eauto. }
    eauto.
  - (* layers *)
    assert (HT : table_has n (target_table "layers" s2) = true).
    { apply (import_if_used_adds "layers" n used_layers s1 s2);
        [change (n ∈ used_set "layers" s1)| |exact H2]; eauto. }
    eauto.
  - (* styles *)
    apply (import_if_used_adds "styles" n used_styles s3 s');
      [change (n ∈ used_set "styles" s3)| |exact H4]; eauto.
  - (* dimstyles *)
    assert (HT : table_has n (target_table "dimstyles" s1) = true).
    { by apply (import_if_used_adds "dimstyles" n used_dimstyles s s1). }
    eauto.
Qed.

Lemma finalize_adds is_acad_arrow fuel k n s s' :
  k ∈ IMPORT_TABLES ->
  n ∈ used_set k s ->
  table_has n (source_table k s) = true ->
  finalize is_acad_arrow fuel s = Ret tt s' ->
  table_has n (target_table k s') = true.
Proof.
  intros Hk HU HS. unfold finalize.
  intros ([] & s1 & H1 & ([] & s2 & H2 & H3)%bind_Ret)%bind_Ret.
  assert (HU1 : n ∈ used_set k s1).
  { refine (inv_Ret_elim (fun s => n ∈ used_set k s) _ _ _ _ _ HU H1).
    apply inv_resolve_inserts;
      first [apply used_import_block | frame_step]. }
  assert (HS1 : table_has n (source_table k s1) = true).
  { refine (inv_Ret_elim (fun s => table_has n (source_table k s) = true)
              _ _ _ _ _ HS H1).
    apply inv_resolve_inserts;
      first [apply source_has_import_block | frame_step]. }
  pose proof (import_required_table_entries_adds k n s1 s2 Hk HU1 HS1 H2)
    as HT2.
  refine (inv_Ret_elim (fun s => table_has n (target_table k s) = true)
            _ _ _ _ _ HT2 H3).
  apply inv_create_missing_arrows;
    first [apply target_has_import_block | frame_step].
Qed.

Lemma add_used_resources_records e s :
  get_dxf_attrib e "layer" "0" ∈ used_set "layers" (_add_used_resources e s) /\
  get_dxf_attrib e "linetype" "BYLAYER"
    ∈ used_set "linetypes" (_add_used_resources e s) /\
  (is_supported_dxf_attrib e "style" = true ->
   get_dxf_attrib e "style" "Standard"
     ∈ used_set "styles" (_add_used_resources e s)) /\
  (is_supported_dxf_attrib e "dimstyle" = true ->
   get_dxf_attrib e "dimstyle" "Standard"
     ∈ used_set "dimstyles" (_add_used_resources e s)).
Proof.
  unfold _add_used_resources, used_set.
  destruct (is_supported_dxf_attrib e "style"),
    (is_supported_dxf_attrib e "dimstyle"); simpl;
    split_and!; intros; try done; set_solver.
Qed.

Lemma source_table_add_used_resources k e s :
  source_table k (_add_used_resources e s) = source_table k s.
Proof. unfold _add_used_resources. by repeat case_match. Qed.



(** ** Block names of the target *)

Lemma blocks_has_names x bs bs' :
  bs.*1 = bs'.*1 -> blocks_has x bs = blocks_has x bs'.
Proof.
  intros H. destruct (blocks_has x bs) eqn:E; symmetry.
  - apply elem_of_blocks_has. rewrite <- H. by apply blocks_has_elem_of.
  - destruct (blocks_has x bs') eqn:E'; [|done].
    apply blocks_has_elem_of in E'. rewrite <- H in E'.
    apply elem_of_blocks_has in E'. congruence.
Qed.

Lemma blocks_has_register x space c s :
  blocks_has x (blocks (target (register_entity space c s)))
  = blocks_has x (blocks (target s)).
Proof.
  unfold register_entity. simpl. apply blocks_has_names.
  by rewrite blocks_add_entity_names.
Qed.

Lemma blocks_has_new x n attrs bs :
  blocks_has x (blocks_new n attrs bs)
  = blocks_has x bs || bool_decide (n = x).
Proof.
  unfold blocks_has, blocks_new. rewrite existsb_app. simpl.
  by rewrite orb_false_r.
Qed.

Lemma target_block_import_block x fuel n r :
  inv (fun s => blocks_has x (blocks (target s)) = true)
      (import_block fuel n r).
Proof.
  apply inv_import_block; try done.
  - intros space e c s _ H. by rewrite blocks_has_register.
  - intros m attrs s H. simpl. by rewrite blocks_has_new, H.
Qed.

Lemma target_block_import_entities_with x ib fuel entities target_layout :
  (forall n r, inv (fun s => blocks_has x (blocks (target s)) = true)
                   (ib n r)) ->
  inv (fun s => blocks_has x (blocks (target s)) = true)
      (import_entities_with ib fuel entities target_layout).
Proof.
  intros Hib. apply inv_import_entities_with; try done.
  intros space e c s _ H. by rewrite blocks_has_register.
Qed.

(** What a call of [import_block] that returns leaves in the memo and in
    the block collection of the target. *)
Lemma import_block_Ret_memo fuel n rename s r s' :
  import_block fuel n rename s = Ret r s' ->
  imported_blocks s' !! n = Some r /\
  (imported_blocks s !! n = None ->
   blocks_has r (blocks (target s')) = true).
Proof.
  destruct fuel as [|fuel]; simpl; [done|].
  destruct (imported_blocks s !! n) as [r0|] eqn:Ememo.
  { intros [= <- <-]. by split. }
  destruct (blocks_get n (blocks (source s))) as [b|]; [|done].
  destruct (blocks_has n (blocks (target s)) && negb rename) eqn:Eid.
  { intros [= <- <-]. simpl. rewrite lookup_insert_eq.
    split; [done|]. intros _. by apply andb_true_iff in Eid as [-> _]. }
  destruct (get_new_block_name n (blocks (target s))) as [new|]; [|done].
  intros (u & s1 & Himp & (u' & s2 & Hmod & Hret)%bind_Ret)%bind_Ret.
  injection Hmod as _ <-. injection Hret as <- <-. simpl.
  rewrite lookup_insert_eq. split; [done|]. intros _.
  refine (inv_Ret_elim (fun s => blocks_has new (blocks (target s)) = true)
            _ _ _ _ _ _ Himp).
  - apply target_block_import_entities_with.
    intros m r. apply target_block_import_block.
  - simpl. rewrite blocks_has_new, bool_decide_eq_true_2 by done.
    apply orb_true_r.
Qed.

(** ** The structure of [import_entity] *)

Lemma import_entity_with_unfold ib fuel e target_layout s :
  import_entity_with ib fuel e target_layout s
  = match layout_space_of target_layout with
    | None => Raise DXFStructureError s
    | Some space =>
        if negb (bool_decide (dxftype e ∈ IMPORT_ENTITIES)) then Ret tt s
        else
          let s1 := _add_used_resources e s in
          match new_clean_entity e false with
          | None => Ret tt s1
          | Some c =>
              post_import ib fuel (dxftype e) (length (entitydb (target s1)))
                (register_entity space c s1)
          end
    end.
Proof.
  unfold import_entity_with, layout_space_of, post_import.
  destruct target_layout as [l|];
    [destruct (bool_decide (layout_doc l <> TargetDoc))|]; try done;
    destruct (negb (bool_decide (dxftype e ∈ IMPORT_ENTITIES))); try done;
    destruct (new_clean_entity e false); try done; simpl;
    by repeat case_bool_decide.
Qed.

Lemma target_add_used_resources e s :
  target (_add_used_resources e s) = target s.
Proof. unfold _add_used_resources. by repeat case_match. Qed.

Lemma queue_add_used_resources e s :
  imported_inserts (_add_used_resources e s) = imported_inserts s.
Proof. unfold _add_used_resources. by repeat case_match. Qed.

Lemma memo_add_used_resources e s :
  imported_blocks (_add_used_resources e s) = imported_blocks s.
Proof. unfold _add_used_resources. by repeat case_match. Qed.

Lemma source_add_used_resources e s :
  source (_add_used_resources e s) = source s.
Proof. unfold _add_used_resources. by repeat case_match. Qed.

(** *** The pending queue across calls that return *)

Lemma import_dimension_Ret_queue ib fuel h s s' :
  _import_dimension ib fuel h s = Ret tt s' ->
  imported_inserts s' = imported_inserts s.
Proof.
  unfold _import_dimension.
  match goal with
  | |- context [bool_decide (?x = "")] => generalize x
  end.
  intros g. destruct (negb (bool_decide (g = ""))); [|by intros [= <-]].
  destruct (negb (blocks_has g (blocks (source s)))); [by intros [= <-]|].
  intros (u1 & s1 & _ & (name & s2 & _ & (u3 & s3 & _ &
          (u4 & s4 & _ & H)%bind_Ret)%bind_Ret)%bind_Ret)%bind_Ret.
  by injection H as <-.
Qed.

Lemma post_import_Ret_queue ib fuel type h s s' :
  post_import ib fuel type h s = Ret tt s' ->
  imported_inserts s' = imported_inserts s \/
  (type = "INSERT" /\ imported_inserts s' = (imported_inserts s ++ [h])%list).
Proof.
  unfold post_import. repeat case_bool_decide.
  - intros [= <-]. right. by split.
  - intros [= <-]. by left.
  - intros [= <-]. by left.
  - intros [= <-]. by left.
  - intros Hd. left. by eapply import_dimension_Ret_queue.
  - intros [= <-]. by left.
Qed.

Lemma import_entity_with_Ret_queue ib fuel e target_layout s s' :
  import_entity_with ib fuel e target_layout s = Ret tt s' ->
  imported_inserts s `prefix_of` imported_inserts s'.
Proof.
  rewrite import_entity_with_unfold.
  destruct (layout_space_of target_layout) as [space|]; [|done].
  destruct (negb (bool_decide (dxftype e ∈ IMPORT_ENTITIES)));
    [by intros [= <-]|].
  cbv zeta. destruct (new_clean_entity e false) as [c|].
  - intros [Hq|[_ Hq]]%post_import_Ret_queue; rewrite Hq; simpl;
      rewrite queue_add_used_resources; [done|]. by apply prefix_app_r.
  - intros [= <-]. by rewrite queue_add_used_resources.
Qed.

Lemma for_each_Ret_preorder {A} (R : relation importer)
    (body : A -> M unit) l s s' :
  (forall s, R s s) ->
  (forall s1 s2 s3, R s1 s2 -> R s2 s3 -> R s1 s3) ->
  (forall x s s', x ∈ l -> body x s = Ret tt s' -> R s s') ->
  for_each body l s = Ret tt s' -> R s s'.
Proof.
  intros Hrefl Htrans. revert s.
  induction l as [|x l IH]; intros s Hb; simpl.
  - intros [= <-]. apply Hrefl.
  - intros ([] & s1 & Hx & Hl)%bind_Ret. apply (Htrans _ s1).
    + eapply Hb; [constructor|done].
    + apply IH; [|done]. intros y s2 s3 Hy. apply Hb. by constructor.
Qed.

Lemma import_block_Ret_queue fuel n rename s r s' :
  import_block fuel n rename s = Ret r s' ->
  imported_inserts s `prefix_of` imported_inserts s'.
Proof.
  destruct fuel as [|fuel]; simpl; [done|].
  destruct (imported_blocks s !! n); [by intros [= <- <-]|].
  destruct (blocks_get n (blocks (source s))) as [b|]; [|done].
  destruct (blocks_has n (blocks (target s)) && negb rename);
    [by intros [= <- <-]|].
  destruct (get_new_block_name n (blocks (target s))) as [new|]; [|done].
  intros ([] & s1 & Himp & (u' & s2 & Hmod & Hret)%bind_Ret)%bind_Ret.
  injection Hmod as _ <-. injection Hret as _ <-. simpl.
  apply (for_each_Ret_preorder
           (fun s s' => imported_inserts s `prefix_of` imported_inserts s'))
    in Himp; [done|done| |].
  - intros s2 s3 s4. apply transitivity.
  - intros e s2 s3 _. apply import_entity_with_Ret_queue.
Qed.

(** *** The [name] attribute of registered entities *)

Lemma handler_update_name f e :
  handler_update f -> dxf (f e) !! "name" = dxf e !! "name".
Proof.
  intros Hf. destruct Hf; simpl; try done.
  - by rewrite lookup_delete_ne.
  - by rewrite !lookup_delete_ne.
  - by rewrite lookup_insert_ne.
Qed.

Lemma set_dxf_attribs_lookup c key :
  key <> "plotstyle_handle" -> key <> "material_handle" ->
  key <> "visualstyle_handle" ->
  dxf (set_dxf_attribs c) !! key = dxf c !! key.
Proof. intros. simpl. by rewrite !lookup_delete_ne. Qed.

Lemma register_lookup space c s :
  entitydb (target (register_entity space c s))
    !! length (entitydb (target s)) = Some (set_dxf_attribs c).
Proof.
  unfold register_entity. simpl. rewrite entitydb_add_entity. simpl.
  by rewrite lookup_app_r, Nat.sub_diag.
Qed.

Lemma register_lookup_old space c s h e :
  entitydb (target s) !! h = Some e ->
  entitydb (target (register_entity space c s)) !! h = Some e.
Proof.
  intros H. unfold register_entity. simpl. rewrite entitydb_add_entity.
  simpl. by apply lookup_app_l_Some.
Qed.

Lemma names_kept_refl s : names_kept s s.
Proof. intros h e H. by exists e. Qed.

Lemma names_kept_register s0 space c s :
  names_kept s0 s -> names_kept s0 (register_entity space c s).
Proof.
  intros HK h e H. destruct (HK h e H) as (e' & He' & Hn).
  exists e'. split; [|done]. by apply register_lookup_old.
Qed.

Lemma names_kept_update s0 h f s :
  (forall e, dxf (f e) !! "name" = dxf e !! "name") ->
  names_kept s0 s -> names_kept s0 (update_entity h f s).
Proof.
  intros Hf HK h' e H. destruct (HK h' e H) as (e' & He' & Hn).
  unfold update_entity. simpl.
  destruct (decide (h = h')) as [<-|Hne].
  - exists (f e'). rewrite list_lookup_alter_eq, He'. simpl.
    split; [done|]. by rewrite Hf.
  - exists e'. by rewrite list_lookup_alter_ne.
Qed.

Lemma names_kept_import_block s0 fuel n r :
  inv (names_kept s0) (import_block fuel n r).
Proof.
  apply inv_import_block; try done.
  - intros. by apply names_kept_register.
  - intros h f s Hf. apply names_kept_update. intros e.
    by apply handler_update_name.
Qed.

Lemma names_kept_import_entity_with s0 ib fuel e target_layout :
  (forall n r, inv (names_kept s0) (ib n r)) ->
  inv (names_kept s0) (import_entity_with ib fuel e target_layout).
Proof.
  intros Hib. apply inv_import_entity_with; try done.
  - intros. by apply names_kept_register.
  - intros h f s Hf. apply names_kept_update. intros x.
    by apply handler_update_name.
Qed.

(** ** Arrow blocks of a dimension *)

Lemma arrow_kept_frame a b s s' :
  arrow_kept a b s ->
  blocks_has a (blocks (target s')) = true ->
  source s' = source s ->
  imported_blocks s' = imported_blocks s ->
  arrow_kept a b s'.
Proof.
  intros (_ & Hsrc & Hmemo) Hb Hs Hm. unfold arrow_kept.
  by rewrite Hs, Hm.
Qed.

Lemma arrow_kept_used a b e s :
  arrow_kept a b s -> arrow_kept a b (_add_used_resources e s).
Proof.
  intros H. apply (arrow_kept_frame a b s); [done| | |].
  - rewrite target_add_used_resources. apply H.
  - apply source_add_used_resources.
  - apply memo_add_used_resources.
Qed.

Lemma arrow_kept_register a b space c s :
  arrow_kept a b s -> arrow_kept a b (register_entity space c s).
Proof.
  intros H. apply (arrow_kept_frame a b s); [done| |done|done].
  rewrite blocks_has_register. apply H.
Qed.

Lemma arrow_kept_update a b h f s :
  arrow_kept a b s -> arrow_kept a b (update_entity h f s).
Proof. intros H. apply (arrow_kept_frame a b s); [done| |done|done]. apply H. Qed.

Lemma arrow_kept_queue a b q s :
  arrow_kept a b s -> arrow_kept a b (set_imported_inserts q s).
Proof. intros H. apply (arrow_kept_frame a b s); [done| |done|done]. apply H. Qed.

Lemma arrow_kept_blocks_new a b n attrs s :
  arrow_kept a b s ->
  arrow_kept a b
    (set_target
       (set_blocks (blocks_new n attrs (blocks (target s))) (target s)) s).
Proof.
  intros H. apply (arrow_kept_frame a b s); [done| |done|done].
  simpl. rewrite blocks_has_new. destruct H as [-> _]. done.
Qed.

Lemma arrow_kept_memo a b n v s :
  n <> a ->
  arrow_kept a b s ->
  arrow_kept a b (set_imported_blocks (<[n := v]> (imported_blocks s)) s).
Proof.
  intros Hne (Hb & Hsrc & Hmemo). split_and!; [done..|]. simpl.
  by rewrite lookup_insert_ne.
Qed.

Lemma arrow_kept_memo_self a b b' s :
  arrow_kept a b s ->
  arrow_kept a b' (set_imported_blocks (<[a := a]> (imported_blocks s)) s).
Proof.
  intros (Hb & Hsrc & Hmemo). split_and!; [done..|]. simpl.
  left. apply lookup_insert_eq.
Qed.

Lemma arrow_kept_weaken a b s : arrow_kept a true s -> arrow_kept a b s.
Proof.
  intros (Hb & Hsrc & [Hmemo|[? _]]); [|done]. split_and!; [done..|].
  by left.
Qed.

Section ArrowKept.

Variable a : string.
Variable b : bool.
Variable ib : string -> bool -> M string.

(** The block importer is only called back for a name other than [a], or
    without renaming. *)
Hypothesis inv_ib : forall n r,
  n <> a \/ r = false -> inv (arrow_kept a b) (ib n r).

Lemma arrow_kept_import_arrow_blocks fuel i :
  inv (arrow_kept a b) (import_arrow_blocks ib fuel i).
Proof.
  revert i. induction fuel as [|fuel IH]; intros i; simpl.
  - apply inv_out_of_fuel.
  - intros s s' HI. destruct (imported_inserts s !! i) as [insert|].
    + revert s s' HI. apply inv_bind.
      { intros s s' HI. unfold entity_attr. repeat case_match; by inv_same. }
      intros name. apply inv_bind; [apply inv_ib; by right|].
      intros _. apply IH.
    + by inv_same.
Qed.

Lemma arrow_kept_import_dimension fuel h s s' :
  arrow_kept a b s ->
  (forall e, entitydb (target s) !! h = Some e ->
             dxf e !! "geometry" <> Some a) ->
  final_state (_import_dimension ib fuel h s) = Some s' ->
  arrow_kept a b s'.
Proof.
  intros HI Hgeo. unfold _import_dimension.
  set (g := match entitydb (target s) !! h with
            | Some e => default "" (dxf e !! "geometry")
            | None => ""
            end).
  destruct (bool_decide (g = "")) eqn:Eg; simpl; [by inv_same|].
  apply bool_decide_eq_false in Eg.
  assert (Hga : g <> a).
  { intros <-. unfold g in *.
    destruct (entitydb (target s) !! h) as [e|]; [|done].
    apply (Hgeo e eq_refl). by destruct (dxf e !! "geometry"). }
  clearbody g.
  destruct (negb (blocks_has g (blocks (source s)))); [by inv_same|].
  revert HI. generalize (imported_inserts s). intros saved. revert s'.
  clear Hgeo. revert s.
  apply inv_bind; [apply inv_modify; intros; by apply arrow_kept_queue|].
  intros _. apply inv_bind; [apply inv_ib; by left|]. intros name.
  apply inv_bind;
    [apply inv_modify; intros; by apply arrow_kept_update|].
  intros _. apply inv_bind; [apply arrow_kept_import_arrow_blocks|].
  intros _. apply inv_modify. intros. by apply arrow_kept_queue.
Qed.

Lemma arrow_kept_post_import fuel type h s s' :
  arrow_kept a b s ->
  (forall e, entitydb (target s) !! h = Some e ->
             dxf e !! "geometry" <> Some a) ->
  final_state (post_import ib fuel type h s) = Some s' ->
  arrow_kept a b s'.
Proof.
  intros HI Hgeo. unfold post_import. repeat case_bool_decide.
  - simpl. intros [= <-]. by apply arrow_kept_update, arrow_kept_queue.
  - simpl. intros [= <-]. by apply arrow_kept_update.
  - simpl. intros [= <-]. by apply arrow_kept_update.
  - simpl. intros [= <-]. by apply arrow_kept_update.
  - by apply arrow_kept_import_dimension.
  - by inv_same.
Qed.

Lemma arrow_kept_import_entity_with fuel e target_layout :
  dxf e !! "geometry" <> Some a ->
  inv (arrow_kept a b) (import_entity_with ib fuel e target_layout).
Proof.
  intros Hgeo s s' HI. rewrite import_entity_with_unfold.
  destruct (layout_space_of target_layout) as [space|]; [|by inv_same].
  destruct (negb (bool_decide (dxftype e ∈ IMPORT_ENTITIES)));
    [by inv_same|].
  cbv zeta. destruct (new_clean_entity e false) as [c|] eqn:Ec.
  - apply arrow_kept_post_import.
    + by apply arrow_kept_register, arrow_kept_used.
    + intros x. rewrite register_lookup. intros [= <-].
      rewrite set_dxf_attribs_lookup by done.
      apply new_clean_entity_dxf in Ec as [-> _]. done.
  - simpl. intros [= <-]. by apply arrow_kept_used.
Qed.

Lemma arrow_kept_import_entities_with fuel entities target_layout :
  (forall e, e ∈ entities -> dxf e !! "geometry" <> Some a) ->
  inv (arrow_kept a b) (import_entities_with ib fuel entities target_layout).
Proof.
  intros Hgeo. apply inv_for_each. intros e He.
  by apply arrow_kept_import_entity_with, Hgeo.
Qed.

End ArrowKept.

Lemma elem_of_entities_of d handles e :
  e ∈ entities_of d handles -> e ∈ entitydb d.
Proof.
  unfold entities_of. intros (h & _ & Hh)%list_elem_of_omap.
  by eapply list_elem_of_lookup_2.
Qed.

Lemma arrow_kept_import_block a b fuel n rename :
  n <> a \/ rename = false ->
  inv (arrow_kept a b) (import_block fuel n rename).
Proof.
  revert n rename.
  induction fuel as [|fuel IH]; intros n rename Hguard; simpl.
  - apply inv_out_of_fuel.
  - intros s s' HI.
    destruct (imported_blocks s !! n) as [r0|] eqn:Ememo; [by inv_same|].
    destruct (blocks_get n (blocks (source s))) as [bl|]; [|by inv_same].
    destruct (blocks_has n (blocks (target s)) && negb rename) eqn:Eid.
    { simpl. intros [= <-]. destruct (decide (n = a)) as [->|Hne].
      - by apply (arrow_kept_memo_self a b b).
      - by apply arrow_kept_memo. }
    assert (Hne : n <> a).
    { intros ->. destruct Hguard as [Hc| ->]; [done|].
      destruct HI as [Hb _]. by rewrite Hb in Eid. }
    destruct (get_new_block_name n (blocks (target s))) as [new|]; [|done].
    assert (Hgeo : forall e,
      e ∈ entities_of (source s) (block_entities bl) ->
      dxf e !! "geometry" <> Some a).
    { intros e He. destruct HI as (_ & Hsrc & _).
      by eapply Hsrc, elem_of_entities_of. }
    revert Hgeo. generalize (entities_of (source s) (block_entities bl)).
    intros es Hgeo.
    pose proof (arrow_kept_blocks_new a b new (new_block_attribs bl) s HI)
      as HI1.
    revert HI1.
    generalize (set_target
      (set_blocks (blocks_new new (new_block_attribs bl) (blocks (target s)))
         (target s)) s).
    intros s1 HI1. revert s1 s' HI1.
    apply inv_bind; [by apply arrow_kept_import_entities_with|]. intros _.
    apply inv_bind; [|intros _; apply inv_ret].
    apply inv_modify. intros s2. by apply arrow_kept_memo.
Qed.

Lemma for_each_app_Ret {A} (body : A -> M unit) l1 l2 s s' :
  for_each body (l1 ++ l2) s = Ret tt s' ->
  exists s1, for_each body l1 s = Ret tt s1 /\
             for_each body l2 s1 = Ret tt s'.
Proof.
  revert s. induction l1 as [|x l1 IH]; intros s; simpl.
  - intros H. by exists s.
  - intros ([] & s0 & Hx & Hl)%bind_Ret.
    destruct (IH _ Hl) as (s1 & H1 & H2). exists s1. split; [|done].
    by rewrite (bind_Ret_l _ _ _ _ _ Hx).
Qed.

(** A supported entity that can be copied, imported into a layout of the
    target: the copy is registered and handed to its handler. *)
Lemma import_entity_with_copyable ib fuel e target_layout space s :
  layout_space_of target_layout = Some space ->
  dxftype e ∈ IMPORT_ENTITIES ->
  copy_supported e = true ->
  import_entity_with ib fuel e target_layout s
  = post_import ib fuel (dxftype e) (length (entitydb (target s)))
      (register_entity space (remove_dependencies (set_doc None e) false)
         (_add_used_resources e s)).
Proof.
  intros Hspace Hty Hcopy. rewrite import_entity_with_unfold, Hspace.
  rewrite (bool_decide_eq_true_2 _ Hty). simpl.
  unfold new_clean_entity, copy. rewrite Hcopy.
  by rewrite target_add_used_resources.
Qed.

Lemma import_block_resolves_arrow a fuel s r s' :
  arrow_kept a false s ->
  import_block fuel a false s = Ret r s' ->
  arrow_kept a true s'.
Proof.
  intros HI. destruct fuel as [|fuel]; simpl; [done|].
  destruct HI as (Hb & Hsrc & [Hmemo|[_ Hmemo]]); rewrite Hmemo.
  - intros [= <- <-]. split_and!; [done..|]. by left.
  - destruct (blocks_get a (blocks (source s))); [|done].
    rewrite Hb. simpl. intros [= <- <-].
    split_and!; [done..|]. simpl. left. apply lookup_insert_eq.
Qed.

(** The loop over the queue of a dimension reaches the reference to the
    arrow block and resolves it without renaming. *)
Lemma import_arrow_blocks_resolves a f fuel i j hx s s' :
  arrow_kept a false s ->
  i <= j ->
  imported_inserts s !! j = Some hx ->
  (exists e, entitydb (target s) !! hx = Some e /\
             dxf e !! "name" = Some a) ->
  import_arrow_blocks (import_block f) fuel i s = Ret tt s' ->
  arrow_kept a true s'.
Proof.
  revert i s. induction fuel as [|fuel IH]; intros i s HI Hij Hj Hx; simpl;
    [done|].
  destruct (imported_inserts s !! i) as [insert|] eqn:Ei.
  2:{ apply lookup_ge_None in Ei. apply lookup_lt_Some in Hj. lia. }
  intros (name & s0 & Hattr & (r & s1 & Hib & Hloop)%bind_Ret)%bind_Ret.
  assert (s0 = s /\ exists e, entitydb (target s) !! insert = Some e /\
                              dxf e !! "name" = Some name) as [-> Hname].
  { unfold entity_attr in Hattr.
    destruct (entitydb (target s) !! insert) as [e|]; [|done].
    destruct (dxf e !! "name") as [v|] eqn:Ev; [|done].
    injection Hattr as <- <-. split; [done|]. by exists e. }
  destruct (decide (i = j)) as [->|Hne].
  - assert (insert = hx) as -> by congruence.
    assert (name = a) as ->.
    { destruct Hx as (e & He & Ha), Hname as (e' & He' & Hn). congruence. }
    pose proof (import_block_resolves_arrow _ _ _ _ _ HI Hib) as HI1.
    refine (inv_Ret_elim (arrow_kept a true) _ _ _ _ _ HI1 Hloop).
    apply arrow_kept_import_arrow_blocks. intros n r' Hguard.
    by apply arrow_kept_import_block.
  - apply (IH (S i) s1); [|lia| | |done].
    + refine (inv_Ret_elim (arrow_kept a false) _ _ _ _ _ HI Hib).
      apply arrow_kept_import_block. by right.
    + apply import_block_Ret_queue in Hib.
      by eapply prefix_lookup_Some.
    + destruct Hx as (e & He & Ha).
      destruct (inv_Ret_elim (names_kept s) _ _ _ _
                  (names_kept_import_block s f name false)
                  (names_kept_refl s) Hib hx e He) as (e' & He' & Hn).
      exists e'. split; [done|]. by rewrite Hn.
Qed.

Lemma import_entities_with_Ret_queue ib fuel es target_layout s s' :
  import_entities_with ib fuel es target_layout s = Ret tt s' ->
  imported_inserts s `prefix_of` imported_inserts s'.
Proof.
  apply (for_each_Ret_preorder
           (fun s s' => imported_inserts s `prefix_of` imported_inserts s')).
  - done.
  - intros s1 s2 s3. apply transitivity.
  - intros e s1 s2 _. apply import_entity_with_Ret_queue.
Qed.

(** Importing an INSERT leaves its copy at the end of the pending queue,
    with the block name of the original. *)
Lemma import_entity_with_INSERT ib fuel x space s s' n :
  dxftype x = "INSERT" -> copy_supported x = true ->
  dxf x !! "name" = Some n ->
  import_entity_with ib fuel x (Some (BaseLayout TargetDoc space)) s
  = Ret tt s' ->
  exists e,
    imported_inserts s' !! length (imported_inserts s)
    = Some (length (entitydb (target s))) /\
    entitydb (target s') !! length (entitydb (target s)) = Some e /\
    dxf e !! "name" = Some n.
Proof.
  intros Hty Hcopy Hname.
  rewrite (import_entity_with_copyable _ _ _ _ space);
    [|done|rewrite Hty; compute_done|done].
  rewrite Hty. unfold post_import. rewrite bool_decide_eq_true_2 by done.
  unfold _import_insert, modify. intros [= <-].
  eexists. split_and!.
  - simpl. rewrite queue_add_used_resources.
    by rewrite lookup_app_r, Nat.sub_diag.
  - unfold update_entity. simpl. rewrite list_lookup_alter_eq.
    rewrite entitydb_add_entity. simpl.
    rewrite target_add_used_resources.
    by rewrite lookup_app_r, Nat.sub_diag.
  - simpl. by rewrite !lookup_delete_ne.
Qed.

(** Importing a block that holds an INSERT leaves a copy of that INSERT in
    the pending queue. *)
Lemma import_block_queues_insert f g s r s' bG x a :
  imported_blocks s !! g = None ->
  blocks_get g (blocks (source s)) = Some bG ->
  x ∈ entities_of (source s) (block_entities bG) ->
  dxftype x = "INSERT" -> copy_supported x = true ->
  dxf x !! "name" = Some a ->
  import_block f g true s = Ret r s' ->
  exists j hx e,
    imported_inserts s' !! j = Some hx /\
    entitydb (target s') !! hx = Some e /\
    dxf e !! "name" = Some a.
Proof.
  intros Hmemo HbG Hx Hty Hcopy Hname.
  destruct f as [|f]; simpl; [done|].
  rewrite Hmemo, HbG, andb_false_r.
  destruct (get_new_block_name g (blocks (target s))) as [new|]; [|done].
  intros ([] & s2 & Himp & (u & s3 & Hmod & Hret)%bind_Ret)%bind_Ret.
  injection Hmod as _ <-. injection Hret as _ <-. simpl.
  apply list_elem_of_split in Hx as (l1 & l2 & Hsplit).
  rewrite Hsplit in Himp. unfold import_entities_with in Himp.
  apply for_each_app_Ret in Himp as (sa & _ & Himp). simpl in Himp.
  apply bind_Ret in Himp as ([] & sb & Hix & Hrest).
  destruct (import_entity_with_INSERT _ _ _ _ _ _ _ Hty Hcopy Hname Hix)
    as (e & Hq & He & Hn).
  pose proof (import_entities_with_Ret_queue _ _ _ _ _ _ Hrest) as Hpre.
  assert (HK : names_kept sb s2).
  { refine (inv_Ret_elim (names_kept sb) _ _ _ _ _ (names_kept_refl sb)
              Hrest).
    apply inv_for_each. intros y _. apply names_kept_import_entity_with.
    intros n0 r0. apply names_kept_import_block. }
  destruct (HK _ _ He) as (e' & He' & Hn').
  exists (length (imported_inserts sa)), (length (entitydb (target sa))), e'.
  split_and!; [by eapply prefix_lookup_Some|done|by rewrite Hn'].
Qed.

Lemma blocks_get_has n bs b :
  blocks_get n bs = Some b -> blocks_has n bs = true.
Proof.
  unfold blocks_get, blocks_has.
  destruct (List.find _ bs) as [p|] eqn:E; [|done]. intros _.
  apply find_some in E as [Hin Hp]. apply existsb_exists. by exists p.
Qed.

(** The handler of a dimension whose geometry block holds a reference to
    the arrow block [a]: once it has returned, the memo maps [a] to
    itself. *)
Lemma import_dimension_resolves a f fuel h s s' g bG x :
  arrow_kept a false s ->
  (exists e, entitydb (target s) !! h = Some e /\
             dxf e !! "geometry" = Some g) ->
  g <> "" -> g <> a ->
  imported_blocks s !! g = None ->
  blocks_get g (blocks (source s)) = Some bG ->
  x ∈ entities_of (source s) (block_entities bG) ->
  dxftype x = "INSERT" -> copy_supported x = true ->
  dxf x !! "name" = Some a ->
  _import_dimension (import_block f) fuel h s = Ret tt s' ->
  arrow_kept a true s'.
Proof.
  intros HI (e & He & Hg) Hg0 Hga Hmemo HbG Hx Hty Hcopy Hname.
  unfold _import_dimension. rewrite He, Hg. simpl default.
  rewrite (bool_decide_eq_false_2 (g = "")) by done.
  rewrite (blocks_get_has _ _ _ HbG). simpl negb. cbv iota.
  intros (u0 & s0 & H0 & (name & s1 & Hib & (u2 & s2 & H2 &
          (u3 & s3 & Hloop & H4)%bind_Ret)%bind_Ret)%bind_Ret)%bind_Ret.
  injection H0 as _ <-. injection H2 as _ <-. injection H4 as <-.
  destruct u3.
  apply arrow_kept_queue.
  destruct (import_block_queues_insert f g (set_imported_inserts [] s)
              name s1 bG x a Hmemo HbG Hx Hty Hcopy Hname Hib)
    as (j & hx & ex & Hj & Hex & Hn).
  assert (HI1 : arrow_kept a false s1).
  { refine (inv_Ret_elim (arrow_kept a false) _ _ _ _ _ _ Hib).
    - apply arrow_kept_import_block. by left.
    - by apply arrow_kept_queue. }
  apply (import_arrow_blocks_resolves a f fuel 0 j hx
           (update_entity h (dxf_set "geometry" name) s1)); [|lia|done| |done].
  - by apply arrow_kept_update.
  - destruct (names_kept_update s1 h (dxf_set "geometry" name) s1
                ltac:(intros y; simpl; by rewrite lookup_insert_ne)
                (names_kept_refl s1) hx ex Hex) as (e' & He' & Hn').
    exists e'. split; [done|]. by rewrite Hn'.
Qed.

(** ** Blocks without dimensions *)

Lemma plain_steps_nil s : plain_steps [] s s.
Proof.
  split_and!; try done; [apply names_kept_refl|].
  exists []. split_and!; [by rewrite app_nil_r|constructor|done|].
  intros h Hh. by apply elem_of_nil in Hh.
Qed.

Lemma names_kept_trans s1 s2 s3 :
  names_kept s1 s2 -> names_kept s2 s3 -> names_kept s1 s3.
Proof.
  intros H12 H23 h e He. destruct (H12 h e He) as (e2 & He2 & Hn2).
  destruct (H23 h e2 He2) as (e3 & He3 & Hn3).
  exists e3. split; [done|]. by rewrite Hn3.
Qed.

Lemma length_register space c s :
  length (entitydb (target (register_entity space c s)))
  = S (length (entitydb (target s))).
Proof.
  unfold register_entity. simpl. rewrite entitydb_add_entity. simpl.
  rewrite length_app. simpl. lia.
Qed.

Lemma length_update h f s :
  length (entitydb (target (update_entity h f s)))
  = length (entitydb (target s)).
Proof. unfold update_entity. simpl. apply length_alter. Qed.

Lemma update_entity_lookup h f s :
  entitydb (target (update_entity h f s)) !! h
  = f <$> entitydb (target s) !! h.
Proof. unfold update_entity. simpl. apply list_lookup_alter_eq. Qed.

Lemma update_entity_lookup_ne h h' f s :
  h <> h' ->
  entitydb (target (update_entity h f s)) !! h'
  = entitydb (target s) !! h'.
Proof. intros. unfold update_entity. simpl. by apply list_lookup_alter_ne. Qed.

(** One entity that is not a dimension. *)
Lemma import_entity_with_plain ib fuel e space s :
  dxftype e <> "DIMENSION" ->
  exists s',
    import_entity_with ib fuel e (Some (BaseLayout TargetDoc space)) s
    = Ret tt s' /\
    source s' = source s /\
    imported_blocks s' = imported_blocks s /\
    (blocks (target s')).*1 = (blocks (target s)).*1 /\
    names_kept s s' /\
    length (entitydb (target s)) <= length (entitydb (target s')) /\
    (imported_inserts s' = imported_inserts s \/
     (imported_inserts s'
      = (imported_inserts s ++ [length (entitydb (target s))])%list /\
      length (entitydb (target s)) < length (entitydb (target s')) /\
      dxftype e = "INSERT" /\
      exists c, entitydb (target s') !! length (entitydb (target s)) = Some c
                /\ dxf c !! "name" = dxf e !! "name")).
Proof.
  intros Hnd. rewrite import_entity_with_unfold. simpl.
  destruct (negb (bool_decide (dxftype e ∈ IMPORT_ENTITIES))).
  { exists s. split_and!; try done; [apply names_kept_refl|by left]. }
  destruct (new_clean_entity e false) as [c|] eqn:Ec.
  2:{ exists (_add_used_resources e s).
      rewrite source_add_used_resources, memo_add_used_resources,
        target_add_used_resources, queue_add_used_resources.
      split_and!; try done; [|by left].
      intros h x Hx. exists x. by rewrite target_add_used_resources. }
  set (s1 := _add_used_resources e s).
  set (s2 := register_entity space c s1).
  assert (Ht1 : target s1 = target s) by apply target_add_used_resources.
  assert (Hs2 : source s2 = source s) by apply source_add_used_resources.
  assert (Hm2 : imported_blocks s2 = imported_blocks s)
    by apply memo_add_used_resources.
  assert (Hq2 : imported_inserts s2 = imported_inserts s)
    by apply queue_add_used_resources.
  assert (Hb2 : (blocks (target s2)).*1 = (blocks (target s)).*1).
  { unfold s2, register_entity. simpl.
    by rewrite blocks_add_entity_names, Ht1. }
  assert (Hk2 : names_kept s s2).
  { intros h x Hx. exists x. split; [|done].
    apply register_lookup_old. by rewrite Ht1. }
  assert (Hl2 : length (entitydb (target s2)) = S (length (entitydb (target s)))).
  { unfold s2. by rewrite length_register, Ht1. }
  assert (Hupd : forall f,
    handler_update f ->
    source (update_entity (length (entitydb (target s1))) f s2) = source s /\
    imported_blocks (update_entity (length (entitydb (target s1))) f s2)
    = imported_blocks s /\
    (blocks (target (update_entity (length (entitydb (target s1))) f s2))).*1
    = (blocks (target s)).*1 /\
    names_kept s (update_entity (length (entitydb (target s1))) f s2) /\
    length (entitydb (target s))
    <= length (entitydb
                 (target (update_entity (length (entitydb (target s1))) f s2)))).
  { intros f Hf. split_and!; try done.
    - apply names_kept_update; [|done]. intros x. by apply handler_update_name.
    - rewrite length_update. lia. }
  unfold post_import. repeat case_bool_decide; try done.
  - (* INSERT *)
    eexists. split; [reflexivity|].
    split_and!; try done.
    + apply names_kept_update;
        [intros x; exact (handler_update_name _ x hu_insert)|].
      done.
    + rewrite length_update.
      change (length (entitydb (target s))
              <= length (entitydb (target s2))). lia.
    + right. split_and!.
      * change ((imported_inserts s2 ++ [length (entitydb (target s1))])%list
                = (imported_inserts s ++ [length (entitydb (target s))])%list).
        by rewrite Hq2, Ht1.
      * rewrite length_update.
        change (length (entitydb (target s))
                < length (entitydb (target s2))). lia.
      * done.
      * pose proof (register_lookup space c s1) as Hlk. fold s2 in Hlk.
        eexists. split.
        { rewrite <- Ht1. etrans; [apply update_entity_lookup|].
          exact (f_equal (fmap _) Hlk). }
        simpl. rewrite !lookup_delete_ne by done.
        by apply new_clean_entity_dxf in Ec as [-> _].
  - (* POLYLINE *)
    eexists. split; [reflexivity|].
    destruct (Hupd _ hu_polyline) as (?&?&?&?&?).
    split_and!; try done. left. done.
  - (* HATCH *)
    eexists. split; [reflexivity|].
    destruct (Hupd _ hu_hatch) as (?&?&?&?&?).
    split_and!; try done. left. done.
  - (* VIEWPORT *)
    eexists. split; [reflexivity|].
    destruct (Hupd _ hu_viewport) as (?&?&?&?&?).
    split_and!; try done. left. done.
  - (* any other type *)
    exists s2. split; [reflexivity|]. split_and!; try done; [lia|by left].
Qed.

Lemma plain_steps_app l1 l2 s s1 s2 :
  plain_steps l1 s s1 -> plain_steps l2 s1 s2 ->
  plain_steps (l1 ++ l2) s s2.
Proof.
  intros (Hs1 & Hm1 & Hb1 & Hk1 & Hl1 & q1 & Hq1 & Hnd1 & Hlen1 & Hh1)
         (Hs2 & Hm2 & Hb2 & Hk2 & Hl2 & q2 & Hq2 & Hnd2 & Hlen2 & Hh2).
  split_and!; [congruence|congruence|congruence| |lia|].
  { by eapply names_kept_trans. }
  exists (q1 ++ q2)%list. split_and!.
  - by rewrite Hq2, Hq1, app_assoc.
  - apply NoDup_app. split_and!; [done| |done].
    intros h H1 H2. apply Hh1 in H1 as [? _]. apply Hh2 in H2 as [? _]. lia.
  - rewrite !length_app. lia.
  - intros h [H|H]%elem_of_app.
    + destruct (Hh1 h H) as (Hb & c & x & Hc & Hx & Hty & Hn).
      split; [lia|]. destruct (Hk2 h c Hc) as (c' & Hc' & Hn').
      exists c', x.
      split_and!; [done|apply elem_of_app; by left|done|congruence].
    + destruct (Hh2 h H) as (Hb & c & x & Hc & Hx & Hty & Hn).
      split; [lia|]. exists c, x.
      split_and!; [done|apply elem_of_app; by right|done|done].
Qed.

Lemma import_entities_with_plain ib fuel es space s :
  (forall e, e ∈ es -> dxftype e <> "DIMENSION") ->
  exists s',
    import_entities_with ib fuel es (Some (BaseLayout TargetDoc space)) s
    = Ret tt s' /\
    plain_steps es s s'.
Proof.
  unfold import_entities_with. revert s.
  induction es as [|e es IH]; intros s Hnd.
  { exists s. split; [done|apply plain_steps_nil]. }
  destruct (import_entity_with_plain ib fuel e space s) as
    (s1 & He & Hs & Hm & Hb & Hk & Hl & Hq); [apply Hnd; left|].
  destruct (IH s1) as (s' & Hrest & Hsteps).
  { intros x Hx. apply Hnd. by right. }
  exists s'. split.
  { simpl. by rewrite (bind_Ret_l _ _ _ _ _ He). }
  apply (plain_steps_app [e] es s s1 s'); [|done].
  split_and!; try done.
  destruct Hq as [Hq|(Hq & Hlt & Hty & c & Hc & Hn)].
  - exists []. split_and!; [by rewrite app_nil_r|constructor|simpl; lia|].
    intros h Hh. by apply elem_of_nil in Hh.
  - exists [length (entitydb (target s))].
    split_and!; [done|apply NoDup_singleton|done|].
    intros h ->%list_elem_of_singleton. split; [lia|].
    exists c, e. split_and!; [done|left|done|done].
Qed.

(** A block that is not in the memo and holds no dimension is copied by
    one call, which needs no more than one unit of fuel. *)
Lemma import_block_plain f n s b :
  (forall e, e ∈ entities_of (source s) (block_entities b) ->
             dxftype e <> "DIMENSION") ->
  imported_blocks s !! n = None ->
  blocks_get n (blocks (source s)) = Some b ->
  exists new s',
    import_block (S f) n true s = Ret new s' /\
    source s' = source s /\
    imported_blocks s' = <[n := new]> (imported_blocks s) /\
    (blocks (target s')).*1 = ((blocks (target s)).*1 ++ [new])%list /\
    blocks_has new (blocks (target s)) = false /\
    names_kept s s' /\
    length (entitydb (target s)) <= length (entitydb (target s')) /\
    exists newq,
      imported_inserts s' = (imported_inserts s ++ newq)%list /\
      NoDup newq /\
      length newq <= length (entities_of (source s) (block_entities b)) /\
      forall h, h ∈ newq ->
        length (entitydb (target s)) <= h < length (entitydb (target s')) /\
        exists c x,
          entitydb (target s') !! h = Some c /\
          x ∈ entities_of (source s) (block_entities b) /\
          dxftype x = "INSERT" /\ dxf c !! "name" = dxf x !! "name".
Proof.
  intros Hnd Hmemo Hb. simpl. rewrite Hmemo, Hb, andb_false_r.
  destruct (get_new_block_name_total n (blocks (target s)))
    as (new & -> & Hfree).
  set (s1 := set_target _ s).
  destruct (import_entities_with_plain (import_block f) f
              (entities_of (source s1) (block_entities b))
              (BlockSpace new) s1)
    as (s2 & Himp & Hs & Hm & Hbl & Hk & Hl & newq & Hq & Hndq & Hlenq & Hh).
  { exact Hnd. }
  exists new, (set_imported_blocks (<[n := new]> (imported_blocks s2)) s2).
  split.
  { rewrite (bind_Ret_l _ _ _ _ _ Himp). reflexivity. }
  split_and!; try done.
  - simpl. by rewrite Hm.
  - simpl. rewrite Hbl. unfold s1, blocks_new. simpl.
    by rewrite fmap_app.
  - exists newq. split_and!; try done.
Qed.

(** ** The insert resolver on blocks without dimensions *)

Lemma filter_length_lt {A} (P Q : A -> Prop)
    `{!forall x, Decision (P x)} `{!forall x, Decision (Q x)}
    (l : list A) (a : A) :
  (forall x, Q x -> P x) -> a ∈ l -> P a -> ~ Q a ->
  length (filter Q l) < length (filter P l).
Proof.
  intros HQP Ha HPa HQa.
  assert (Hle : forall l', length (filter Q l') <= length (filter P l')).
  { induction l' as [|x l' IH]; [done|].
    rewrite !filter_cons. destruct (decide (Q x)) as [Hq|Hq].
    - rewrite decide_True by auto. simpl. lia.
    - destruct (decide (P x)); simpl; lia. }
  induction l as [|x l IH]; [by apply elem_of_nil in Ha|].
  rewrite !filter_cons. apply elem_of_cons in Ha as [<-|Ha].
  - rewrite decide_False, decide_True by done. simpl.
    specialize (Hle l). lia.
  - specialize (IH Ha). destruct (decide (Q x)) as [Hq|Hq].
    + rewrite decide_True by auto. simpl. lia.
    + destruct (decide (P x)); simpl; lia.
Qed.

Lemma blocks_get_elem_of n bs b :
  blocks_get n bs = Some b -> n ∈ bs.*1.
Proof.
  unfold blocks_get. destruct (List.find _ bs) as [p|] eqn:E; [|done].
  intros _. apply find_some in E as [Hin Hp].
  apply bool_decide_eq_true_1 in Hp as <-.
  apply list_elem_of_fmap. exists p. split; [done|].
  by apply list_elem_of_In.
Qed.

Lemma unmemoized_insert s s' n r b :
  source s' = source s ->
  imported_blocks s' = <[n := r]> (imported_blocks s) ->
  imported_blocks s !! n = None ->
  blocks_get n (blocks (source s)) = Some b ->
  unmemoized s' < unmemoized s.
Proof.
  intros Hs Hm Hn Hb. unfold unmemoized. rewrite Hs, Hm.
  apply (filter_length_lt _ _ _ n).
  - intros x Hx. destruct (decide (x = n)) as [->|Hne]; [done|].
    by rewrite lookup_insert_ne in Hx.
  - by eapply blocks_get_elem_of.
  - done.
  - by rewrite lookup_insert_eq.
Qed.

Lemma unmemoized_update h f s :
  unmemoized (update_entity h f s) = unmemoized s.
Proof. done. Qed.

Lemma resolve_snapshot_cons fuel h hs s :
  resolve_snapshot fuel (h :: hs) s
  = match entity_attr h "name" s with
    | Ret name s1 =>
        match import_block fuel name true s1 with
        | Ret block_name s2 =>
            resolve_snapshot fuel hs
              (update_entity h (dxf_set "name" block_name) s2)
        | Raise e s2 => Raise e s2
        | OutOfFuel => OutOfFuel
        end
    | Raise e s1 => Raise e s1
    | OutOfFuel => OutOfFuel
    end.
Proof.
  unfold resolve_snapshot. simpl. unfold bind at 1 2.
  destruct (entity_attr h "name" s) as [name s1| |]; [|done..].
  unfold bind at 1. by destruct (import_block fuel name true s1).
Qed.

Lemma resolve_inserts_unfold fuel s :
  _resolve_inserts (S fuel) s
  = match imported_inserts s with
    | [] => Ret tt s
    | h :: hs =>
        match resolve_snapshot fuel (h :: hs) (set_imported_inserts [] s) with
        | Ret _ s1 => _resolve_inserts fuel s1
        | Raise e s1 => Raise e s1
        | OutOfFuel => OutOfFuel
        end
    end.
Proof.
  destruct fuel; simpl; destruct (imported_inserts s); try done;
    unfold bind, modify;
    by destruct (resolve_snapshot _ _ _).
Qed.

Lemma resolver_core_update R s0 imp h f s :
  resolver_core R s0 imp s -> resolver_core R s0 imp (update_entity h f s).
Proof. done. Qed.

Section Resolver.

Variable R : string -> Prop.
Variable s0 : importer.
Hypothesis source_plain : no_dimension_in_blocks (source s0).
Hypothesis R_closed : forall n b x m,
  R n -> blocks_get n (blocks (source s0)) = Some b ->
  x ∈ entities_of (source s0) (block_entities b) ->
  dxftype x = "INSERT" -> dxf x !! "name" = Some m -> R m.

(** One pass over a snapshot [hs], the live queue still to come. *)
Lemma resolve_snapshot_plain f hs :
  forall s imp,
    resolver_core R s0 imp s ->
    pending_ok R (hs ++ imported_inserts s) s ->
    exists s' imp',
      resolver_core R s0 imp' s' /\
      unmemoized s' <= unmemoized s /\
      ((resolve_snapshot (S f) hs s = Ret tt s' /\
        pending_ok R (imported_inserts s') s' /\
        (imported_inserts s' = imported_inserts s \/
         unmemoized s' < unmemoized s)) \/
       exists e, resolve_snapshot (S f) hs s = Raise e s').
Proof.
  induction hs as [|h hs IH]; intros s imp Hcore Hpend.
  { exists s, imp. split_and!; [done|done|]. left. split_and!; [done|done|by left]. }
  rewrite resolve_snapshot_cons. unfold entity_attr.
  destruct Hpend as [Hnodup Hpend]. simpl in Hnodup.
  apply NoDup_cons in Hnodup as [Hh Hnodup].
  destruct (Hpend h) as [Hlt Hname]; [left|].
  apply lookup_lt_is_Some in Hlt as [e He]. rewrite He.
  destruct (dxf e !! "name") as [m|] eqn:Em.
  2:{ exists s, imp. split_and!; [done|done|]. right. by eexists. }
  specialize (Hname e m He Em).
  destruct Hcore as (Hsrc & Himp & Hmem & Hmono & Hlen & Hmu).
  destruct (imported_blocks s !! m) as [r|] eqn:Ememo.
  - (* answered from the memo *)
    assert (Hib : import_block (S f) m true s = Ret r s)
      by (simpl; by rewrite Ememo).
    rewrite Hib.
    destruct (IH (update_entity h (dxf_set "name" r) s) imp) as
      (s' & imp' & Hcore' & Hmu' & Hres).
    { done. }
    { split; [done|]. intros h' Hh'.
      assert (h <> h') by (intros ->; done).
      destruct (Hpend h') as [Hlt' Hn']; [by right|].
      split; [by rewrite length_update|].
      intros e' m'. rewrite update_entity_lookup_ne by done. apply Hn'. }
    exists s', imp'. split_and!; [done|done|exact Hres].
  - destruct (blocks_get m (blocks (source s))) as [b|] eqn:Eb.
    2:{ (* the source has no such block *)
        assert (Hib : import_block (S f) m true s = Raise ValueError s)
          by (simpl; by rewrite Ememo, Eb).
        rewrite Hib. exists s, imp. split_and!; [done|done|].
        right. by eexists. }
    (* the block is copied *)
    destruct (import_block_plain f m s b) as
      (new & s1 & Hib & Hs1 & Hm1 & Hb1 & Hfree & Hk1 & Hl1
       & newq & Hq1 & Hndq & _ & Hnew); [|done|done|].
    { intros x Hx. apply (source_plain m b x); by rewrite <- Hsrc. }
    rewrite Hib.
    assert (Hmu1 : unmemoized s1 < unmemoized s)
      by (by eapply unmemoized_insert).
    destruct (IH (update_entity h (dxf_set "name" new) s1) (m :: imp)) as
      (s' & imp' & Hcore' & Hmu' & Hres).
    { apply resolver_core_update. split_and!.
      - congruence.
      - apply NoDup_cons. split; [|done]. intros Hin.
        destruct (Hmem m Hin) as (_ & _ & [? Hsome]). congruence.
      - intros n [->|Hn]%elem_of_cons.
        + split_and!; [done| |by rewrite Hm1, lookup_insert_eq].
          destruct (imported_blocks s0 !! m) eqn:E0; [|done].
          destruct (Hmono m) as [? Hsome]; [by eexists|]. congruence.
        + destruct (Hmem n Hn) as (? & ? & Hsome). split_and!; [done|done|].
          rewrite Hm1. apply lookup_insert_is_Some'. by right.
      - intros n Hn. rewrite Hm1. apply lookup_insert_is_Some'. right. auto.
      - apply (f_equal length) in Hb1.
        rewrite length_app, !length_fmap in Hb1. simpl in *. lia.
      - simpl. lia. }
    { change (imported_inserts (update_entity h (dxf_set "name" new) s1))
        with (imported_inserts s1). rewrite Hq1, app_assoc.
      split.
      - apply NoDup_app. split_and!; [done| |done].
        intros h' Hh' Hin. destruct (Hnew h' Hin) as [[? ?] _].
        destruct (Hpend h') as [? _]; [by right|]. lia.
      - intros h' [Hh'|Hh']%elem_of_app.
        + assert (h <> h') by (intros ->; done).
          destruct (Hpend h') as [Hlt' Hn']; [by right|].
          split; [rewrite length_update; lia|].
          intros e' m'. rewrite update_entity_lookup_ne by done.
          intros He' Hm'.
          apply lookup_lt_is_Some in Hlt' as [e0 He0].
          destruct (Hk1 h' e0 He0) as (e1 & He1 & Hn1).
          apply (Hn' e0 m' He0). congruence.
        + destruct (Hnew h' Hh') as ([? ?] & c & x & Hc & Hx & Hty & Hn).
          assert (h <> h').
          { intros ->. destruct (Hpend h') as [? _]; [left|]. lia. }
          split; [by rewrite length_update|].
          intros e' m'. rewrite update_entity_lookup_ne by done.
          intros He' Hm'. rewrite Hsrc in Eb, Hx.
          apply (R_closed m b x m' Hname Eb Hx Hty). congruence. }
    rewrite unmemoized_update in Hmu', Hres.
    exists s', imp'. split_and!; [done|lia|].
    destruct Hres as [(Hret & Hp' & Hq')|Hres]; [|by right].
    left. split_and!; [done|done|]. right. lia.
Qed.

(** The loop of passes: a fuel of two more than the number of source
    blocks that the memo has no entry for is enough. *)
Lemma resolve_inserts_plain k :
  forall s imp,
    unmemoized s <= k ->
    resolver_core R s0 imp s ->
    pending_ok R (imported_inserts s) s ->
    exists s' imp',
      final_state (_resolve_inserts (k + 2) s) = Some s' /\
      resolver_core R s0 imp' s'.
Proof.
  induction k as [|k IH]; intros s imp Hk Hcore Hpend.
  - change (0 + 2) with 2. rewrite resolve_inserts_unfold.
    destruct (imported_inserts s) as [|h hs] eqn:Eq.
    { exists s, imp. by split. }
    destruct (resolve_snapshot_plain 0 (h :: hs)
                (set_imported_inserts [] s) imp) as
      (s1 & imp1 & Hcore1 & Hmu1 & [(Hret & Hp1 & Hq1)|[e Hraise]]).
    { done. }
    { simpl imported_inserts. rewrite app_nil_r. exact Hpend. }
    + rewrite Hret, resolve_inserts_unfold.
      destruct Hq1 as [Hq1|Hlt]; [|unfold unmemoized in *; simpl in *; lia].
      simpl in Hq1. rewrite Hq1. exists s1, imp1. by split.
    + rewrite Hraise. exists s1, imp1. by split.
  - replace (S k + 2) with (S (S (S k))) by lia.
    rewrite resolve_inserts_unfold.
    destruct (imported_inserts s) as [|h hs] eqn:Eq.
    { exists s, imp. by split. }
    destruct (resolve_snapshot_plain (S k) (h :: hs)
                (set_imported_inserts [] s) imp) as
      (s1 & imp1 & Hcore1 & Hmu1 & [(Hret & Hp1 & Hq1)|[e Hraise]]).
    { done. }
    { simpl imported_inserts. rewrite app_nil_r. exact Hpend. }
    + rewrite Hret.
      destruct Hq1 as [Hq1|Hlt].
      * simpl in Hq1. rewrite resolve_inserts_unfold, Hq1.
        exists s1, imp1. by split.
      * replace (S (S k)) with (k + 2) by lia.
        apply (IH s1 imp1); [|done|done].
        unfold unmemoized in *. simpl in *. lia.
    + rewrite Hraise. exists s1, imp1. by split.
Qed.

End Resolver.

(** ** A dimension whose geometry block is the block that holds it *)

Lemma for_each_app {A} (body : A -> M unit) l1 l2 s s1 :
  for_each body l1 s = Ret tt s1 ->
  for_each body (l1 ++ l2) s = for_each body l2 s1.
Proof.
  revert s. induction l1 as [|x l1 IH]; intros s; simpl.
  - by intros [= <-].
  - intros ([] & s' & Hx & Hl)%bind_Ret.
    rewrite (bind_Ret_l _ _ _ _ _ Hx). by apply IH.
Qed.

Lemma import_dimension_OutOfFuel ib fuel h s e n :
  entitydb (target s) !! h = Some e ->
  dxf e !! "geometry" = Some n -> n <> "" ->
  blocks_has n (blocks (source s)) = true ->
  ib n true (set_imported_inserts [] s) = OutOfFuel ->
  _import_dimension ib fuel h s = OutOfFuel.
Proof.
  intros He Hn Hne Hhas Hib. unfold _import_dimension. rewrite He, Hn. simpl.
  rewrite bool_decide_eq_false_2 by done. rewrite Hhas. simpl.
  rewrite bind_Ret_l with (a := tt) (s1 := set_imported_inserts [] s)
    by done.
  by apply bind_OutOfFuel_l.
Qed.

Lemma import_block_self_dimension fuel :
  forall s n b l1 d rest,
    n <> "" ->
    imported_blocks s !! n = None ->
    blocks_get n (blocks (source s)) = Some b ->
    entities_of (source s) (block_entities b) = (l1 ++ d :: rest)%list ->
    (forall e, e ∈ l1 -> dxftype e <> "DIMENSION") ->
    dxftype d = "DIMENSION" -> copy_supported d = true ->
    dxf d !! "geometry" = Some n ->
    import_block fuel n true s = OutOfFuel.
Proof.
  induction fuel as [|fuel IH]; intros s n b l1 d rest Hne Hmemo Hb Hes Hl1
    Hty Hcopy Hgeo; [done|].
  simpl. rewrite Hmemo, Hb, andb_false_r.
  destruct (get_new_block_name n (blocks (target s))) as [new|]; [|done].
  set (s1 := set_target _ s).
  apply bind_OutOfFuel_l.
  change (source s1) with (source s). rewrite Hes.
  destruct (import_entities_with_plain (import_block fuel) fuel l1
              (BlockSpace new) s1) as (s2 & Himp & Hs2 & Hm2 & _); [done|].
  unfold import_entities_with in *.
  rewrite (for_each_app _ _ _ _ _ Himp). simpl.
  apply bind_OutOfFuel_l.
  rewrite (import_entity_with_copyable _ _ _ _ (BlockSpace new));
    [|done|rewrite Hty; compute_done|done].
  rewrite Hty. unfold post_import.
  rewrite (bool_decide_eq_false_2 ("DIMENSION" = "INSERT")) by done.
  rewrite (bool_decide_eq_false_2 ("DIMENSION" = "POLYLINE")) by done.
  rewrite (bool_decide_eq_false_2 ("DIMENSION" = "HATCH")) by done.
  rewrite (bool_decide_eq_false_2 ("DIMENSION" = "VIEWPORT")) by done.
  rewrite (bool_decide_eq_true_2 ("DIMENSION" = "DIMENSION")) by done.
  set (c := remove_dependencies (set_doc None d) false).
  set (s3 := register_entity (BlockSpace new) c (_add_used_resources d s2)).
  assert (Hs3 : source s3 = source s).
  { unfold s3. simpl. by rewrite source_add_used_resources. }
  assert (Hm3 : imported_blocks s3 = imported_blocks s).
  { unfold s3. simpl. by rewrite memo_add_used_resources. }
  apply (import_dimension_OutOfFuel _ _ _ _ (set_dxf_attribs c) n).
  - unfold s3. rewrite <- (target_add_used_resources d s2).
    apply register_lookup.
  - by rewrite set_dxf_attribs_lookup.
  - done.
  - rewrite Hs3. by eapply blocks_get_has.
  - apply (IH _ n b l1 d rest); try done.
    + change (imported_blocks s3 !! n = None). by rewrite Hm3.
    + change (blocks_get n (blocks (source s3)) = Some b). by rewrite Hs3.
    + change (entities_of (source s3) (block_entities b)
              = (l1 ++ d :: rest)%list). by rewrite Hs3.
Qed.

(** The resolver returns with an empty queue. *)
Lemma resolve_inserts_Ret_queue fuel :
  forall s s', _resolve_inserts fuel s = Ret tt s' ->
               imported_inserts s' = [].
Proof.
  induction fuel as [|fuel IH]; intros s s'; [done|].
  rewrite resolve_inserts_unfold.
  destruct (imported_inserts s) as [|h hs] eqn:Eq.
  - by intros [= <-].
  - destruct (resolve_snapshot _ _ _) as [[] s1| |]; [|done..]. apply IH.
Qed.

(** ** Invariants that need the memo to answer with blocks of the target *)

Section GuardedMemo.

Variable I : importer -> Prop.

Hypothesis I_used_layer : forall n s, I s -> I (add_used_layer n s).
Hypothesis I_used_linetype : forall n s, I s -> I (add_used_linetype n s).
Hypothesis I_used_style : forall n s, I s -> I (add_used_style n s).
Hypothesis I_used_dimstyle : forall n s, I s -> I (add_used_dimstyle n s).
Hypothesis I_register : forall space e c s,
  new_clean_entity e false = Some c -> I s -> I (register_entity space c s).
Hypothesis I_update : forall h f s,
  handler_update f -> I s -> I (update_entity h f s).
Hypothesis I_queue : forall q s, I s -> I (set_imported_inserts q s).
Hypothesis I_memo : forall n v s,
  I s -> blocks_has v (blocks (target s)) = true ->
  blocks_has n (blocks (target s)) = true ->
  I (set_imported_blocks (<[n := v]> (imported_blocks s)) s).
Hypothesis I_blocks_new : forall n attrs s,
  I s ->
  I (set_target
       (set_blocks (blocks_new n attrs (blocks (target s))) (target s)) s).

Lemma inv_import_block_guarded fuel block_name rename :
  inv I (import_block fuel block_name rename).
Proof.
  revert block_name rename.
  induction fuel as [|fuel IH]; intros block_name rename; simpl.
  - apply inv_out_of_fuel.
  - intros s s' HI.
    destruct (imported_blocks s !! block_name); [by inv_same|].
    destruct (blocks_get block_name (blocks (source s))) as [b|];
      [|by inv_same].
    destruct (blocks_has block_name (blocks (target s)) && negb rename)
      eqn:Eid.
    { apply andb_true_iff in Eid as [Eid _]. intros [= <-].
      by apply I_memo. }
    destruct (get_new_block_name block_name (blocks (target s))) as [new|]
      eqn:Enew; [|done].
    pose proof (I_blocks_new new (new_block_attribs b) s HI) as HI1.
    assert (Hnew : blocks_has new
              (blocks (target (set_target
                 (set_blocks (blocks_new new (new_block_attribs b)
                                (blocks (target s))) (target s)) s))) = true).
    { simpl. rewrite blocks_has_new. rewrite bool_decide_eq_true_2 by done.
      apply orb_true_r. }
    assert (Hkey : blocks_has block_name
              (blocks (target (set_target
                 (set_blocks (blocks_new new (new_block_attribs b)
                                (blocks (target s))) (target s)) s))) = true).
    { simpl. rewrite blocks_has_new.
      destruct (blocks_has block_name (blocks (target s))) eqn:Ehas; [done|].
      rewrite (get_new_block_name_free _ _ Ehas) in Enew.
      injection Enew as <-. by rewrite bool_decide_eq_true_2. }
    clear Enew. revert HI1 Hnew Hkey. generalize (source s). intros src.
    generalize (set_target
      (set_blocks (blocks_new new (new_block_attribs b) (blocks (target s)))
         (target s)) s).
    intros s1 HI1 Hnew Hkey. unfold bind at 1.
    destruct (import_entities_with _ _ _ _ s1) as [[] s2|e s2|] eqn:Eimp;
      [| |done].
    + assert (HI2 : I s2).
      { eapply inv_Ret_elim; [|exact HI1|exact Eimp].
        by apply inv_import_entities_with. }
      assert (Hnew2 : blocks_has new (blocks (target s2)) = true).
      { eapply (inv_Ret_elim
                  (fun s => blocks_has new (blocks (target s)) = true));
          [|exact Hnew|exact Eimp].
        apply target_block_import_entities_with.
        intros n r. apply target_block_import_block. }
      assert (Hkey2 : blocks_has block_name (blocks (target s2)) = true).
      { eapply (inv_Ret_elim
                  (fun s => blocks_has block_name (blocks (target s)) = true));
          [|exact Hkey|exact Eimp].
        apply target_block_import_entities_with.
        intros n r. apply target_block_import_block. }
      intros [= <-]. by apply I_memo.
    + intros [= <-].
      refine (inv_import_entities_with I _ _ _ _ _ _ _ _ IH _ _ _ s1 s2 HI1 _);
        try done.
      by rewrite Eimp.
Qed.

Lemma inv_import_entity_guarded fuel e target_layout :
  inv I (import_entity fuel e target_layout).
Proof. apply inv_import_entity_with; try done. apply inv_import_block_guarded. Qed.

Lemma inv_import_entities_guarded fuel entities target_layout :
  inv I (import_entities fuel entities target_layout).
Proof.
  apply inv_import_entities_with; try done. apply inv_import_block_guarded.
Qed.

End GuardedMemo.

(** ** Soundness of the memo and of the resolved references *)

Lemma memo_sound_import_block fuel n r :
  inv memo_sound (import_block fuel n r).
Proof.
  apply inv_import_block_guarded; try done.
  - intros space e c s _ HI n' r' H. rewrite blocks_has_register. eauto.
  - intros n' v s HI Hv _ m r'. simpl.
    destruct (decide (n' = m)) as [->|Hne].
    + rewrite lookup_insert_eq. by intros [= <-].
    + rewrite lookup_insert_ne by done. apply HI.
  - intros n' attrs s HI m r' H. simpl. rewrite blocks_has_new.
    by rewrite (HI m r' H).
Qed.

Lemma resolved_register h space c s :
  resolved h s -> resolved h (register_entity space c s).
Proof.
  intros (e & r & He & Hr & Hb). exists e, r.
  split_and!; [by apply register_lookup_old|done|].
  by rewrite blocks_has_register.
Qed.

Lemma resolved_update h h' f s :
  (forall e, dxf (f e) !! "name" = dxf e !! "name") ->
  resolved h s -> resolved h (update_entity h' f s).
Proof.
  intros Hf (e & r & He & Hr & Hb).
  destruct (decide (h' = h)) as [->|Hne].
  - exists (f e), r. rewrite update_entity_lookup, He.
    split_and!; [done|by rewrite Hf|done].
  - exists e, r. by rewrite update_entity_lookup_ne.
Qed.

Lemma resolved_rename h v s e :
  entitydb (target s) !! h = Some e ->
  blocks_has v (blocks (target s)) = true ->
  resolved h (update_entity h (dxf_set "name" v) s).
Proof.
  intros He Hv. exists (dxf_set "name" v e), v.
  rewrite update_entity_lookup, He. split_and!; [done| |done].
  unfold dxf_set. simpl. by rewrite lookup_insert_eq.
Qed.

Lemma resolved_rename_other h h' v s :
  h' <> h -> resolved h s ->
  resolved h (update_entity h' (dxf_set "name" v) s).
Proof.
  intros Hne (e & r & He & Hr & Hb). exists e, r.
  by rewrite update_entity_lookup_ne.
Qed.

Lemma sound_resolved_import_block h fuel n r :
  inv (fun s => memo_sound s /\ resolved h s) (import_block fuel n r).
Proof.
  apply inv_import_block_guarded; try done.
  - intros space e c s Hc [HI Hr]. split; [|by apply resolved_register].
    intros n' r' H. rewrite blocks_has_register. eauto.
  - intros h' f s Hf [HI Hr]. split; [done|].
    apply resolved_update; [|done]. intros e. by apply handler_update_name.
  - intros n' v s [HI Hr] Hv _. split; [|done]. intros m r'. simpl.
    destruct (decide (n' = m)) as [->|Hne].
    + rewrite lookup_insert_eq. by intros [= <-].
    + rewrite lookup_insert_ne by done. apply HI.
  - intros n' attrs s [HI (e & r' & He & Hr & Hb)]. split.
    + intros m r'' H. simpl. rewrite blocks_has_new. by rewrite (HI m r'' H).
    + exists e, r'. split_and!; [done|done|].
      simpl. rewrite blocks_has_new. by rewrite Hb.
Qed.

(** One reference of a snapshot. *)
Lemma resolve_insert_sound fuel y s s' :
  memo_sound s ->
  (name <- entity_attr y "name" ;;
   block_name <- import_block fuel name true ;;
   modify (update_entity y (dxf_set "name" block_name))) s = Ret tt s' ->
  memo_sound s' /\ (forall h, resolved h s -> resolved h s') /\
  resolved y s'.
Proof.
  intros HI (name & s1 & Hattr & (bn & s2 & Hib & Hmod)%bind_Ret)%bind_Ret.
  unfold entity_attr in Hattr.
  destruct (entitydb (target s) !! y) as [e|] eqn:He; [|done].
  destruct (dxf e !! "name") as [m|]; [|done].
  injection Hattr as -> <-. injection Hmod as <-.
  assert (HI2 : memo_sound s2)
    by (eapply inv_Ret_elim; [apply memo_sound_import_block|done|done]).
  assert (Hbn : blocks_has bn (blocks (target s2)) = true).
  { apply (HI2 name). by apply import_block_Ret_memo in Hib as [? _]. }
  split_and!.
  - done.
  - intros h Hr.
    assert (Hr2 : resolved h s2).
    { eapply (inv_Ret_elim (fun s => memo_sound s /\ resolved h s));
        [apply sound_resolved_import_block| |exact Hib]. by split. }
    destruct (decide (y = h)) as [->|Hne].
    + destruct Hr2 as (e2 & ? & He2 & _). by eapply resolved_rename.
    + by apply resolved_rename_other.
  - destruct (inv_Ret_elim (names_kept s) _ _ _ _
                (names_kept_import_block s fuel name true)
                (names_kept_refl s) Hib y e He) as (e2 & He2 & _).
    by eapply resolved_rename.
Qed.

Lemma resolve_snapshot_sound fuel hs :
  forall s s',
    memo_sound s -> resolve_snapshot fuel hs s = Ret tt s' ->
    memo_sound s' /\ (forall h, resolved h s -> resolved h s') /\
    forall h, h ∈ hs -> resolved h s'.
Proof.
  unfold resolve_snapshot.
  induction hs as [|y hs IH]; intros s s' HI; simpl.
  { intros [= <-]. split_and!; [done|done|].
    intros h Hh. by apply elem_of_nil in Hh. }
  intros ([] & s1 & Hy & Hrest)%bind_Ret.
  destruct (resolve_insert_sound _ _ _ _ HI Hy) as (HI1 & Hkeep1 & Hy1).
  destruct (IH _ _ HI1 Hrest) as (HI' & Hkeep & Hall).
  split_and!; [done|auto|].
  intros h [->|Hh]%elem_of_cons; auto.
Qed.

Lemma resolve_inserts_sound fuel :
  forall s s',
    memo_sound s -> _resolve_inserts fuel s = Ret tt s' ->
    memo_sound s' /\ (forall h, resolved h s -> resolved h s') /\
    forall h, h ∈ imported_inserts s -> resolved h s'.
Proof.
  induction fuel as [|fuel IH]; intros s s' HI; [done|].
  rewrite resolve_inserts_unfold.
  destruct (imported_inserts s) as [|y hs] eqn:Eq.
  { intros [= <-]. split_and!; [done|done|].
    intros h Hh. by apply elem_of_nil in Hh. }
  destruct (resolve_snapshot _ _ _) as [[] s1| |] eqn:Esnap; [|done..].
  intros Hrest.
  destruct (resolve_snapshot_sound _ _ (set_imported_inserts [] s) _ HI Esnap)
    as (HI1 & Hkeep1 & Hall1).
  destruct (IH _ _ HI1 Hrest) as (HI' & Hkeep & _).
  split_and!; [done| |by auto].
  intros h Hr. apply Hkeep, Hkeep1. exact Hr.
Qed.

(** ** The table importer *)

Lemma table_get_Some n t e :
  table_get n t = Some e -> e ∈ t /\ dxf e !! "name" = Some n.
Proof.
  unfold table_get. intros [Hin Hn]%find_some.
  split; [by apply list_elem_of_In|]. by apply bool_decide_eq_true in Hn.
Qed.

Lemma table_get_dxf_name n t e : table_get n t = Some e -> dxf_name e = n.
Proof.
  intros [_ Hn]%table_get_Some. unfold dxf_name, get_dxf_attrib.
  by rewrite Hn.
Qed.

Lemma table_get_None n t : table_get n t = None -> table_has n t = false.
Proof.
  unfold table_get, table_has. intros H.
  destruct (existsb (entry_named n) t) eqn:E; [|done].
  apply existsb_exists in E as (x & Hx & Hn).
  by rewrite (find_none _ _ H x Hx) in Hn.
Qed.

(** The loop body of [import_table] on a name that is copied. *)
Lemma import_table_entry_copy name replace n e c s :
  table_get n (source_table name s) = Some e ->
  table_has (dxf_name e) (target_table name s) && negb replace = false ->
  new_clean_entity e false = Some c ->
  import_table_entry name replace n s
  = Ret tt (table_entry_copied name e c s).
Proof.
  intros He Hcond Hc. unfold import_table_entry. rewrite He. cbv zeta.
  rewrite Hcond. unfold table_entry_copied, table_entry_prepared.
  match goal with
  | |- bind _ _ ?s1 = _ => generalize s1
  end.
  intros s1. unfold bind, _duplicate_table_entry. rewrite Hc. reflexivity.
Qed.

(** The loop body of [import_table] on a name that is skipped. *)
Lemma import_table_entry_skip name replace n s :
  match table_get n (source_table name s) with
  | None => True
  | Some e => table_has (dxf_name e) (target_table name s) && negb replace
              = true
  end ->
  import_table_entry name replace n s = Ret tt s.
Proof.
  unfold import_table_entry.
  destruct (table_get n (source_table name s)) as [e|]; [|done].
  cbv zeta. by intros ->.
Qed.

Lemma source_table_add_used_linetype k n s :
  source_table k (add_used_linetype n s) = source_table k s.
Proof. done. Qed.

Lemma source_table_add_dimstyle_resources k e s :
  source_table k (_add_dimstyle_resources e s) = source_table k s.
Proof. done. Qed.

Lemma target_table_add_dimstyle_resources k e s :
  target_table k (_add_dimstyle_resources e s) = target_table k s.
Proof. done. Qed.

Lemma source_table_prepared k name e s :
  source_table k (table_entry_prepared name e s) = source_table k s.
Proof.
  unfold table_entry_prepared. by repeat case_match.
Qed.

Lemma target_table_prepared k name e s :
  target_table k (table_entry_prepared name e s)
  = if table_has (dxf_name e) (target_table name s)
    then target_table k
           (set_target_table name
              (table_remove (dxf_name e) (target_table name s)) s)
    else target_table k s.
Proof.
  unfold table_entry_prepared. by repeat case_match.
Qed.

Lemma target_table_duplicated k name e c s :
  target_table k (duplicated_entry name e c s) = target_table k s.
Proof. done. Qed.

Lemma source_table_copied_same name e c s :
  source_table name (table_entry_copied name e c s)
  = update_entry (dxf_name e)
      (_set_table_entry_dxf_attribs (table_entry_prepared name e s))
      (source_table name s).
Proof.
  unfold table_entry_copied. cbv zeta.
  change (source_table name (set_target_table name ?x ?s2))
    with (source_table name s2).
  unfold duplicated_entry, source_table. simpl.
  rewrite get_table_set_table.
  change (get_table name (tables (source (table_entry_prepared name e s))))
    with (source_table name (table_entry_prepared name e s)).
  by rewrite source_table_prepared.
Qed.

Lemma target_table_copied_same name e c s :
  target_table name (table_entry_copied name e c s)
  = ((if table_has (dxf_name e) (target_table name s)
      then table_remove (dxf_name e) (target_table name s)
      else target_table name s) ++ [c])%list.
Proof.
  unfold table_entry_copied. cbv zeta.
  unfold target_table at 1, set_target_table. simpl.
  rewrite get_table_set_table. unfold table_add_entry. f_equal.
  rewrite target_table_duplicated, target_table_prepared.
  destruct (table_has (dxf_name e) (target_table name s)); [|done].
  unfold target_table at 1, set_target_table. simpl.
  by rewrite get_table_set_table.
Qed.

Lemma for_each_returns {A} (P : importer -> Prop) (body : A -> M unit) l :
  (forall x s, P s -> exists s', body x s = Ret tt s' /\ P s') ->
  forall s, P s -> exists s', for_each body l s = Ret tt s' /\ P s'.
Proof.
  intros Hbody. induction l as [|x l IH]; intros s HP; simpl.
  - by exists s.
  - destruct (Hbody x s HP) as (s1 & Hx & HP1).
    destruct (IH s1 HP1) as (s' & Hl & HP'). exists s'. split; [|done].
    by rewrite (bind_Ret_l _ _ _ _ _ Hx).
Qed.

Lemma elem_of_update_entry n f t x :
  x ∈ update_entry n f t -> x ∈ t \/ exists y, y ∈ t /\ x = f y.
Proof.
  induction t as [|e t IH]; simpl; [by left|].
  destruct (entry_named n e).
  - intros [->|Hx]%elem_of_cons.
    + right. exists e. split; [left|done].
    + left. by right.
  - intros [->|Hx]%elem_of_cons.
    + left. left.
    + destruct (IH Hx) as [H|(y & Hy & ->)].
      * left. by right.
      * right. exists y. split; [by right|done].
Qed.

Lemma set_table_entry_dxf_attribs_copy s e :
  copy_supported (_set_table_entry_dxf_attribs s e) = copy_supported e.
Proof. unfold _set_table_entry_dxf_attribs. by repeat case_match. Qed.

Lemma new_clean_entity_copyable e flag :
  copy_supported e = true -> is_Some (new_clean_entity e flag).
Proof. intros H. unfold new_clean_entity, copy. rewrite H. by eexists. Qed.

Lemma import_table_entry_returns k replace n s :
  source_table_copyable k s ->
  exists s', import_table_entry k replace n s = Ret tt s' /\
             source_table_copyable k s'.
Proof.
  intros Hcopy.
  destruct (table_get n (source_table k s)) as [e|] eqn:He.
  2:{ exists s. split; [|done]. apply import_table_entry_skip.
      by rewrite He. }
  destruct (table_has (dxf_name e) (target_table k s) && negb replace)
    eqn:Econd.
  { exists s. split; [|done]. apply import_table_entry_skip.
    by rewrite He. }
  destruct (new_clean_entity_copyable e false) as [c Hc].
  { apply Hcopy. by apply table_get_Some in He as [? _]. }
  exists (table_entry_copied k e c s).
  split; [by apply import_table_entry_copy|].
  intros x. rewrite source_table_copied_same.
  intros [Hx|(y & Hy & ->)]%elem_of_update_entry; [by apply Hcopy|].
  rewrite set_table_entry_dxf_attribs_copy. by apply Hcopy.
Qed.

Lemma target_prefix_import_table t0 k name entries :
  inv (fun s => t0 `prefix_of` target_table k s)
      (import_table name entries false).
Proof.
  apply inv_import_table; try done.
  intros name' c s H. unfold target_table. simpl.
  destruct (get_table_set_table_cases k name'
              (table_add_entry c (get_table name' (tables (target s))))
              (tables (target s))) as [[-> Hk]| ->]; [|done].
  unfold table_add_entry. rewrite <- Hk.
  by apply prefix_app_r.
Qed.

Lemma source_has_import_table k n name entries :
  inv (fun s => table_has n (source_table k s) = true)
      (import_table name entries false).
Proof. apply inv_import_table; frame_step. Qed.

Lemma target_has_import_table k n name entries :
  inv (fun s => table_has n (target_table k s) = true)
      (import_table name entries false).
Proof. apply inv_import_table; frame_step. Qed.

Lemma table_has_elem_of n t :
  table_has n t = true -> n ∈ dxf_name <$> t.
Proof.
  intros (e & He & Hn)%table_has_get.
  apply list_elem_of_fmap. exists e.
  split; [by apply table_get_dxf_name in He|].
  by apply table_get_Some in He as [? _].
Qed.

(** [import_table(k)] with all entries: each entry of the source table
    ends up in the target table. *)
Lemma import_table_all_adds k n s s' :
  table_has n (source_table k s) = true ->
  import_table k (Str "*") false s = Ret tt s' ->
  table_has n (target_table k s') = true.
Proof.
  intros Hsrc. unfold import_table.
  destruct (negb (bool_decide (k ∈ IMPORT_TABLES))); [done|].
  rewrite bool_decide_eq_true_2 by done.
  apply (for_each_Ret_establishes (import_table_entry k false)
           (fun s => table_has n (source_table k s) = true)
           (fun s => table_has n (target_table k s) = true) n).
  - intros y s1 s2 H1 Hy.
    by apply (inv_Ret_elim _ _ _ _ _
                (source_has_import_table_entry k n k y) H1 Hy).
  - intros y s1 s2 H1 Hy.
    by apply (inv_Ret_elim _ _ _ _ _
                (target_has_import_table_entry k n k y) H1 Hy).
  - intros s1 s2. apply import_table_entry_adds.
  - by apply table_has_elem_of.
  - done.
Qed.

Lemma table_remove_absent n t :
  table_has n t = false -> table_remove n t = t.
Proof.
  unfold table_has, table_remove.
  induction t as [|e t IH]; simpl; [done|].
  intros [He Ht]%orb_false_iff. rewrite He. simpl. f_equal. by apply IH.
Qed.

Lemma table_has_remove n t : table_has n (table_remove n t) = false.
Proof.
  unfold table_has, table_remove.
  induction t as [|e t IH]; simpl; [done|].
  destruct (entry_named n e) eqn:E; simpl; [done|]. by rewrite E.
Qed.

Lemma table_get_app_absent n t1 t2 :
  table_has n t1 = false -> table_get n (t1 ++ t2) = table_get n t2.
Proof.
  unfold table_has, table_get.
  induction t1 as [|e t IH]; simpl; [done|].
  intros [He Ht]%orb_false_iff. rewrite He. by apply IH.
Qed.

Lemma table_get_app_present n t1 t2 :
  table_has n t1 = true -> table_get n (t1 ++ t2) = table_get n t1.
Proof.
  unfold table_has, table_get.
  induction t1 as [|e t IH]; simpl; [done|].
  destruct (entry_named n e); [done|]. simpl. apply IH.
Qed.

Lemma entry_named_inj n m e :
  entry_named n e = true -> entry_named m e = true -> n = m.
Proof.
  unfold entry_named. intros H1%bool_decide_eq_true H2%bool_decide_eq_true.
  congruence.
Qed.

Lemma table_get_remove_ne n m t :
  m <> n -> table_get m (table_remove n t) = table_get m t.
Proof.
  intros Hne. unfold table_get, table_remove.
  induction t as [|e t IH]; simpl; [done|].
  destruct (entry_named n e) eqn:En; simpl.
  - destruct (entry_named m e) eqn:Em; [|done].
    destruct Hne. by eapply entry_named_inj.
  - destruct (entry_named m e); [done|]. apply IH.
Qed.

Lemma table_get_singleton n c :
  dxf c !! "name" = Some n -> table_get n [c] = Some c.
Proof.
  intros H. unfold table_get, entry_named. simpl.
  by rewrite bool_decide_eq_true_2.
Qed.

Lemma table_get_singleton_ne n m c :
  dxf c !! "name" = Some n -> m <> n -> table_get m [c] = None.
Proof.
  intros H Hne. unfold table_get, entry_named. simpl.
  rewrite bool_decide_eq_false_2; [done|]. rewrite H. congruence.
Qed.

(** The names of the source tables stay as they are. *)
Lemma entry_names_update_entry n f t :
  (forall e, dxf (f e) !! "name" = dxf e !! "name") ->
  entry_names (update_entry n f t) = entry_names t.
Proof.
  intros Hf. unfold entry_names.
  induction t as [|e t IH]; simpl; [done|].
  destruct (entry_named n e); simpl; f_equal; first [apply Hf|apply IH].
Qed.

Lemma table_has_entry_names n t t' :
  entry_names t = entry_names t' -> table_has n t = table_has n t'.
Proof.
  unfold entry_names, table_has, entry_named. revert t'.
  induction t as [|e t IH]; intros [|e' t']; simpl; try done.
  intros [= He Ht]. rewrite He. f_equal. by apply IH.
Qed.

Lemma dxf_name_entry_names t t' :
  entry_names t = entry_names t' -> dxf_name <$> t = dxf_name <$> t'.
Proof.
  unfold entry_names, dxf_name, get_dxf_attrib. revert t'.
  induction t as [|e t IH]; intros [|e' t']; simpl; try done.
  intros [= He Ht]. rewrite He. f_equal. by apply IH.
Qed.

Lemma source_names_duplicated k name entry c s :
  entry_names (source_table k (duplicated_entry name entry c s))
  = entry_names (source_table k s).
Proof.
  unfold duplicated_entry, source_table. simpl.
  destruct (get_table_set_table_cases k name
              (update_entry (dxf_name entry) (_set_table_entry_dxf_attribs s)
                 (get_table name (tables (source s))))
              (tables (source s))) as [[-> Hk]| ->]; [|done].
  rewrite entry_names_update_entry
    by apply set_table_entry_dxf_attribs_name.
  by rewrite Hk.
Qed.

Lemma source_names_import_table_entry k names name entry_name :
  inv (fun s => entry_names (source_table k s) = names)
      (import_table_entry name false entry_name).
Proof.
  apply inv_import_table_entry; try done.
  intros name' entry c s _ <-. apply source_names_duplicated.
Qed.

Lemma table_get_has n t e : table_get n t = Some e -> table_has n t = true.
Proof.
  intros [Hin Hn]%table_get_Some. apply existsb_exists. exists e.
  split; [by apply list_elem_of_In|]. by apply bool_decide_eq_true_2.
Qed.

(** A loop of [import_table] over names that are all skipped. *)
Lemma import_table_entries_skip k l s :
  (forall n e, n ∈ l -> table_get n (source_table k s) = Some e ->
               table_has (dxf_name e) (target_table k s) = true) ->
  for_each (import_table_entry k false) l s = Ret tt s.
Proof.
  induction l as [|n l IH]; intros Hskip; simpl; [done|].
  rewrite (bind_Ret_l _ _ _ tt s).
  - apply IH. intros m e Hm. apply Hskip. by right.
  - apply import_table_entry_skip.
    destruct (table_get n (source_table k s)) as [e|] eqn:He; [|done].
    rewrite (Hskip n e); [done|left|done].
Qed.

(** After the loop of [import_table], every name of the loop that the
    source table holds is in the target table. *)
Lemma import_table_entries_add k l s s' :
  for_each (import_table_entry k false) l s = Ret tt s' ->
  entry_names (source_table k s') = entry_names (source_table k s) /\
  forall n, n ∈ l -> table_has n (source_table k s) = true ->
            table_has n (target_table k s') = true.
Proof.
  intros Hl. split.
  - refine (inv_Ret_elim
              (fun s1 => entry_names (source_table k s1)
                         = entry_names (source_table k s))
              _ _ _ _ _ eq_refl Hl).
    apply inv_for_each. intros x _. apply source_names_import_table_entry.
  - intros n Hn Hsrc. revert Hl.
    apply (for_each_Ret_establishes (import_table_entry k false)
             (fun s => table_has n (source_table k s) = true)
             (fun s => table_has n (target_table k s) = true) n);
      [| | |done|done].
    + intros y s1 s2 H1 Hy.
      by apply (inv_Ret_elim _ _ _ _ _
                  (source_has_import_table_entry k n k y) H1 Hy).
    + intros y s1 s2 H1 Hy.
      by apply (inv_Ret_elim _ _ _ _ _
                  (target_has_import_table_entry k n k y) H1 Hy).
    + intros s1 s2. apply import_table_entry_adds.
Qed.

(** ** The layout importer *)

Section LayoutClosure.

Variable I : importer -> Prop.

Hypothesis inv_entities : forall fuel entities target_layout,
  inv I (import_entities fuel entities target_layout).
Hypothesis I_layouts_new : forall n attrs s,
  I s ->
  I (set_target
       (set_layouts (layouts_new n attrs (layouts (target s))) (target s)) s).

Lemma inv_recreate_source_layout name : inv I (recreate_source_layout name).
Proof.
  intros s s' HI. unfold recreate_source_layout.
  case_bool_decide; [by inv_same|].
  destruct (layouts_get name (layouts (source s))); [|by inv_same].
  destruct (get_target_name name (layouts (target s))); [|done].
  simpl. intros [= <-]. by apply I_layouts_new.
Qed.

Lemma inv_import_paperspace_layout fuel name :
  inv I (import_paperspace_layout fuel name).
Proof.
  intros s s' HI. unfold import_paperspace_layout.
  case_bool_decide; [by inv_same|].
  destruct (layouts_get name (layouts (source s))) as [l|]; [|by inv_same].
  revert HI. generalize (source s). intros src. revert s s'.
  apply inv_bind; [apply inv_recreate_source_layout|]. intros tl.
  apply inv_bind; [apply inv_entities|]. intros _. apply inv_ret.
Qed.

Lemma inv_import_paperspace_layouts fuel :
  inv I (import_paperspace_layouts fuel).
Proof.
  intros s s' HI. unfold import_paperspace_layouts.
  revert HI. generalize (names_in_taborder (layouts (source s))).
  intros l. revert s s'. apply inv_for_each. intros name _.
  apply inv_if; [|apply inv_ret].
  apply inv_bind; [apply inv_import_paperspace_layout|]. intros _.
  apply inv_ret.
Qed.

End LayoutClosure.

Lemma inv_import_blocks I fuel block_names rename :
  (forall n, inv I (import_block fuel n rename)) ->
  inv I (import_blocks fuel block_names rename).
Proof.
  intros Hib. apply inv_for_each. intros n _.
  apply inv_bind; [apply Hib|]. intros _. apply inv_ret.
Qed.

(** *** The source drawing *)

Lemma source_kept_import_block src fuel n r :
  inv (fun s => source s = src) (import_block fuel n r).
Proof. by apply inv_import_block. Qed.

Lemma source_kept_import_entities src fuel entities target_layout :
  inv (fun s => source s = src) (import_entities fuel entities target_layout).
Proof. by apply inv_import_entities. Qed.

Lemma source_kept_resolve_inserts src fuel :
  inv (fun s => source s = src) (_resolve_inserts fuel).
Proof.
  apply inv_resolve_inserts; try done.
  intros f n r. apply source_kept_import_block.
Qed.

Lemma source_kept_import_paperspace_layouts src fuel :
  inv (fun s => source s = src) (import_paperspace_layouts fuel).
Proof.
  apply inv_import_paperspace_layouts; try done.
  intros f es tl. apply source_kept_import_entities.
Qed.

(** *** The target drawing *)

Lemma add_to_layout_names name h ls :
  layout_name <$> add_to_layout name h ls = layout_name <$> ls.
Proof.
  induction ls as [|l ls IH]; simpl; [done|].
  case_bool_decide; simpl; [done|]. f_equal. apply IH.
Qed.

Lemma layouts_add_entity_names space h d :
  layout_name <$> layouts (add_entity space h d)
  = layout_name <$> layouts d.
Proof.
  destruct space as [|name|name]; simpl; try done.
  apply add_to_layout_names.
Qed.

Lemma handler_update_type f e : handler_update f -> dxftype (f e) = dxftype e.
Proof.
  intros Hf. by destruct Hf.
Qed.

Lemma target_register space c s :
  target (register_entity space c s)
  = add_entity space (length (entitydb (target s)))
      (set_entitydb (entitydb (target s) ++ [set_dxf_attribs c]) (target s)).
Proof. done. Qed.

Lemma target_kept_refl s : target_kept s s.
Proof. split_and!; try done. intros h e He. by exists e. Qed.

Lemma target_kept_register s0 space c s :
  target_kept s0 s -> target_kept s0 (register_entity space c s).
Proof.
  intros (Hb & Hl & Ht & He). split_and!.
  - rewrite target_register, blocks_add_entity_names. exact Hb.
  - rewrite target_register, layouts_add_entity_names. exact Hl.
  - rewrite target_register, tables_add_entity. exact Ht.
  - intros h e H. destruct (He h e H) as (e' & He' & Hty).
    exists e'. split; [|done]. by apply register_lookup_old.
Qed.

Lemma target_kept_update s0 h f s :
  (forall e, dxftype (f e) = dxftype e) ->
  target_kept s0 s -> target_kept s0 (update_entity h f s).
Proof.
  intros Hf (Hb & Hl & Ht & He). split_and!; try done.
  intros h' e H. destruct (He h' e H) as (e' & He' & Hty).
  destruct (decide (h = h')) as [->|Hne].
  - exists (f e'). rewrite update_entity_lookup, He'. split; [done|].
    by rewrite Hf.
  - exists e'. by rewrite update_entity_lookup_ne.
Qed.

Lemma target_kept_blocks_new s0 n attrs s :
  target_kept s0 s ->
  target_kept s0
    (set_target
       (set_blocks (blocks_new n attrs (blocks (target s))) (target s)) s).
Proof.
  intros (Hb & Hl & Ht & He). split_and!; try done.
  simpl. unfold blocks_new. rewrite fmap_app. by apply prefix_app_r.
Qed.

Lemma target_kept_import_block s0 fuel n r :
  inv (target_kept s0) (import_block fuel n r).
Proof.
  apply inv_import_block; try done.
  - intros. by apply target_kept_register.
  - intros h f s Hf. apply target_kept_update. intros e.
    by apply handler_update_type.
  - intros. by apply target_kept_blocks_new.
Qed.

Lemma target_kept_import_entities s0 fuel entities target_layout :
  inv (target_kept s0) (import_entities fuel entities target_layout).
Proof.
  apply inv_import_entities; try done.
  - intros. by apply target_kept_register.
  - intros h f s Hf. apply target_kept_update. intros e.
    by apply handler_update_type.
  - intros. by apply target_kept_blocks_new.
Qed.

Lemma get_target_name_total name ls :
  exists t, get_target_name name ls = Some t /\ layouts_has t ls = false.
Proof.
  destruct (layouts_has name ls) eqn:E.
  - destruct (get_target_name_first_free _ _ E) as (k & _ & Hk & Hfree & _).
    eauto.
  - exists name. split; [|done]. unfold get_target_name. simpl.
    by rewrite E.
Qed.


Lemma elem_of_layouts_has x (ls : list layout) :
  x ∈ layout_name <$> ls -> layouts_has x ls = true.
Proof.
  intros (l & -> & Hl)%list_elem_of_fmap. apply existsb_exists.
  exists l. split; [by apply list_elem_of_In|]. by apply bool_decide_eq_true.
Qed.

(** What [recreate_source_layout] does for a paper space layout. *)
Lemma recreate_source_layout_Ret name s tl s' :
  lower name <> "model" ->
  recreate_source_layout name s = Ret tl s' ->
  exists t l,
    tl = BaseLayout TargetDoc (PaperSpace t) /\
    layouts_get name (layouts (source s)) = Some l /\
    layouts_has t (layouts (target s)) = false /\
    s' = set_target
           (set_layouts
              (layouts_new t (clear (dxf_layout l)) (layouts (target s)))
              (target s)) s.
Proof.
  intros Hname. unfold recreate_source_layout.
  rewrite bool_decide_eq_false_2 by done.
  destruct (layouts_get name (layouts (source s))) as [l|]; [|done].
  destruct (get_target_name_total name (layouts (target s)))
    as (t & -> & Hfree).
  intros [= <- <-]. by exists t, l.
Qed.

Lemma layout_names_import_entities names fuel entities target_layout :
  inv (fun s => layout_name <$> layouts (target s) = names)
      (import_entities fuel entities target_layout).
Proof.
  apply inv_import_entities; try done.
  intros space e c s _ <-.
  by rewrite target_register, layouts_add_entity_names.
Qed.

Lemma import_paperspace_layout_Ret fuel name s tl s' :
  import_paperspace_layout fuel name s = Ret tl s' ->
  exists t,
    tl = BaseLayout TargetDoc (PaperSpace t) /\
    layouts_has t (layouts (target s)) = false /\
    layout_name <$> layouts (target s')
    = ((layout_name <$> layouts (target s)) ++ [t])%list.
Proof.
  unfold import_paperspace_layout. case_bool_decide as Hname; [done|].
  destruct (layouts_get name (layouts (source s))) as [l|]; [|done].
  intros (tl' & s1 & Hrec & (u & s2 & Himp & Hret)%bind_Ret)%bind_Ret.
  injection Hret as <- <-.
  destruct (recreate_source_layout_Ret _ _ _ _ Hname Hrec)
    as (t & l' & -> & _ & Hfree & ->).
  exists t. split_and!; [done|done|].
  refine (inv_Ret_elim _ _ _ _ _
            (layout_names_import_entities _ _ _ _) _ Himp).
  simpl. unfold layouts_new. by rewrite fmap_app.
Qed.

Lemma import_paperspace_layouts_loop fuel l :
  forall s s',
    for_each
      (fun name =>
         if negb (bool_decide (lower name = "model"))
         then _ <- import_paperspace_layout fuel name ;; ret tt
         else ret tt) l s = Ret tt s' ->
    exists new,
      layout_name <$> layouts (target s')
      = ((layout_name <$> layouts (target s)) ++ new)%list /\
      length new = length (filter (fun name => lower name <> "model") l) /\
      (NoDup (layout_name <$> layouts (target s)) ->
       NoDup (layout_name <$> layouts (target s'))).
Proof.
  induction l as [|name l IH]; intros s s'; simpl.
  { intros [= <-]. exists []. by rewrite app_nil_r. }
  intros ([] & s1 & Hname & Hrest)%bind_Ret.
  destruct (IH _ _ Hrest) as (new & Hnames & Hlen & Hnodup).
  rewrite filter_cons. case_bool_decide as Hm; simpl in Hname.
  - injection Hname as <-. rewrite decide_False by (by intros ?).
    by exists new.
  - apply bind_Ret in Hname as (tl & s2 & Himp & [= <-]).
    destruct (import_paperspace_layout_Ret _ _ _ _ _ Himp)
      as (t & _ & Hfree & Hnames1).
    rewrite decide_True by done.
    exists (t :: new). split_and!.
    + by rewrite Hnames, Hnames1, <- app_assoc.
    + simpl. by rewrite Hlen.
    + intros Hnd. apply Hnodup. rewrite Hnames1.
      apply NoDup_app. split_and!; [done| |apply NoDup_singleton].
      intros x Hx ->%list_elem_of_singleton.
      apply elem_of_layouts_has in Hx. congruence.
Qed.

(** ** The memo and the blocks of the target *)

Lemma memo_in_target_import_block fuel n r :
  inv memo_in_target (import_block fuel n r).
Proof.
  apply inv_import_block_guarded; try done.
  - intros space e c s _ HI n' r' H. rewrite !blocks_has_register. eauto.
  - intros n' v s HI Hv Hn m r'. simpl.
    destruct (decide (n' = m)) as [->|Hne].
    + rewrite lookup_insert_eq. by intros [= <-].
    + rewrite lookup_insert_ne by done. apply HI.
  - intros n' attrs s HI m r' H. simpl. rewrite !blocks_has_new.
    destruct (HI m r' H) as [-> ->]. done.
Qed.

Lemma memo_has_import_block a fuel n r :
  inv (fun s => is_Some (imported_blocks s !! a)) (import_block fuel n r).
Proof.
  apply inv_import_block; try done.
  intros n' v s H. simpl. apply lookup_insert_is_Some'. by right.
Qed.

Lemma used_arrows_import_block U fuel n r :
  inv (fun s => used_arrows s = U) (import_block fuel n r).
Proof. by apply inv_import_block. Qed.

Lemma memo_in_target_acquire a s :
  memo_in_target s ->
  memo_in_target (set_target (acquire_arrow a (target s)) s).
Proof.
  intros HI n r H. simpl. unfold acquire_arrow.
  destruct (blocks_has a (blocks (target s))); [by apply HI|].
  simpl. rewrite !blocks_has_new. destruct (HI n r H) as [-> ->]. done.
Qed.

(** [import_blocks]: each name of the list ends up in the memo. *)
Lemma import_blocks_memo fuel names rename s s' n :
  memo_in_target s -> n ∈ names ->
  import_blocks fuel names rename s = Ret tt s' ->
  memo_in_target s' /\ is_Some (imported_blocks s' !! n).
Proof.
  intros HI Hn. unfold import_blocks.
  apply (for_each_Ret_establishes
           (fun block_name => _ <- import_block fuel block_name rename ;;
                              ret tt)
           memo_in_target
           (fun s => memo_in_target s /\ is_Some (imported_blocks s !! n))
           n); [| | |done|done].
  - intros y s1 s2 H1 (r & s3 & Hib & [= <-])%bind_Ret.
    by apply (inv_Ret_elim _ _ _ _ _
                (memo_in_target_import_block fuel y rename) H1 Hib).
  - intros y s1 s2 [H1 H2] (r & s3 & Hib & [= <-])%bind_Ret. split.
    + by apply (inv_Ret_elim _ _ _ _ _
                  (memo_in_target_import_block fuel y rename) H1 Hib).
    + by apply (inv_Ret_elim _ _ _ _ _
                  (memo_has_import_block n fuel y rename) H2 Hib).
  - intros s1 s2 H1 (r & s3 & Hib & [= <-])%bind_Ret. split.
    + by apply (inv_Ret_elim _ _ _ _ _
                  (memo_in_target_import_block fuel n rename) H1 Hib).
    + apply import_block_Ret_memo in Hib as [-> _]. by eexists.
Qed.

(** [_create_missing_arrows]: each arrow name that is not a well-known
    one ends up in the memo. *)
Lemma create_missing_arrows_memo is_acad_arrow fuel s s' a :
  memo_in_target s ->
  a ∈ used_arrows s -> a <> "" -> is_acad_arrow a = false ->
  _create_missing_arrows is_acad_arrow fuel s = Ret tt s' ->
  used_arrows s' = used_arrows s ∖ {[""]} /\
  memo_in_target s' /\ is_Some (imported_blocks s' !! a).
Proof.
  intros HI Ha Hne Hacad. unfold _create_missing_arrows.
  intros (u & s0 & Hmod & Hloop)%bind_Ret.
  injection Hmod as _ <-.
  set (body := fun arrow_name =>
         if is_acad_arrow arrow_name
         then modify (fun s => set_target
                        (acquire_arrow arrow_name (target s)) s)
         else _ <- import_block fuel arrow_name false ;; ret tt) in *.
  set (s1 := set_used_arrows (used_arrows s ∖ {[""]}) s) in *.
  split.
  { refine (inv_Ret_elim (fun s2 => used_arrows s2 = used_arrows s ∖ {[""]})
              _ _ _ _ _ eq_refl Hloop).
    apply inv_for_each. intros y _. unfold body.
    destruct (is_acad_arrow y); [by apply inv_modify|].
    apply inv_bind; [apply used_arrows_import_block|]. intros _.
    apply inv_ret. }
  revert Hloop.
  apply (for_each_Ret_establishes body memo_in_target
           (fun s => memo_in_target s /\ is_Some (imported_blocks s !! a))
           a).
  - intros y s2 s3 H1. unfold body. destruct (is_acad_arrow y).
    + intros [= <-]. by apply memo_in_target_acquire.
    + intros (r & s4 & Hib & [= <-])%bind_Ret.
      by apply (inv_Ret_elim _ _ _ _ _
                  (memo_in_target_import_block fuel y false) H1 Hib).
  - intros y s2 s3 [H1 H2]. unfold body. destruct (is_acad_arrow y).
    + intros [= <-]. split; [by apply memo_in_target_acquire|done].
    + intros (r & s4 & Hib & [= <-])%bind_Ret. split.
      * by apply (inv_Ret_elim _ _ _ _ _
                    (memo_in_target_import_block fuel y false) H1 Hib).
      * by apply (inv_Ret_elim _ _ _ _ _
                    (memo_has_import_block a fuel y false) H2 Hib).
  - intros s2 s3 H1. unfold body. rewrite Hacad.
    intros (r & s4 & Hib & [= <-])%bind_Ret. split.
    + by apply (inv_Ret_elim _ _ _ _ _
                  (memo_in_target_import_block fuel a false) H1 Hib).
    + apply import_block_Ret_memo in Hib as [-> _]. by eexists.
  - apply elem_of_elements. unfold s1. simpl.
    apply elem_of_difference. split; [done|].
    by intros ->%elem_of_singleton.
  - done.
Qed.

(** ** Invariants of the table importer, with and without replacing *)

Lemma import_table_entry_uncopyable name replace n e s :
  table_get n (source_table name s) = Some e ->
  table_has (dxf_name e) (target_table name s) && negb replace = false ->
  new_clean_entity e false = None ->
  import_table_entry name replace n s
  = Raise DXFTypeError (table_entry_prepared name e s).
Proof.
  intros He Hcond Hc. unfold import_table_entry. rewrite He. cbv zeta.
  rewrite Hcond. unfold table_entry_prepared.
  match goal with
  | |- bind _ _ ?s1 = _ => generalize s1
  end.
  intros s1. unfold bind, _duplicate_table_entry. by rewrite Hc.
Qed.

Section TableClosure.

Variable I : importer -> Prop.

Hypothesis I_used_linetype : forall n s, I s -> I (add_used_linetype n s).
Hypothesis I_used_style : forall n s, I s -> I (add_used_style n s).
Hypothesis I_used_arrow : forall n s, I s -> I (add_used_arrow n s).
Hypothesis I_duplicate : forall name entry c s,
  entry ∈ source_table name s ->
  new_clean_entity entry false = Some c ->
  I s -> I (duplicated_entry name entry c s).
Hypothesis I_table_add : forall name c s,
  I s ->
  I (set_target_table name (table_add_entry c (target_table name s)) s).
Hypothesis I_table_remove : forall name n s,
  I s ->
  I (set_target_table name (table_remove n (target_table name s)) s).

Lemma inv_table_entry_prepared name e s :
  I s -> I (table_entry_prepared name e s).
Proof.
  intros HI. unfold table_entry_prepared.
  assert (HI1 : I (if table_has (dxf_name e) (target_table name s)
                   then set_target_table name
                          (table_remove (dxf_name e) (target_table name s)) s
                   else s)) by (case_match; auto).
  revert HI1. generalize (if table_has (dxf_name e) (target_table name s)
                   then set_target_table name
                          (table_remove (dxf_name e) (target_table name s)) s
                   else s).
  intros s1 HI1. repeat case_bool_decide; auto.
  unfold _add_dimstyle_resources. auto 10.
Qed.

Lemma inv_import_table_entry_any name replace entry_name :
  inv I (import_table_entry name replace entry_name).
Proof.
  intros s s' HI.
  destruct (table_get entry_name (source_table name s)) as [e|] eqn:He.
  2:{ rewrite import_table_entry_skip by (by rewrite He). by inv_same. }
  destruct (table_has (dxf_name e) (target_table name s) && negb replace)
    eqn:Econd.
  { rewrite import_table_entry_skip by (by rewrite He). by inv_same. }
  pose proof (inv_table_entry_prepared name e s HI) as HI1.
  destruct (new_clean_entity e false) as [c|] eqn:Ec.
  - rewrite (import_table_entry_copy _ _ _ e c) by done.
    simpl. intros [= <-]. unfold table_entry_copied. cbv zeta.
    apply I_table_add, I_duplicate; [|done|done].
    rewrite source_table_prepared. by apply table_get_Some in He as [? _].
  - rewrite (import_table_entry_uncopyable _ _ _ e) by done.
    simpl. by intros [= <-].
Qed.

Lemma inv_import_table_any name entries replace :
  inv I (import_table name entries replace).
Proof.
  intros s s' HI. unfold import_table.
  destruct (negb (bool_decide (name ∈ IMPORT_TABLES))); [by inv_same|].
  revert HI. apply inv_for_each. intros x _.
  apply inv_import_table_entry_any.
Qed.

Lemma inv_import_tables_any table_names replace :
  inv I (import_tables table_names replace).
Proof.
  apply inv_for_each. intros x _. apply inv_import_table_any.
Qed.

End TableClosure.

(** ** Invariants of every call before [finalize] *)

Section StepClosure.

Variable I : importer -> Prop.

Hypothesis inv_block : forall fuel n r, inv I (import_block fuel n r).
Hypothesis inv_entity : forall fuel e target_layout,
  inv I (import_entity fuel e target_layout).
Hypothesis inv_entities : forall fuel entities target_layout,
  inv I (import_entities fuel entities target_layout).
Hypothesis inv_table : forall name entries replace,
  inv I (import_table name entries replace).
Hypothesis I_layouts_new : forall n attrs s,
  I s ->
  I (set_target
       (set_layouts (layouts_new n attrs (layouts (target s))) (target s)) s).



End StepClosure.



(** ** Imported entities and their sub-entities *)

Lemma new_clean_entity_stripped e c :
  new_clean_entity e false = Some c -> stripped c.
Proof.
  unfold new_clean_entity, copy. destruct (copy_supported e); [|done].
  by intros [= <-].
Qed.

Lemma remove_dependencies_stripped e : stripped (remove_dependencies e false).
Proof. done. Qed.

Lemma stripped_deep_plain e :
  stripped e -> dxftype e <> "INSERT" -> dxftype e <> "POLYLINE" ->
  stripped_deep e.
Proof. intros H H1 H2. by split_and!. Qed.

Lemma stripped_deep_handler_update f e :
  handler_update f -> stripped_deep e -> stripped_deep (f e).
Proof.
  intros Hf ((H1 & H2 & H3 & H4) & Ha & Hv).
  destruct Hf; split_and!; try done; simpl; intros _.
  - apply Forall_fmap, Forall_true. intros a. apply remove_dependencies_stripped.
  - apply Forall_fmap, Forall_true. intros a. apply remove_dependencies_stripped.
Qed.


Lemma entitydb_register space c s :
  entitydb (target (register_entity space c s))
  = (entitydb (target s) ++ [set_dxf_attribs c])%list.
Proof. unfold register_entity. simpl. by rewrite entitydb_add_entity. Qed.

Lemma deep_update first h f s :
  (forall e, stripped_deep e -> stripped_deep (f e)) ->
  imported_entities_stripped first s ->
  imported_entities_stripped first (update_entity h f s).
Proof.
  intros Hf HI h' x Hh'.
  destruct (decide (h = h')) as [<-|Hne].
  - rewrite update_entity_lookup.
    destruct (entitydb (target s) !! h) as [y|] eqn:Ey; [|done].
    intros [= <-]. apply Hf. by eapply HI.
  - rewrite update_entity_lookup_ne by done. by apply HI.
Qed.

(** A clean copy has just been registered and its handler, when its type
    has one that looks at sub-entities, has run. *)
Lemma deep_register first space e c f s :
  new_clean_entity e false = Some c ->
  imported_entities_stripped first s ->
  (forall x, stripped x -> stripped (f x)) ->
  (dxftype c = "INSERT" -> Forall stripped (attribs (f (set_dxf_attribs c)))) ->
  (dxftype c = "POLYLINE" ->
   Forall stripped (vertices (f (set_dxf_attribs c)))) ->
  (forall x, dxftype (f x) = dxftype x) ->
  imported_entities_stripped first
    (update_entity (length (entitydb (target s))) f
       (register_entity space c s)).
Proof.
  intros Hc HI Hf Ha Hv Hty h x Hh.
  destruct (decide (length (entitydb (target s)) = h)) as [<-|Hne].
  - rewrite update_entity_lookup, register_lookup. simpl. intros [= <-].
    split_and!.
    + apply Hf. by apply new_clean_entity_stripped in Hc.
    + rewrite Hty. exact Ha.
    + rewrite Hty. exact Hv.
  - rewrite update_entity_lookup_ne by done. rewrite entitydb_register.
    intros [Hx|[Hlen Hx]]%lookup_app_Some; [by eapply HI|].
    apply list_lookup_singleton_Some in Hx as [Hx _]. lia.
Qed.

Lemma deep_register_plain first space e c s :
  new_clean_entity e false = Some c ->
  dxftype e <> "INSERT" -> dxftype e <> "POLYLINE" ->
  imported_entities_stripped first s ->
  imported_entities_stripped first (register_entity space c s).
Proof.
  intros Hc H1 H2 HI h x Hh. rewrite entitydb_register.
  intros [Hx|[_ Hx]]%lookup_app_Some; [by eapply HI|].
  apply list_lookup_singleton_Some in Hx as [_ <-].
  pose proof (new_clean_entity_dxf _ _ _ Hc) as [_ Hty].
  apply stripped_deep_plain; simpl; [|congruence..].
  by apply new_clean_entity_stripped in Hc.
Qed.

Section DeepCallback.

Variable first : nat.
Variable ib : string -> bool -> M string.
Hypothesis inv_ib : forall n r,
  inv (imported_entities_stripped first) (ib n r).

Lemma deep_import_entity_with fuel e target_layout :
  inv (imported_entities_stripped first)
      (import_entity_with ib fuel e target_layout).
Proof.
  intros s s' HI. rewrite import_entity_with_unfold.
  destruct (layout_space_of target_layout) as [space|]; [|by inv_same].
  destruct (negb (bool_decide (dxftype e ∈ IMPORT_ENTITIES)));
    [by inv_same|].
  cbv zeta.
  assert (HI1 : imported_entities_stripped first (_add_used_resources e s)).
  { intros h x Hh. rewrite target_add_used_resources. by apply HI. }
  destruct (new_clean_entity e false) as [c|] eqn:Ec; [|by inv_same].
  pose proof (new_clean_entity_dxf _ _ _ Ec) as [_ Hty].
  revert HI1. generalize (_add_used_resources e s). intros s1 HI1.
  unfold post_import. repeat case_bool_decide.
  - (* INSERT *)
    simpl. intros [= <-].
    apply (deep_register first space e c _
             (set_imported_inserts
                (imported_inserts (register_entity space c s1)
                 ++ [length (entitydb (target s1))]) s1));
      try done.
    + intros _. simpl. apply Forall_fmap, Forall_true.
      intros a. apply remove_dependencies_stripped.
    + intros Hp. congruence.
  - (* POLYLINE *)
    simpl. intros [= <-].
    apply (deep_register first space e c _ s1); try done.
    + intros Hp. congruence.
    + intros _. simpl. apply Forall_fmap, Forall_true.
      intros a. apply remove_dependencies_stripped.
  - (* HATCH *)
    simpl. intros [= <-]. apply deep_update.
    { intros x. apply stripped_deep_handler_update. constructor. }
    eapply deep_register_plain; [done|congruence..|done].
  - (* VIEWPORT *)
    simpl. intros [= <-]. apply deep_update.
    { intros x. exact (stripped_deep_handler_update _ x hu_viewport). }
    eapply deep_register_plain; [done|congruence..|done].
  - (* DIMENSION *)
    apply inv_import_dimension; try done.
    + intros h f s0 Hf. apply deep_update. intros x.
      by apply stripped_deep_handler_update.
    + eapply deep_register_plain; [done|congruence..|done].
  - (* any other type *)
    simpl. intros [= <-].
    eapply deep_register_plain; [done|congruence..|done].
Qed.

Lemma deep_import_entities_with fuel entities target_layout :
  inv (imported_entities_stripped first)
      (import_entities_with ib fuel entities target_layout).
Proof. apply inv_for_each. intros e _. apply deep_import_entity_with. Qed.

End DeepCallback.

Lemma deep_import_block first fuel block_name rename :
  inv (imported_entities_stripped first)
      (import_block fuel block_name rename).
Proof.
  revert block_name rename.
  induction fuel as [|fuel IH]; intros block_name rename; simpl.
  - apply inv_out_of_fuel.
  - intros s s' HI.
    destruct (imported_blocks s !! block_name); [by inv_same|].
    destruct (blocks_get block_name (blocks (source s))) as [b|];
      [|by inv_same].
    case_match; [by intros [= <-]|].
    destruct (get_new_block_name block_name (blocks (target s))) as [new|];
      [|done].
    assert (HI1 : imported_entities_stripped first
      (set_target
         (set_blocks (blocks_new new (new_block_attribs b)
                        (blocks (target s))) (target s)) s)) by done.
    revert HI1. generalize (source s). intros src.
    generalize (set_target
      (set_blocks (blocks_new new (new_block_attribs b) (blocks (target s)))
         (target s)) s).
    intros s1 HI1. revert s1 s' HI1.
    apply inv_bind; [by apply deep_import_entities_with|]. intros _.
    apply inv_bind; [by apply inv_modify|]. intros _. apply inv_ret.
Qed.


Lemma deep_import_entities first fuel entities target_layout :
  inv (imported_entities_stripped first)
      (import_entities fuel entities target_layout).
Proof.
  apply deep_import_entities_with. intros n r. apply deep_import_block.
Qed.








(** ** Arrow blocks that the target has *)

Lemma blocks_has_get n bs :
  blocks_has n bs = true -> is_Some (blocks_get n bs).
Proof.
  unfold blocks_has, blocks_get. intros (p & Hp & Hn)%existsb_exists.
  destruct (List.find _ bs) as [q|] eqn:E; [by eexists|].
  by rewrite (find_none _ _ E p Hp) in Hn.
Qed.

Lemma extended_by_identity_refl m : extended_by_identity m m.
Proof. intros k. by left. Qed.

Lemma extended_by_identity_trans m1 m2 m3 :
  extended_by_identity m1 m2 -> extended_by_identity m2 m3 ->
  extended_by_identity m1 m3.
Proof.
  intros H12 H23 k. destruct (H12 k) as [E12|[E1 E2]], (H23 k) as [E23|[E2' E3]].
  - left. congruence.
  - right. split; congruence.
  - right. split; congruence.
  - congruence.
Qed.

Lemma extended_by_identity_is_Some m m' k :
  extended_by_identity m m' -> is_Some (m !! k) -> is_Some (m' !! k).
Proof.
  intros H [r Hr]. destruct (H k) as [E|[E _]]; [|congruence].
  exists r. congruence.
Qed.

(** [import_block(a, rename=False)] for a block that both drawings have:
    nothing is copied. *)
Lemma import_block_present f a s :
  blocks_has a (blocks (source s)) = true ->
  blocks_has a (blocks (target s)) = true ->
  exists r s',
    import_block (S f) a false s = Ret r s' /\
    target s' = target s /\ source s' = source s /\
    imported_inserts s' = imported_inserts s /\
    extended_by_identity (imported_blocks s) (imported_blocks s') /\
    is_Some (imported_blocks s' !! a).
Proof.
  intros Hsrc Htgt. simpl.
  destruct (imported_blocks s !! a) as [r|] eqn:Ememo.
  { exists r, s.
    split_and!; first [done|apply extended_by_identity_refl|by exists r]. }
  destruct (blocks_has_get _ _ Hsrc) as [b ->]. rewrite Htgt. simpl.
  eexists _, _. split; [reflexivity|]. split_and!; try done.
  - intros k. simpl. destruct (decide (a = k)) as [->|Hne].
    + right. by rewrite lookup_insert_eq.
    + left. by rewrite lookup_insert_ne.
  - simpl. rewrite lookup_insert_eq. by eexists.
Qed.

(** The loop over a queue of references to blocks that both drawings
    have. *)
Lemma import_arrow_blocks_present f fuel :
  forall i s,
    length (imported_inserts s) - i < fuel ->
    (forall j h, i <= j -> imported_inserts s !! j = Some h ->
       exists c a,
         entitydb (target s) !! h = Some c /\ dxf c !! "name" = Some a /\
         blocks_has a (blocks (source s)) = true /\
         blocks_has a (blocks (target s)) = true) ->
    exists s',
      import_arrow_blocks (import_block (S f)) fuel i s = Ret tt s' /\
      target s' = target s /\ source s' = source s /\
      imported_inserts s' = imported_inserts s /\
      extended_by_identity (imported_blocks s) (imported_blocks s') /\
      forall j h c a,
        i <= j -> imported_inserts s !! j = Some h ->
        entitydb (target s) !! h = Some c -> dxf c !! "name" = Some a ->
        is_Some (imported_blocks s' !! a).
Proof.
  induction fuel as [|fuel IH]; intros i s Hfuel Hq; [lia|].
  cbn [import_arrow_blocks].
  destruct (imported_inserts s !! i) as [h|] eqn:Ei.
  2:{ exists s. split_and!; try done; [apply extended_by_identity_refl|].
      intros j h c a Hj Hh. apply lookup_ge_None in Ei.
      apply lookup_lt_Some in Hh. lia. }
  destruct (Hq i h (le_n i) Ei) as (c & a & Hc & Ha & Hsrc & Htgt).
  destruct (import_block_present f a s Hsrc Htgt)
    as (r & s1 & Hib & Ht1 & Hs1 & Hq1 & Hext1 & Hsome1).
  destruct (IH (S i) s1) as (s' & Hloop & Ht & Hs & Hq' & Hext & Hall).
  { rewrite Hq1. apply lookup_lt_Some in Ei. lia. }
  { intros j h' Hj. rewrite Hq1, Ht1, Hs1. apply Hq. lia. }
  exists s'. split_and!.
  - unfold bind, entity_attr. rewrite Hc, Ha, Hib. exact Hloop.
  - congruence.
  - congruence.
  - congruence.
  - by eapply extended_by_identity_trans.
  - intros j h' c' a' Hj Hh' Hc' Ha'.
    destruct (decide (j = i)) as [->|Hne].
    + assert (h' = h) as -> by congruence.
      assert (a' = a) as -> by congruence.
      by eapply extended_by_identity_is_Some.
    + apply (Hall j h' c' a'); [lia|by rewrite Hq1|by rewrite Ht1|done].
Qed.

(** The handler of a dimension whose geometry block holds no dimension
    and refers only to blocks that the target has. *)
Lemma import_dimension_reuses f h s e g bG :
  entitydb (target s) !! h = Some e ->
  dxf e !! "geometry" = Some g -> g <> "" ->
  imported_blocks s !! g = None ->
  blocks_get g (blocks (source s)) = Some bG ->
  (forall x, x ∈ entities_of (source s) (block_entities bG) ->
             dxftype x <> "DIMENSION") ->
  (forall x, x ∈ entities_of (source s) (block_entities bG) ->
     dxftype x = "INSERT" ->
     exists a, dxf x !! "name" = Some a /\
               blocks_has a (blocks (source s)) = true /\
               blocks_has a (blocks (target s)) = true) ->
  length (entities_of (source s) (block_entities bG)) <= f ->
  exists g' s',
    _import_dimension (import_block (S f)) (S f) h s = Ret tt s' /\
    blocks_has g' (blocks (target s)) = false /\
    (blocks (target s')).*1 = ((blocks (target s)).*1 ++ [g'])%list /\
    imported_blocks s' !! g = Some g' /\
    imported_inserts s' = imported_inserts s /\
    source s' = source s /\
    forall x a,
      x ∈ entities_of (source s) (block_entities bG) ->
      dxftype x = "INSERT" -> copy_supported x = true ->
      dxf x !! "name" = Some a -> a <> g ->
      imported_blocks s !! a = None ->
      imported_blocks s' !! a = Some a.
Proof.
  intros He Hg Hg0 Hmemo HbG Hplain Harrows Hfuel.
  set (sa := set_imported_inserts [] s).
  destruct (import_block_plain f g sa bG Hplain Hmemo HbG)
    as (new & sb & Hib & Hsb & Hmb & Hnb & Hfree & Hkb & Hlb
        & newq & Hqb & Hndq & Hlenq & Hnew).
  change (source sa) with (source s) in Hsb, Hlenq, Hnew.
  change (target sa) with (target s) in Hnb, Hfree, Hlb, Hnew.
  change (imported_blocks sa) with (imported_blocks s) in Hmb.
  change (imported_inserts sa) with (@nil nat) in Hqb. simpl in Hqb.
  set (sc := update_entity h (dxf_set "geometry" new) sb).
  assert (Hh : h < length (entitydb (target s)))
    by (by eapply lookup_lt_Some).
  destruct (import_arrow_blocks_present f (S f) 0 sc)
    as (sd & Hloop & Htd & Hsd & Hqd & Hext & Hall).
  { change (imported_inserts sc) with (imported_inserts sb).
    rewrite Hqb. lia. }
  { intros j h' _. change (imported_inserts sc) with (imported_inserts sb).
    rewrite Hqb. intros Hj.
    destruct (Hnew h') as ([Hge _] & c & x & Hc & Hx & Hty & Hn).
    { by eapply list_elem_of_lookup_2. }
    destruct (Harrows x Hx Hty) as (a & Ha & Hsrc & Htgt).
    exists c, a. split_and!.
    - unfold sc. rewrite update_entity_lookup_ne; [done|lia].
    - congruence.
    - change (source sc) with (source sb). by rewrite Hsb.
    - change (blocks (target sc)) with (blocks (target sb)).
      apply elem_of_blocks_has. rewrite Hnb. apply elem_of_app. left.
      by apply blocks_has_elem_of. }
  exists new, (set_imported_inserts (imported_inserts s) sd).
  split_and!.
  - unfold _import_dimension. rewrite He, Hg. simpl default.
    rewrite (bool_decide_eq_false_2 (g = "")) by done.
    rewrite (blocks_get_has _ _ _ HbG). simpl negb. cbv iota.
    rewrite (bind_Ret_l _ _ _ tt sa) by done.
    rewrite (bind_Ret_l _ _ _ new sb) by exact Hib.
    rewrite (bind_Ret_l _ _ _ tt sc) by done.
    rewrite (bind_Ret_l _ _ _ tt sd) by exact Hloop.
    done.
  - exact Hfree.
  - simpl. rewrite Htd. exact Hnb.
  - simpl. destruct (Hext g) as [E|[E _]].
    + rewrite E. change (imported_blocks sc) with (imported_blocks sb).
      rewrite Hmb. apply lookup_insert_eq.
    + change (imported_blocks sc) with (imported_blocks sb) in E.
      rewrite Hmb, lookup_insert_eq in E. done.
  - done.
  - simpl. rewrite Hsd. exact Hsb.
  - intros x a Hx Hty Hcopy Ha Hag Hma. simpl.
    destruct (import_block_queues_insert (S f) g sa new sb bG x a
                Hmemo HbG Hx Hty Hcopy Ha Hib) as (j & hx & ex & Hj & Hex & Hn).
    assert (Hge : length (entitydb (target s)) <= hx).
    { rewrite Hqb in Hj.
      destruct (Hnew hx) as ([Hge _] & _); [|done].
      by eapply list_elem_of_lookup_2. }
    assert (Hsome : is_Some (imported_blocks sd !! a)).
    { apply (Hall j hx ex a); [lia|done| |done].
      unfold sc. rewrite update_entity_lookup_ne; [done|lia]. }
    destruct (Hext a) as [E|[_ E]]; [|done].
    rewrite E in Hsome. change (imported_blocks sc) with (imported_blocks sb)
      in Hsome.
    rewrite Hmb, lookup_insert_ne in Hsome by done.
    rewrite Hma in Hsome. by destruct Hsome.
Qed.

(** * The claims *)

(** ** Entity cloner *)



(** ** Renaming on collision *)

Lemma import_block_Ret_renamed fuel n s r s' (k : nat) :
  imported_blocks s !! n = None ->
  blocks_has n (blocks (target s)) = true ->
  get_new_block_name n (blocks (target s)) = Some (n +:+ pretty k) ->
  import_block fuel n true s = Ret r s' ->
  r = n +:+ pretty k /\ imported_blocks s' !! n = Some r.
Proof.
  intros Hmemo Hhas Hnew. destruct fuel as [|fuel]; simpl; [done|].
  rewrite Hmemo. destruct (blocks_get n (blocks (source s))); [|done].
  rewrite Hhas, Hnew. simpl.
  intros (u & s1 & _ & (u' & s2 & Hmod & Hret)%bind_Ret)%bind_Ret.
  injection Hmod as _ <-. injection Hret as <- <-.
  split; [done|]. simpl. apply lookup_insert_eq.
Qed.

(** C6.  When [import_block(n, rename=True)] has to rename, because [n] is
    not in the memo and the target holds a block [n], the new name is [n]
    followed by the least number, counted from 0, for which the target has
    no block of that name: [get_new_block_name] finds it; it is [n0] when
    that is free and [n1] when [n0] is taken and [n1] is free.  Every call
    that returns returns that name, records it in the memo and leaves a
    block of that name in the target.  For a source block that holds no
    dimension the call does return, on any positive recursion budget, and
    the block of the new name is the one block the target gains, behind
    the blocks it had: after a first import has taken [n0], a later
    session on that target finds [n0] taken. *)
Theorem import_block_rename_first_free (s : importer) (n : string) :
  imported_blocks s !! n = None ->
  blocks_has n (blocks (target s)) = true ->
  exists k : nat,
    get_new_block_name n (blocks (target s)) = Some (n +:+ pretty k) /\
    blocks_has (n +:+ pretty k) (blocks (target s)) = false /\
    (forall i, i < k ->
       blocks_has (n +:+ pretty i) (blocks (target s)) = true) /\
    (forall fuel r s',
       import_block fuel n true s = Ret r s' ->
       r = n +:+ pretty k /\ imported_blocks s' !! n = Some r /\
       blocks_has r (blocks (target s')) = true) /\
    (forall b,
       blocks_get n (blocks (source s)) = Some b ->
       (forall e, e ∈ entities_of (source s) (block_entities b) ->
                  dxftype e <> "DIMENSION") ->
       forall fuel, exists s',
         import_block (S fuel) n true s = Ret (n +:+ pretty k) s' /\
         (blocks (target s')).*1
         = ((blocks (target s)).*1 ++ [n +:+ pretty k])%list /\
         imported_blocks s' !! n = Some (n +:+ pretty k)) /\
    (blocks_has (n +:+ "0") (blocks (target s)) = false -> k = 0) /\
    (blocks_has (n +:+ "0") (blocks (target s)) = true ->
     blocks_has (n +:+ "1") (blocks (target s)) = false -> k = 1).
Proof.
  intros Hmemo Hhas.
  destruct (get_new_block_name_first_free _ _ Hhas)
    as (k & Hk & Hfree & Hbelow).
  exists k. split_and!; try done.
  - intros fuel r s' Hret.
    destruct (import_block_Ret_renamed _ _ _ _ _ _ Hmemo Hhas Hk Hret)
      as [-> Hm].
    split_and!; [done|done|].
    by apply (import_block_Ret_memo _ _ _ _ _ _ Hret).
  - intros b Hb Hplain fuel.
    destruct (import_block_plain fuel n s b Hplain Hmemo Hb)
      as (new & s' & Hret & _ & Hm & Hnames & _).
    destruct (import_block_Ret_renamed _ _ _ _ _ _ Hmemo Hhas Hk Hret)
      as [-> _].
    exists s'. split_and!; [done|done|].
    rewrite Hm. apply lookup_insert_eq.
  - intros H0. destruct k as [|k]; [done|].
    specialize (Hbelow 0 ltac:(lia)).
    change (pretty 0) with "0" in Hbelow. congruence.
  - intros H0 H1. destruct k as [|[|k]]; [| done |].
    + change (pretty 0) with "0" in Hfree. congruence.
    + specialize (Hbelow 1 ltac:(lia)).
      change (pretty 1) with "1" in Hbelow. congruence.
Qed.

(** The source block [A], which holds a line, is imported into a target
    that holds a block [A]: the call returns [A0] and the target has the
    blocks [A] and [A0].  A second session on that target imports [A]
    again: the call returns [A1] and the target has [A], [A0] and [A1]. *)
Lemma import_block_rename_first_free_witness :
  exists s1 s2,
    import_block 1 "A" true (sample_session renamed_source renamed_target)
    = Ret "A0" s1 /\
    (blocks (target s1)).*1 = ["A"; "A0"] /\
    import_block 1 "A" true (sample_session renamed_source (target s1))
    = Ret "A1" s2 /\
    (blocks (target s2)).*1 = ["A"; "A0"; "A1"].
Proof.
  assert (Hplain : forall tgt e,
    e ∈ entities_of (source (sample_session renamed_source tgt))
          (block_entities (sample_block [0])) ->
    dxftype e <> "DIMENSION").
  { intros tgt e He. simpl in He.
    apply list_elem_of_singleton in He as ->. done. }
  destruct (import_block_rename_first_free
              (sample_session renamed_source renamed_target) "A"
              eq_refl eq_refl)
    as (k1 & _ & _ & _ & _ & Htotal1 & Hk1 & _).
  destruct (Htotal1 (sample_block [0]) eq_refl (Hplain _) 0)
    as (s1 & Hret1 & Hnames1 & _).
  rewrite (Hk1 eq_refl) in Hret1, Hnames1.
  assert (Hhas : blocks_has "A" (blocks (target s1)) = true
                 /\ blocks_has "A0" (blocks (target s1)) = true
                 /\ blocks_has "A1" (blocks (target s1)) = false).
  { rewrite !(blocks_has_names _ (blocks (target s1))
                [("A", sample_block []); ("A0", sample_block [])])
      by exact Hnames1.
    by split_and!. }
  destruct Hhas as (HA & HA0 & HA1).
  destruct (import_block_rename_first_free
              (sample_session renamed_source (target s1)) "A"
              eq_refl HA)
    as (k2 & _ & _ & _ & _ & Htotal2 & _ & Hk2).
  destruct (Htotal2 (sample_block [0]) eq_refl (Hplain _) 0)
    as (s2 & Hret2 & Hnames2 & _).
  rewrite (Hk2 HA0 HA1) in Hret2, Hnames2.
  exists s1, s2. split_and!.
  - exact Hret1.
  - exact Hnames1.
  - exact Hret2.
  - rewrite Hnames2.
    change (((blocks (target s1)).*1 ++ ["A1"])%list = ["A"; "A0"; "A1"]).
    by rewrite Hnames1.
Defined.

(** ** Layout names *)

(** C7, as stated, fails: with the name [A] taken, the layout loop answers
    [A1] where the block loop answers [A0]. *)
Lemma layout_probing_differs_from_block_probing :
  get_target_name "A" [Layout "A" ∅ []]
  <> get_new_block_name "A" [("A", sample_block [])].
Proof. vm_compute. discriminate. Qed.

(** C7, amended.  When the name of a paper space layout to recreate is
    taken in the target, [recreate_source_layout] creates the layout under
    that name followed by the least number, counted from 1, for which the
    target has no layout of that name. *)
Theorem recreate_source_layout_suffix_from_one
    (s : importer) (name : string) (source_layout : layout) :
  lower name <> "model" ->
  layouts_get name (layouts (source s)) = Some source_layout ->
  layouts_has name (layouts (target s)) = true ->
  exists k : nat,
    1 <= k /\
    recreate_source_layout name s
    = Ret (BaseLayout TargetDoc (PaperSpace (name +:+ pretty k)))
          (set_target
             (set_layouts
                (layouts_new (name +:+ pretty k)
                   (clear (dxf_layout source_layout)) (layouts (target s)))
                (target s)) s) /\
    layouts_has (name +:+ pretty k) (layouts (target s)) = false /\
    forall i, 1 <= i < k ->
      layouts_has (name +:+ pretty i) (layouts (target s)) = true.
Proof.
  intros Hmodel Hsrc Hhas.
  destruct (get_target_name_first_free _ _ Hhas)
    as (k & Hk1 & Hk & Hfree & Hbelow).
  exists k. split_and!; try done.
  unfold recreate_source_layout.
  rewrite bool_decide_eq_false_2 by done. by rewrite Hsrc, Hk.
Qed.

(** The source layout [Layout1] meets a target layout of the same name
    and is recreated as [Layout11]. *)
Lemma recreate_source_layout_suffix_from_one_witness :
  let src := sample_document [] no_tables [] [Layout "Layout1" ∅ []] in
  let tgt := sample_document [] no_tables [] [Layout "Layout1" ∅ []] in
  let s := sample_session src tgt in
  exists k : nat,
    1 <= k /\
    recreate_source_layout "Layout1" s
    = Ret (BaseLayout TargetDoc (PaperSpace ("Layout1" +:+ pretty k)))
          (set_target
             (set_layouts
                (layouts_new ("Layout1" +:+ pretty k)
                   (clear (dxf_layout (Layout "Layout1" ∅ [])))
                   (layouts (target s)))
                (target s)) s) /\
    layouts_has ("Layout1" +:+ pretty k) (layouts (target s)) = false /\
    forall i, 1 <= i < k ->
      layouts_has ("Layout1" +:+ pretty i) (layouts (target s)) = true.
Proof.
  apply (recreate_source_layout_suffix_from_one
           (sample_session
              (sample_document [] no_tables [] [Layout "Layout1" ∅ []])
              (sample_document [] no_tables [] [Layout "Layout1" ∅ []]))
           "Layout1" (Layout "Layout1" ∅ [])).
  - vm_compute. discriminate.
  - reflexivity.
  - reflexivity.
Defined.

(** ** Table importer *)

(** C4.  The code does otherwise: [_duplicate_table_entry] hands the
    source entry, not the copy, to [_set_table_entry_dxf_attribs].  The
    entry that [import_table] adds to the target for the source layer [L1]
    still carries the plot style and material handles of the source
    drawing, not the defaults [P0] and [M0] of the target, and is linked to
    no drawing. *)
Lemma import_table_entry_keeps_source_handles :
  exists s' new_entry,
    import_table "layers" (Str "L1") false
      (sample_session layered_source empty_target) = Ret tt s' /\
    _default_plotstyle_handle s' = "P0" /\
    _default_material_handle s' = "M0" /\
    layers (tables (target s')) = [new_entry] /\
    dxf new_entry !! "plotstyle_handle" = Some "5A" /\
    dxf new_entry !! "material_handle" = Some "5B" /\
    doc new_entry = None.
Proof.
  eexists _, _. split; [vm_compute; reflexivity|].
  split_and!; reflexivity.
Qed.

(** C5.  The code does otherwise, by the same slip: after
    [import_table("layers", "L1")] the layer [L1] of the source drawing is
    linked to the target drawing and carries the default plot style and
    material handles of the target. *)
Lemma import_table_mutates_source_entry :
  exists s' entry,
    import_table "layers" (Str "L1") false
      (sample_session layered_source empty_target) = Ret tt s' /\
    layers (tables (source s')) = [entry] /\
    doc entry = Some TargetDoc /\
    dxf entry !! "plotstyle_handle" = Some "P0" /\
    dxf entry !! "material_handle" = Some "M0" /\
    source s' <> layered_source.
Proof.
  eexists _, _. split; [vm_compute; reflexivity|].
  split_and!; try reflexivity.
  intros H. apply (f_equal (fun d => doc <$> layers (tables d))) in H.
  vm_compute in H. discriminate.
Qed.

(** ** Required table entries *)


(** The same failure on names that the source does hold: the leader with
    dimension style [DS] is imported, and [finalize] imports the style and
    then the arrow block [MYARROW] that the style names.  The line of that
    block is on layer [LZ]; its layer is recorded when the tables have
    been imported already, so the target has the line but no layer [LZ],
    though the source has one. *)
Lemma finalize_misses_names_recorded_by_arrow_blocks :
  exists s1 s2,
    import_entity 2 arrow_leader None
      (sample_session arrowed_source empty_target) = Ret tt s1 /\
    finalize (fun _ => false) 2 s1 = Ret tt s2 /\
    "LZ" ∈ used_layers s2 /\
    table_has "LZ" (source_table "layers" s2) = true /\
    table_has "LZ" (target_table "layers" s2) = false.
Proof.
  eexists _, _. split; [vm_compute; reflexivity|].
  split; [vm_compute; reflexivity|]. split_and!; [|reflexivity..].
  vm_compute. set_solver.
Qed.



(** C10.  For an entity of a supported type whose copy fails with
    DXFTypeError, [import_entity] returns having changed nothing but the
    sets of used resources: the target, the pending queue and the memo are
    as before, while the layer and line type of the entity, and its text
    style and dimension style when supported, are recorded; a later
    [finalize] that returns has imported the table entries of these names
    that the source holds. *)
Theorem import_entity_uncopyable_records_resources
    (is_acad_arrow : string -> bool) (fuel fuel' : nat) (e : entity)
    (target_layout : option base_layout) (s : importer) :
  dxftype e ∈ IMPORT_ENTITIES ->
  copy_supported e = false ->
  (forall l, target_layout = Some l -> layout_doc l = TargetDoc) ->
  let s1 := _add_used_resources e s in
  import_entity fuel e target_layout s = Ret tt s1 /\
  (target s1 = target s /\ source s1 = source s /\
   imported_inserts s1 = imported_inserts s /\
   imported_blocks s1 = imported_blocks s) /\
  (get_dxf_attrib e "layer" "0" ∈ used_layers s1 /\
   get_dxf_attrib e "linetype" "BYLAYER" ∈ used_linetypes s1 /\
   (is_supported_dxf_attrib e "style" = true ->
    get_dxf_attrib e "style" "Standard" ∈ used_styles s1) /\
   (is_supported_dxf_attrib e "dimstyle" = true ->
    get_dxf_attrib e "dimstyle" "Standard" ∈ used_dimstyles s1)) /\
  (forall s2,
     finalize is_acad_arrow fuel' s1 = Ret tt s2 ->
     (table_has (get_dxf_attrib e "layer" "0") (source_table "layers" s)
      = true ->
      table_has (get_dxf_attrib e "layer" "0") (target_table "layers" s2)
      = true) /\
     (table_has (get_dxf_attrib e "linetype" "BYLAYER")
        (source_table "linetypes" s) = true ->
      table_has (get_dxf_attrib e "linetype" "BYLAYER")
        (target_table "linetypes" s2) = true) /\
     (is_supported_dxf_attrib e "style" = true ->
      table_has (get_dxf_attrib e "style" "Standard")
        (source_table "styles" s) = true ->
      table_has (get_dxf_attrib e "style" "Standard")
        (target_table "styles" s2) = true) /\
     (is_supported_dxf_attrib e "dimstyle" = true ->
      table_has (get_dxf_attrib e "dimstyle" "Standard")
        (source_table "dimstyles" s) = true ->
      table_has (get_dxf_attrib e "dimstyle" "Standard")
        (target_table "dimstyles" s2) = true)).
Proof.
  intros Hty Hcopy Hlayout s1.
  destruct (add_used_resources_records e s) as (Hl & Hlt & Hst & Hds).
  split_and!; try done.
  - unfold import_entity, import_entity_with.
    assert (Hspace : exists space,
      match target_layout with
      | Some l => if bool_decide (layout_doc l <> TargetDoc) then None
                  else Some (layout_space l)
      | None => Some ModelSpace
      end = Some space).
    { destruct target_layout as [l|]; [|by eexists].
      rewrite bool_decide_eq_false_2; [by eexists|].
      intros Hne. by apply Hne, Hlayout. }
    destruct Hspace as [space ->].
    rewrite (bool_decide_eq_true_2 _ Hty). simpl.
    unfold new_clean_entity, copy. by rewrite Hcopy.
  - unfold s1, _add_used_resources. by repeat case_match.
  - unfold s1, _add_used_resources. by repeat case_match.
  - unfold s1, _add_used_resources. by repeat case_match.
  - unfold s1, _add_used_resources. by repeat case_match.
  - intros s2 Hfinal.
    assert (Hgo : forall k n,
      k ∈ IMPORT_TABLES ->
      n ∈ used_set k s1 ->
      table_has n (source_table k s) = true ->
      table_has n (target_table k s2) = true).
    { intros k n Hk Hn HS.
      apply (finalize_adds is_acad_arrow fuel' k n s1 s2 Hk); [done| |done].
      unfold s1. by rewrite source_table_add_used_resources. }
    split_and!; intros; apply Hgo; auto; compute_done.
Qed.

(** The line without [copy] on layer [L1]: nothing is placed in the
    target, and [finalize] imports the layer [L1] and the line type
    [DASHED] all the same. *)
Lemma import_entity_uncopyable_records_resources_witness :
  let s := sample_session tabled_source empty_target in
  exists s1 s2,
    import_entity 1 uncopyable_line None s = Ret tt s1 /\
    target s1 = empty_target /\
    finalize (fun _ => false) 1 s1 = Ret tt s2 /\
    modelspace (target s2) = [] /\
    table_has "L1" (target_table "layers" s2) = true /\
    table_has "DASHED" (target_table "linetypes" s2) = true.
Proof.
  intros s.
  pose proof (import_entity_uncopyable_records_resources (fun _ => false)
                1 1 uncopyable_line None s ltac:(compute_done) eq_refl
                ltac:(discriminate)) as (H1 & (H2 & _) & _ & H4).
  assert (Hfin : exists s2,
    finalize (fun _ => false) 1 (_add_used_resources uncopyable_line s)
    = Ret tt s2 /\ modelspace (target s2) = []).
  { eexists. split; [vm_compute; reflexivity|reflexivity]. }
  destruct Hfin as (s2 & Hfin & Hms).
  destruct (H4 s2 Hfin) as (Hl & Hlt & _).
  exists (_add_used_resources uncopyable_line s), s2.
  split_and!; [exact H1|exact H2|exact Hfin|exact Hms|exact (Hl eq_refl)
              |exact (Hlt eq_refl)].
Defined.

(** ** Block importer *)

(** C3, as stated, fails: the geometry block of the dimension in the
    source block [B] refers to a block the source does not have.  The first
    [import_block("B")] raises ValueError after it has created the target
    block [B]; the second call, with the same arguments, returns [B0], and
    the target holds two block definitions made for [B]. *)
Lemma import_block_twice_after_failure :
  exists s1 s2,
    blocks_has "B" (blocks dangling_source) = true /\
    import_block 4 "B" true (sample_session dangling_source empty_target)
    = Raise ValueError s1 /\
    import_block 4 "B" true s1 = Ret "B0" s2 /\
    (blocks (target s2)).*1 = ["B"; "G"; "B0"].
Proof.
  eexists _, _. split; [reflexivity|].
  split; [vm_compute; reflexivity|].
  split; [vm_compute; reflexivity|]. reflexivity.
Qed.

(** C3, amended.  Whenever a first call [import_block(n)] returns a name,
    a second call with the same arguments returns the same name and leaves
    the session and both drawings as they are: it is answered from the
    memo and copies nothing.  When [n] was not in the memo before the first
    call, the target holds a block definition of the returned name. *)
Theorem import_block_twice_same_name
    (fuel fuel' : nat) (n : string) (rename : bool) (s s1 : importer)
    (r : string) :
  import_block fuel n rename s = Ret r s1 ->
  import_block (S fuel') n rename s1 = Ret r s1 /\
  (imported_blocks s !! n = None ->
   blocks_has r (blocks (target s1)) = true).
Proof.
  intros H. destruct (import_block_Ret_memo _ _ _ _ _ _ H) as [Hmemo Hblock].
  split; [|done]. simpl. by rewrite Hmemo.
Qed.

(** The source block [A] meets a target block of the same name: both calls
    return [A0]. *)
Lemma import_block_twice_same_name_witness :
  let src := sample_document [] no_tables [("A", sample_block [])] [] in
  let tgt := sample_document [] no_tables [("A", sample_block [])] [] in
  exists s1,
    import_block 1 "A" true (sample_session src tgt) = Ret "A0" s1 /\
    import_block 1 "A" true s1 = Ret "A0" s1 /\
    (blocks (target s1)).*1 = ["A"; "A0"].
Proof.
  intros src tgt.
  assert (H : exists s1,
    import_block 1 "A" true (sample_session src tgt) = Ret "A0" s1 /\
    (blocks (target s1)).*1 = ["A"; "A0"]).
  { eexists. split; [vm_compute; reflexivity|reflexivity]. }
  destruct H as (s1 & H & Hnames). exists s1.
  split; [exact H|]. split; [|exact Hnames].
  exact (proj1 (import_block_twice_same_name 1 0 "A" true _ _ _ H)).
Defined.

(** ** Arrow blocks of a dimension *)

(** C9.  A dimension is imported whose geometry block [g], a block of
    the source that is not in the memo, holds no dimension, and each block
    reference in [g] names a block that both drawings have: the arrow
    blocks.  On a recursion budget above the number of entities of [g],
    [import_entity] returns; the one block that the target gains is the
    copy [g'] of the geometry block, behind the blocks it had, so that no
    copy of an arrow block, renamed or not, is made; the memo maps [g] to
    [g'] and each arrow block [a] that a reference of [g] names, and that
    the memo did not know, to [a] itself: the references were resolved
    without renaming, to the blocks the target had; the pending queue is
    as before.
    For any geometry block, whatever else it holds: when the call
    returns, an arrow block [a] that the target had, that a reference in
    [g] names, that was not in the memo and is no geometry block of the
    source is mapped to itself by the memo and still a block of the
    target. *)
Theorem dimension_arrow_block_reused
    (fuel : nat) (d : entity) (target_layout : option base_layout)
    (space : layout_key) (g : string) (bG : block_layout) (s : importer) :
  layout_space_of target_layout = Some space ->
  dxftype d = "DIMENSION" -> copy_supported d = true ->
  dxf d !! "geometry" = Some g -> g <> "" ->
  blocks_get g (blocks (source s)) = Some bG ->
  imported_blocks s !! g = None ->
  ((forall x, x ∈ entities_of (source s) (block_entities bG) ->
              dxftype x <> "DIMENSION") ->
   (forall x, x ∈ entities_of (source s) (block_entities bG) ->
      dxftype x = "INSERT" ->
      exists a, dxf x !! "name" = Some a /\
                blocks_has a (blocks (source s)) = true /\
                blocks_has a (blocks (target s)) = true) ->
   length (entities_of (source s) (block_entities bG)) < fuel ->
   exists g' s',
     import_entity fuel d target_layout s = Ret tt s' /\
     blocks_has g' (blocks (target s)) = false /\
     (blocks (target s')).*1 = ((blocks (target s)).*1 ++ [g'])%list /\
     imported_blocks s' !! g = Some g' /\
     imported_inserts s' = imported_inserts s /\
     forall x a,
       x ∈ entities_of (source s) (block_entities bG) ->
       dxftype x = "INSERT" -> copy_supported x = true ->
       dxf x !! "name" = Some a -> a <> g ->
       imported_blocks s !! a = None ->
       imported_blocks s' !! a = Some a) /\
  (forall x a s',
     x ∈ entities_of (source s) (block_entities bG) ->
     dxftype x = "INSERT" -> copy_supported x = true ->
     dxf x !! "name" = Some a -> g <> a ->
     blocks_has a (blocks (target s)) = true ->
     imported_blocks s !! a = None ->
     (forall e, e ∈ entitydb (source s) -> dxf e !! "geometry" <> Some a) ->
     import_entity fuel d target_layout s = Ret tt s' ->
     imported_blocks s' !! a = Some a /\
     blocks_has a (blocks (target s')) = true).
Proof.
  intros Hspace Hty Hcopy Hgeo Hg0 HbG Hmemo_g.
  set (c := remove_dependencies (set_doc None d) false).
  set (s1 := register_entity space c (_add_used_resources d s)).
  assert (Hrun : import_entity fuel d target_layout s
                 = _import_dimension (import_block fuel) fuel
                     (length (entitydb (target s))) s1).
  { unfold import_entity.
    rewrite (import_entity_with_copyable _ _ _ _ space);
      [|done|rewrite Hty; compute_done|done].
    rewrite Hty. unfold post_import.
    rewrite (bool_decide_eq_false_2 ("DIMENSION" = "INSERT")) by done.
    rewrite (bool_decide_eq_false_2 ("DIMENSION" = "POLYLINE")) by done.
    rewrite (bool_decide_eq_false_2 ("DIMENSION" = "HATCH")) by done.
    rewrite (bool_decide_eq_false_2 ("DIMENSION" = "VIEWPORT")) by done.
    by rewrite (bool_decide_eq_true_2 ("DIMENSION" = "DIMENSION")). }
  assert (Hd1 : entitydb (target s1) !! length (entitydb (target s))
                = Some (set_dxf_attribs c)).
  { unfold s1. rewrite <- (target_add_used_resources d s).
    apply register_lookup. }
  assert (Hg1 : dxf (set_dxf_attribs c) !! "geometry" = Some g)
    by (by rewrite set_dxf_attribs_lookup).
  assert (Hs1 : source s1 = source s)
    by (unfold s1; simpl; by rewrite source_add_used_resources).
  assert (Hm1 : imported_blocks s1 = imported_blocks s)
    by (unfold s1; simpl; by rewrite memo_add_used_resources).
  assert (Hq1 : imported_inserts s1 = imported_inserts s)
    by (unfold s1; simpl; by rewrite queue_add_used_resources).
  assert (Hn1 : (blocks (target s1)).*1 = (blocks (target s)).*1).
  { unfold s1. rewrite target_register, blocks_add_entity_names. simpl.
    by rewrite target_add_used_resources. }
  split.
  - intros Hplain Harrows Hfuel. destruct fuel as [|f]; [lia|].
    destruct (import_dimension_reuses f (length (entitydb (target s))) s1
                (set_dxf_attribs c) g bG)
      as (g' & s' & Hret & Hfree & Hnames & Hg' & Hq' & _ & Hmemo);
      try done.
    + by rewrite Hm1.
    + by rewrite Hs1.
    + by rewrite Hs1.
    + rewrite Hs1. intros x Hx Hx'.
      destruct (Harrows x Hx Hx') as (a & Ha & Hsrc & Htgt).
      exists a. split_and!; [done|done|].
      by rewrite (blocks_has_names _ _ _ Hn1).
    + rewrite Hs1. lia.
    + exists g', s'. rewrite Hrun. split_and!.
      * exact Hret.
      * by rewrite <- (blocks_has_names _ _ _ Hn1).
      * by rewrite Hnames, Hn1.
      * exact Hg'.
      * by rewrite Hq', Hq1.
      * intros x a Hx Hxty Hxcopy Hxname Hag Hma.
        apply (Hmemo x a); try done; [by rewrite Hs1|by rewrite Hm1].
  - intros x a s' Hx Hxty Hxcopy Hxname Hga Hhas Hmemo_a Hsrc.
    rewrite Hrun. intros Hdim.
    assert (HI : arrow_kept a false s1).
    { apply arrow_kept_register, arrow_kept_used. split_and!; [done..|].
      by right. }
    assert (Harrow : arrow_kept a true s').
    { apply (import_dimension_resolves a fuel fuel
               (length (entitydb (target s))) s1 s' g bG x); try done.
      - by exists (set_dxf_attribs c).
      - by rewrite Hm1.
      - by rewrite Hs1.
      - by rewrite Hs1. }
    destruct Harrow as (Hb & _ & [Hm|[? _]]); done.
Qed.

(** The dimension with geometry block [*D1], which holds a line and a
    reference to [_ARROW], imported into the model space of a target that
    has the arrow block: the call returns, the only block the target
    gains is the geometry block, and the memo maps [_ARROW] to itself. *)
Lemma dimension_arrow_block_reused_witness :
  exists s',
    import_entity 3 dimension_D1 None
      (sample_session dimensioned_source arrow_target) = Ret tt s' /\
    (blocks (target s')).*1 = ["_ARROW"; "*D1"] /\
    imported_blocks s' !! "*D1" = Some "*D1" /\
    imported_blocks s' !! "_ARROW" = Some "_ARROW" /\
    imported_inserts s' = [].
Proof.
  destruct (dimension_arrow_block_reused 3 dimension_D1 None ModelSpace
              "*D1" (sample_block [1; 2])
              (sample_session dimensioned_source arrow_target))
    as [Htotal _]; try done.
  destruct Htotal as (g' & s' & Hret & _ & Hnames & Hg & Hq & Hmemo).
  - intros x Hx. simpl in Hx.
    repeat (apply elem_of_cons in Hx as [->|Hx]); try done.
    by apply elem_of_nil in Hx.
  - intros x Hx Hty. simpl in Hx.
    repeat (apply elem_of_cons in Hx as [->|Hx]); try done.
    + by exists "_ARROW".
    + by apply elem_of_nil in Hx.
  - simpl. lia.
  - assert (Hrun : exists s0,
      import_entity 3 dimension_D1 None
        (sample_session dimensioned_source arrow_target) = Ret tt s0 /\
      (blocks (target s0)).*1 = ["_ARROW"; "*D1"]).
    { eexists. split; [vm_compute; reflexivity|reflexivity]. }
    destruct Hrun as (s0 & Hrun & Hnames0).
    rewrite Hret in Hrun. injection Hrun as <-.
    rewrite Hnames0 in Hnames. injection Hnames as <-.
    exists s'. split_and!; [done|done|done| |done].
    apply (Hmemo arrow_insert "_ARROW"); try done.
    apply list_elem_of_further, list_elem_of_here.
Defined.

(** ** The insert resolver *)

(** X1.  When no block definition of the source holds a dimension and the
    pending queue holds handles of the target store, each once, then
    [_resolve_inserts] comes back, and a recursion budget of two more than
    the number of source blocks without a memo entry is enough for it.
    The block imports it has performed are the names [imp]: they are
    pairwise distinct, each is reachable from the block names of the
    queued references through the references in the source blocks, each
    had no memo entry before and has one afterwards, and the target has
    gained exactly one block definition per name.  The source is left as
    it was. *)
Theorem resolve_inserts_terminates (s : importer) :
  no_dimension_in_blocks (source s) ->
  queue_wf s ->
  exists s' imp,
    final_state (_resolve_inserts (unmemoized s + 2) s) = Some s' /\
    source s' = source s /\
    NoDup imp /\
    (forall n, n ∈ imp ->
       reachable (source s) (pending_names s) n /\
       imported_blocks s !! n = None /\
       is_Some (imported_blocks s' !! n)) /\
    length (blocks (target s'))
    = length (blocks (target s)) + length imp /\
    length imp <= unmemoized s.
Proof.
  intros Hplain [Hnodup Hlt].
  destruct (resolve_inserts_plain (reachable (source s) (pending_names s)) s
              Hplain (reachable_insert (source s) (pending_names s))
              (unmemoized s) s [])
    as (s' & imp & Hfinal & Hsrc & Himp & Hmem & _ & Hlen & Hmu).
  - done.
  - split; [done|]. split; [constructor|].
    split; [intros n Hn; by apply elem_of_nil in Hn|].
    split; [done|]. split; simpl; lia.
  - split; [done|]. intros h Hh. split; [by apply Hlt|].
    intros e m He Hm. apply reachable_root. unfold pending_names.
    apply list_elem_of_omap. exists h. split; [done|].
    rewrite He. simpl. done.
  - exists s', imp. split_and!; try done. lia.
Qed.

(** A reference to block [A] of the drawing whose blocks [A] and [B] refer
    to each other is imported into an empty target; the resolver then
    returns, having copied two blocks. *)
Lemma resolve_inserts_terminates_witness :
  exists s1,
    import_entity 1 insert_A None (sample_session crossed_source empty_target)
    = Ret tt s1 /\
    exists s' imp,
      final_state (_resolve_inserts (unmemoized s1 + 2) s1) = Some s' /\
      source s' = source s1 /\
      NoDup imp /\
      (forall n, n ∈ imp ->
         reachable (source s1) (pending_names s1) n /\
         imported_blocks s1 !! n = None /\
         is_Some (imported_blocks s' !! n)) /\
      length (blocks (target s'))
      = length (blocks (target s1)) + length imp /\
      length imp <= unmemoized s1.
Proof.
  assert (H : exists s1,
    import_entity 1 insert_A None (sample_session crossed_source empty_target)
    = Ret tt s1 /\
    source s1 = crossed_source /\ imported_inserts s1 = [0] /\
    length (entitydb (target s1)) = 1).
  { eexists. split; [vm_compute; reflexivity|]. by split_and!. }
  destruct H as (s1 & H & Hsrc & Hq & Hlen). exists s1. split; [exact H|].
  apply (resolve_inserts_terminates s1).
  - rewrite Hsrc. intros n b e Hb He. unfold blocks_get in Hb. simpl in Hb.
    repeat case_bool_decide; simpl in Hb; simplify_eq; simpl in He;
      repeat (apply elem_of_cons in He as [->|He]); try done;
      by apply elem_of_nil in He.
  - split; rewrite Hq.
    + apply NoDup_singleton.
    + intros h ->%list_elem_of_singleton. lia.
Defined.

(** X2.  A block of the source that is not in the memo and holds a
    dimension that can be copied, behind entities that are not dimensions,
    whose geometry block is that very block: [import_block] with renaming
    does not come back, whatever the recursion budget, because the memo
    entry of a block is written after its entities are imported. *)
Theorem import_block_self_dimension_diverges
    (fuel : nat) (s : importer) (n : string) (b : block_layout)
    (l1 rest : list entity) (d : entity) :
  n <> "" ->
  imported_blocks s !! n = None ->
  blocks_get n (blocks (source s)) = Some b ->
  entities_of (source s) (block_entities b) = (l1 ++ d :: rest)%list ->
  (forall e, e ∈ l1 -> dxftype e <> "DIMENSION") ->
  dxftype d = "DIMENSION" -> copy_supported d = true ->
  dxf d !! "geometry" = Some n ->
  import_block fuel n true s = OutOfFuel.
Proof. apply import_block_self_dimension. Qed.

(** The block [D], which holds a line and a dimension with geometry block
    [D]. *)
Lemma import_block_self_dimension_diverges_witness :
  import_block 1000 "D" true (sample_session looping_source empty_target)
  = OutOfFuel.
Proof.
  apply (import_block_self_dimension_diverges 1000 _ "D" (sample_block [0; 1])
           [sample_entity "LINE" []] [] self_dimension); try done.
  intros e ->%list_elem_of_singleton. done.
Defined.

(** X3.  When every name in the memo is a block of the target and
    [_resolve_inserts] returns, the pending queue is empty, every name in
    the memo is still a block of the target, and each entity that was
    queued carries a block name under which the target has a block
    definition: no resolved reference is left dangling. *)
Theorem resolve_inserts_leaves_no_dangling_reference
    (fuel : nat) (s s' : importer) :
  memo_sound s ->
  _resolve_inserts fuel s = Ret tt s' ->
  imported_inserts s' = [] /\
  memo_sound s' /\
  forall h, h ∈ imported_inserts s -> resolved h s'.
Proof.
  intros HI Hret. split; [by eapply resolve_inserts_Ret_queue|].
  destruct (resolve_inserts_sound _ _ _ HI Hret) as (HI' & _ & Hall).
  by split.
Qed.

(** The reference to block [A] of the drawing with the blocks [A] and [B],
    imported into a target that has a block [A] of its own: the copy of
    the reference ends up naming the renamed block [A0]. *)
Lemma resolve_inserts_leaves_no_dangling_reference_witness :
  exists s1 s',
    import_entity 1 insert_A None
      (sample_session crossed_source
         (sample_document [] no_tables [("A", sample_block [])] []))
    = Ret tt s1 /\
    _resolve_inserts 4 s1 = Ret tt s' /\
    (blocks (target s')).*1 = ["A"; "A0"; "B"] /\
    imported_inserts s' = [] /\
    memo_sound s' /\
    forall h, h ∈ imported_inserts s1 -> resolved h s'.
Proof.
  assert (H : exists s1 s',
    import_entity 1 insert_A None
      (sample_session crossed_source
         (sample_document [] no_tables [("A", sample_block [])] []))
    = Ret tt s1 /\
    _resolve_inserts 4 s1 = Ret tt s' /\
    (blocks (target s')).*1 = ["A"; "A0"; "B"] /\
    imported_blocks s1 = ∅).
  { do 2 eexists. split; [vm_compute; reflexivity|].
    split; [vm_compute; reflexivity|]. by split. }
  destruct H as (s1 & s' & H1 & H2 & Hnames & Hmemo). exists s1, s'.
  split; [exact H1|]. split; [exact H2|]. split; [exact Hnames|].
  apply (resolve_inserts_leaves_no_dangling_reference 4 s1 s'); [|exact H2].
  intros n r. by rewrite Hmemo.
Defined.

(** X4.  The memo only ever answers with blocks of the target: when every
    name in the memo is a block of the target before [import_entities] or
    [import_block] is called, the same holds for the session the call
    leaves behind, whether it returns or raises. *)
Theorem memo_names_blocks_of_target
    (fuel : nat) (entities : list entity) (target_layout : option base_layout)
    (block_name : string) (rename : bool) (s s' : importer) :
  memo_sound s ->
  (final_state (import_entities fuel entities target_layout s) = Some s' \/
   final_state (import_block fuel block_name rename s) = Some s') ->
  memo_sound s'.
Proof.
  intros HI [H|H].
  - revert H. apply inv_import_entities_guarded; try done.
    + intros space e c s1 _ HI1 n' r' Hn. rewrite blocks_has_register. eauto.
    + intros n' v s1 HI1 Hv _ m r'. simpl.
      destruct (decide (n' = m)) as [->|Hne].
      * rewrite lookup_insert_eq. by intros [= <-].
      * rewrite lookup_insert_ne by done. apply HI1.
    + intros n' attrs s1 HI1 m r' Hm. simpl. rewrite blocks_has_new.
      by rewrite (HI1 m r' Hm).
  - revert H. by apply memo_sound_import_block.
Qed.

(** The block [B] of the dangling drawing: the call raises after the
    target has gained blocks, and the memo is still sound. *)
Lemma memo_names_blocks_of_target_witness :
  exists s',
    import_block 5 "B" true (sample_session dangling_source empty_target)
    = Raise ValueError s' /\
    memo_sound s'.
Proof.
  assert (H : exists s',
    import_block 5 "B" true (sample_session dangling_source empty_target)
    = Raise ValueError s').
  { eexists. vm_compute. reflexivity. }
  destruct H as (s' & H). exists s'. split; [exact H|].
  apply (memo_names_blocks_of_target 5 [] None "B" true
           (sample_session dangling_source empty_target) s').
  - intros n r. done.
  - right. by rewrite H.
Defined.

(** ** The table importer *)

(** X5.  For one of the four supported table names and a source table
    whose entries can all be copied, [import_table] returns, whatever the
    requested entries and the [replace] flag are: a name that the source
    table lacks is skipped, not an error. *)
Theorem import_table_returns
    (k : string) (entries : names_arg) (replace : bool) (s : importer) :
  k ∈ IMPORT_TABLES ->
  source_table_copyable k s ->
  exists s', import_table k entries replace s = Ret tt s'.
Proof.
  intros Hk Hcopy. unfold import_table.
  rewrite (bool_decide_eq_true_2 _ Hk). simpl.
  match goal with
  | |- exists s', for_each _ ?l _ = _ => generalize l
  end.
  intros l.
  destruct (for_each_returns (source_table_copyable k)
              (import_table_entry k replace) l) with (s := s)
    as (s' & H & _); [|done|by exists s'].
  intros x s1. apply import_table_entry_returns.
Qed.

(** The layers [L1] and [MISSING] are asked for; the source has [L1]. *)
Lemma import_table_returns_witness :
  exists s',
    import_table "layers" (Names ["L1"; "MISSING"]) true
      (sample_session layered_source empty_target) = Ret tt s'.
Proof.
  apply (import_table_returns "layers" (Names ["L1"; "MISSING"]) true
           (sample_session layered_source empty_target)).
  - compute_done.
  - intros x Hx. simpl in Hx. apply list_elem_of_singleton in Hx as ->. done.
Defined.

(** X6.  Without [replace], the table importer only appends: whatever
    [import_table] or [import_tables] was asked to import, and whether it
    returned or raised, each table of the target starts with the entries
    it had before, in their order and unchanged. *)
Theorem import_table_keeps_target_entries
    (name : string) (entries table_names : names_arg) (k : string)
    (s s' : importer) :
  (final_state (import_table name entries false s) = Some s' \/
   final_state (import_tables table_names false s) = Some s') ->
  target_table k s `prefix_of` target_table k s'.
Proof.
  intros [H|H].
  - by apply (target_prefix_import_table (target_table k s) k name entries
                s s').
  - revert H. unfold import_tables.
    apply (inv_for_each (fun s1 => target_table k s `prefix_of`
                                   target_table k s1)); [|done].
    intros x _. apply target_prefix_import_table.
Qed.

(** The layer [L1] is imported into a target that has a layer [L1] of
    its own and a layer [0]: both stay as they are. *)
Lemma import_table_keeps_target_entries_witness :
  exists s',
    import_table "layers" (Str "*") false
      (sample_session layered_source
         (sample_document [] (Tables [] [layer_0; layer_L1] [] [])
            [] [])) = Ret tt s' /\
    [layer_0; layer_L1] `prefix_of` target_table "layers" s'.
Proof.
  assert (H : exists s',
    import_table "layers" (Str "*") false
      (sample_session layered_source
         (sample_document [] (Tables [] [layer_0; layer_L1] [] [])
            [] [])) = Ret tt s').
  { eexists. vm_compute. reflexivity. }
  destruct H as (s' & H). exists s'. split; [exact H|].
  apply (import_table_keeps_target_entries "layers" (Str "*") (Str "*")
           "layers"
           (sample_session layered_source
              (sample_document [] (Tables [] [layer_0; layer_L1] [] [])
                 [] [])) s').
  left. by rewrite H.
Defined.

(** X7.  When [import_tables] with the default arguments (all supported
    tables, no replacing) returns, every entry name of the four source
    tables has an entry in the table of the same kind of the target. *)
Theorem import_tables_copies_every_entry
    (k n : string) (s s' : importer) :
  k ∈ IMPORT_TABLES ->
  table_has n (source_table k s) = true ->
  import_tables (Str "*") false s = Ret tt s' ->
  table_has n (target_table k s') = true.
Proof.
  intros Hk Hsrc. unfold import_tables.
  rewrite bool_decide_eq_true_2 by done.
  apply (for_each_Ret_establishes
           (fun table_name => import_table table_name (Str "*") false)
           (fun s => table_has n (source_table k s) = true)
           (fun s => table_has n (target_table k s) = true) k).
  - intros y s1 s2 H1 Hy.
    by apply (inv_Ret_elim _ _ _ _ _
                (source_has_import_table k n y (Str "*")) H1 Hy).
  - intros y s1 s2 H1 Hy.
    by apply (inv_Ret_elim _ _ _ _ _
                (target_has_import_table k n y (Str "*")) H1 Hy).
  - intros s1 s2. apply import_table_all_adds.
  - done.
  - done.
Qed.

(** The line type [DASHED] and the layer [L1] of the source with both
    tables filled. *)
Lemma import_tables_copies_every_entry_witness :
  exists s',
    import_tables (Str "*") false (sample_session tabled_source empty_target)
    = Ret tt s' /\
    table_has "DASHED" (target_table "linetypes" s') = true.
Proof.
  assert (H : exists s',
    import_tables (Str "*") false (sample_session tabled_source empty_target)
    = Ret tt s').
  { eexists. vm_compute. reflexivity. }
  destruct H as (s' & H). exists s'. split; [exact H|].
  apply (import_tables_copies_every_entry "linetypes" "DASHED"
           (sample_session tabled_source empty_target) s');
    [compute_done|done|exact H].
Defined.

(** X8.  [import_table(k, n, replace=True)] for a supported table [k] and
    an entry name [n] that the source table holds: the call returns, the
    target table is the one from before without its entries named [n],
    followed by the clean copy of the source entry; looking up [n] in the
    target then gives that copy, and every other name is answered as
    before. *)
Theorem import_table_replaces_entry
    (k n : string) (e c : entity) (s : importer) :
  k ∈ IMPORT_TABLES -> n <> "*" ->
  table_get n (source_table k s) = Some e ->
  new_clean_entity e false = Some c ->
  exists s',
    import_table k (Str n) true s = Ret tt s' /\
    target_table k s' = (table_remove n (target_table k s) ++ [c])%list /\
    table_get n (target_table k s') = Some c /\
    forall m, m <> n ->
      table_get m (target_table k s') = table_get m (target_table k s).
Proof.
  intros Hk Hn He Hc. exists (table_entry_copied k e c s).
  assert (Hname : dxf c !! "name" = Some n).
  { apply new_clean_entity_dxf in Hc as [-> _].
    by apply table_get_Some in He as [_ ?]. }
  assert (Htab : target_table k (table_entry_copied k e c s)
                 = (table_remove n (target_table k s) ++ [c])%list).
  { rewrite target_table_copied_same, (table_get_dxf_name _ _ _ He).
    destruct (table_has n (target_table k s)) eqn:Ehas; [done|].
    by rewrite table_remove_absent. }
  split_and!.
  - unfold import_table. rewrite (bool_decide_eq_true_2 _ Hk).
    rewrite (bool_decide_eq_false_2 _ Hn). simpl.
    rewrite (bind_Ret_l _ _ _ tt (table_entry_copied k e c s)); [done|].
    apply import_table_entry_copy; [done|apply andb_false_r|done].
  - done.
  - rewrite Htab, table_get_app_absent by apply table_has_remove.
    by apply table_get_singleton.
  - intros m Hm. rewrite Htab.
    destruct (table_has m (table_remove n (target_table k s))) eqn:Ehas.
    + rewrite table_get_app_present by done. by apply table_get_remove_ne.
    + rewrite table_get_app_absent by done.
      rewrite (table_get_singleton_ne n) by done.
      rewrite <- (table_get_remove_ne n m) by done.
      destruct (table_get m (table_remove n (target_table k s))) eqn:Eg;
        [|done].
      apply table_get_Some in Eg as [Hin Hmn].
      assert (table_has m (table_remove n (target_table k s)) = true);
        [|congruence].
      apply existsb_exists. exists e0. split; [by apply list_elem_of_In|].
      by apply bool_decide_eq_true_2.
Qed.

(** The layer [L1] replaces the layer [L1] of the target; the layer [0]
    stays. *)
Lemma import_table_replaces_entry_witness :
  exists s',
    import_table "layers" (Str "L1") true
      (sample_session layered_source
         (sample_document [] (Tables [] [layer_L1; layer_0] [] []) [] []))
    = Ret tt s' /\
    target_table "layers" s'
    = [layer_0; remove_dependencies (set_doc None layer_L1) false] /\
    table_get "0" (target_table "layers" s') = Some layer_0.
Proof.
  destruct (import_table_replaces_entry "layers" "L1" layer_L1
              (remove_dependencies (set_doc None layer_L1) false)
              (sample_session layered_source
                 (sample_document [] (Tables [] [layer_L1; layer_0] [] [])
                    [] [])))
    as (s' & H & Htab & _ & Hother); [compute_done|done|done|done|].
  exists s'. split; [exact H|]. split; [exact Htab|].
  by rewrite (Hother "0").
Defined.

(** X9.  [import_table] without [replace] is idempotent: when a call has
    returned, the same call on the session it left behind returns at once
    and changes nothing, since every requested entry that the source
    holds is in the target table by then. *)
Theorem import_table_idempotent
    (k : string) (entries : names_arg) (s s1 : importer) :
  import_table k entries false s = Ret tt s1 ->
  import_table k entries false s1 = Ret tt s1.
Proof.
  unfold import_table.
  destruct (negb (bool_decide (k ∈ IMPORT_TABLES))); [done|].
  intros Hrun.
  destruct (import_table_entries_add _ _ _ _ Hrun) as [Hnames Hadd].
  match type of Hrun with
  | for_each _ ?l _ = _ => set (l0 := l) in *
  end.
  match goal with
  | |- for_each _ ?l _ = _ => replace l with l0
  end.
  - apply import_table_entries_skip. intros n e Hn He.
    rewrite (table_get_dxf_name _ _ _ He). apply Hadd; [done|].
    rewrite <- (table_has_entry_names n _ _ Hnames).
    by eapply table_get_has.
  - unfold l0. destruct entries as [e|l]; [|done].
    destruct (bool_decide (e = "*")); [|done].
    symmetry. by apply dxf_name_entry_names.
Qed.

(** All layers of the source, imported twice. *)
Lemma import_table_idempotent_witness :
  exists s1,
    import_table "layers" (Str "*") false
      (sample_session layered_source empty_target) = Ret tt s1 /\
    import_table "layers" (Str "*") false s1 = Ret tt s1.
Proof.
  assert (H : exists s1,
    import_table "layers" (Str "*") false
      (sample_session layered_source empty_target) = Ret tt s1).
  { eexists. vm_compute. reflexivity. }
  destruct H as (s1 & H). exists s1. split; [exact H|].
  exact (import_table_idempotent "layers" (Str "*")
           (sample_session layered_source empty_target) s1 H).
Defined.

(** ** What entity and block import leave untouched *)

(** X10.  Importing entities, blocks and paper space layouts and
    resolving the pending block references never changes the source
    drawing: the session such a call leaves behind, returned or raised,
    has the source it had before. *)
Theorem source_drawing_unchanged
    (fuel : nat) (entities : list entity) (target_layout : option base_layout)
    (block_names : list string) (rename : bool) (s s' : importer) :
  (final_state (import_entities fuel entities target_layout s) = Some s' \/
   final_state (import_blocks fuel block_names rename s) = Some s' \/
   final_state (import_paperspace_layouts fuel s) = Some s' \/
   final_state (_resolve_inserts fuel s) = Some s') ->
  source s' = source s.
Proof.
  intros [H|[H|[H|H]]]; revert H.
  - by apply source_kept_import_entities.
  - apply (inv_import_blocks (fun s1 => source s1 = source s)); [|done].
    intros n. apply source_kept_import_block.
  - by apply source_kept_import_paperspace_layouts.
  - by apply source_kept_resolve_inserts.
Qed.

(** The blocks [A] and [B] that refer to each other, imported with
    [import_blocks]. *)
Lemma source_drawing_unchanged_witness :
  exists s',
    import_blocks 3 ["A"; "B"] false
      (sample_session crossed_source empty_target) = Ret tt s' /\
    source s' = crossed_source.
Proof.
  assert (H : exists s',
    import_blocks 3 ["A"; "B"] false
      (sample_session crossed_source empty_target) = Ret tt s').
  { eexists. vm_compute. reflexivity. }
  destruct H as (s' & H). exists s'. split; [exact H|].
  apply (source_drawing_unchanged 3 [] None ["A"; "B"] false
           (sample_session crossed_source empty_target) s').
  right. left. by rewrite H.
Defined.

(** X11.  Importing entities and blocks only adds to the target: in the
    session the call leaves behind, returned or raised, the block names
    the target had come first and in their order, the layouts have the
    names they had, the tables are the tables from before (table entries
    are only imported by the table importer), and every handle of the
    entity store still stands for an entity of the type it had. *)
Theorem entity_import_keeps_target
    (fuel : nat) (entities : list entity) (target_layout : option base_layout)
    (block_names : list string) (rename : bool) (s s' : importer) :
  (final_state (import_entities fuel entities target_layout s) = Some s' \/
   final_state (import_blocks fuel block_names rename s) = Some s') ->
  target_kept s s'.
Proof.
  intros [H|H]; revert H.
  - apply target_kept_import_entities, target_kept_refl.
  - apply (inv_import_blocks (target_kept s)); [|apply target_kept_refl].
    intros n. apply target_kept_import_block.
Qed.

(** The dimension with its geometry block, imported into the target that
    has the arrow block. *)
Lemma entity_import_keeps_target_witness :
  exists s',
    import_entities 3 [dimension_D1; arrow_insert] None
      (sample_session dimensioned_source arrow_target) = Ret tt s' /\
    target_kept (sample_session dimensioned_source arrow_target) s'.
Proof.
  assert (H : exists s',
    import_entities 3 [dimension_D1; arrow_insert] None
      (sample_session dimensioned_source arrow_target) = Ret tt s').
  { eexists. vm_compute. reflexivity. }
  destruct H as (s' & H). exists s'. split; [exact H|].
  apply (entity_import_keeps_target 3 [dimension_D1; arrow_insert] None []
           false (sample_session dimensioned_source arrow_target) s').
  left. by rewrite H.
Defined.

(** ** The layout importer *)



(** X13.  When [import_paperspace_layouts] returns, the target has gained
    one layout for each layout of the source whose name is not the model
    space name, behind the layouts it had, which keep their names; if the
    layout names of the target were pairwise distinct before, they still
    are. *)
Theorem import_paperspace_layouts_adds_layouts
    (fuel : nat) (s s' : importer) :
  import_paperspace_layouts fuel s = Ret tt s' ->
  exists new,
    layout_name <$> layouts (target s')
    = ((layout_name <$> layouts (target s)) ++ new)%list /\
    length new = length (paperspace_names (source s)) /\
    (NoDup (layout_name <$> layouts (target s)) ->
     NoDup (layout_name <$> layouts (target s'))).
Proof.
  unfold import_paperspace_layouts, paperspace_names. intros H.
  exact (import_paperspace_layouts_loop fuel
           (names_in_taborder (layouts (source s))) s s' H).
Qed.

(** A source with the layouts [Model], [Layout1] and [Layout2], the
    second holding a line, and a target that has a [Layout1]. *)
Lemma import_paperspace_layouts_adds_layouts_witness :
  exists s',
    import_paperspace_layouts 1 (sample_session paper_source paper_target)
    = Ret tt s' /\
    layout_name <$> layouts (target s')
    = ["Layout1"; "Layout11"; "Layout2"] /\
    exists new,
      layout_name <$> layouts (target s')
      = ((layout_name <$> layouts paper_target) ++ new)%list /\
      length new = length (paperspace_names paper_source).
Proof.
  assert (H : exists s',
    import_paperspace_layouts 1 (sample_session paper_source paper_target)
    = Ret tt s' /\
    layout_name <$> layouts (target s')
    = ["Layout1"; "Layout11"; "Layout2"]).
  { eexists. split; [vm_compute; reflexivity|reflexivity]. }
  destruct H as (s' & H & Hnames). exists s'.
  split; [exact H|]. split; [exact Hnames|].
  destruct (import_paperspace_layouts_adds_layouts 1
              (sample_session paper_source paper_target) s' H)
    as (new & Hnew & Hlen & _).
  exists new. split; [exact Hnew|exact Hlen].
Defined.

(** ** Blocks that are asked for by name *)

(** X14.  When the target has a block under every name of the memo and
    under every name the memo answers with, and [import_blocks] returns,
    then this still holds, and each requested block name has a memo
    entry: the target has a block of that name and a block of the name
    that the memo answers with. *)
Theorem import_blocks_leaves_blocks
    (fuel : nat) (block_names : list string) (rename : bool)
    (s s' : importer) (n : string) :
  memo_in_target s ->
  import_blocks fuel block_names rename s = Ret tt s' ->
  n ∈ block_names ->
  memo_in_target s' /\
  exists r, imported_blocks s' !! n = Some r /\
            blocks_has n (blocks (target s')) = true /\
            blocks_has r (blocks (target s')) = true.
Proof.
  intros HI Hret Hn.
  destruct (import_blocks_memo _ _ _ _ _ n HI Hn Hret) as [HI' [r Hr]].
  split; [done|]. exists r. destruct (HI' n r Hr). by split_and!.
Qed.

(** The blocks [A] and [B] that refer to each other, imported with
    renaming into a target that has a block [A]. *)
Lemma import_blocks_leaves_blocks_witness :
  exists s',
    import_blocks 3 ["A"; "B"] true
      (sample_session crossed_source
         (sample_document [] no_tables [("A", sample_block [])] []))
    = Ret tt s' /\
    (blocks (target s')).*1 = ["A"; "A0"; "B"] /\
    exists r, imported_blocks s' !! "A" = Some r /\
              blocks_has "A" (blocks (target s')) = true /\
              blocks_has r (blocks (target s')) = true.
Proof.
  assert (H : exists s',
    import_blocks 3 ["A"; "B"] true
      (sample_session crossed_source
         (sample_document [] no_tables [("A", sample_block [])] []))
    = Ret tt s' /\
    (blocks (target s')).*1 = ["A"; "A0"; "B"]).
  { eexists. split; [vm_compute; reflexivity|reflexivity]. }
  destruct H as (s' & H & Hnames). exists s'.
  split; [exact H|]. split; [exact Hnames|].
  apply (import_blocks_leaves_blocks 3 ["A"; "B"] true
           (sample_session crossed_source
              (sample_document [] no_tables [("A", sample_block [])] []))
           s' "A"); [|exact H|left].
  intros n r. done.
Defined.

(** X15.  When the target has a block under every name of the memo and
    under every name the memo answers with, and [_create_missing_arrows]
    returns, then the empty arrow name is no longer recorded, and for
    each recorded arrow name that is not empty and not one of the
    well-known arrows the memo has an entry and the target has a block
    of that name. *)
Theorem create_missing_arrows_leaves_blocks
    (is_acad_arrow : string -> bool) (fuel : nat) (s s' : importer)
    (a : string) :
  memo_in_target s ->
  _create_missing_arrows is_acad_arrow fuel s = Ret tt s' ->
  a ∈ used_arrows s -> a <> "" -> is_acad_arrow a = false ->
  ("" ∉ used_arrows s') /\
  is_Some (imported_blocks s' !! a) /\
  blocks_has a (blocks (target s')) = true.
Proof.
  intros HI Hret Ha Hne Hacad.
  destruct (create_missing_arrows_memo _ _ _ _ _ HI Ha Hne Hacad Hret)
    as (Hused & HI' & [r Hr]).
  split_and!.
  - rewrite Hused. intros [_ Hin]%elem_of_difference. apply Hin.
    by apply elem_of_singleton.
  - by exists r.
  - by destruct (HI' a r Hr).
Qed.

(** The arrow names [A], a block of the source, and the empty name are
    recorded; no name is taken for a well-known arrow. *)
Lemma create_missing_arrows_leaves_blocks_witness :
  exists s',
    _create_missing_arrows (fun _ => false) 3
      (set_used_arrows {["A"; ""]}
         (sample_session crossed_source empty_target)) = Ret tt s' /\
    ("" ∉ used_arrows s') /\
    is_Some (imported_blocks s' !! "A") /\
    blocks_has "A" (blocks (target s')) = true.
Proof.
  assert (H : exists s',
    _create_missing_arrows (fun _ => false) 3
      (set_used_arrows {["A"; ""]}
         (sample_session crossed_source empty_target)) = Ret tt s').
  { eexists. vm_compute. reflexivity. }
  destruct H as (s' & H). exists s'. split; [exact H|].
  apply (create_missing_arrows_leaves_blocks (fun _ => false) 3
           (set_used_arrows {["A"; ""]}
              (sample_session crossed_source empty_target)) s' "A");
    [|exact H| |done|done].
  - intros n r. done.
  - simpl. apply elem_of_union. left. by apply elem_of_singleton.
Defined.
